(** * Gently: stamp codec, gate cycle and tier promotion engine

    A shallow embedding of [sdk/python-models/stamp.py],
    [sdk/python-models/gently_tiers.py] and the [Project] operations of
    [sdk/models/gently_model.py], with the properties of the design
    document proved (or refuted) over it.

    Python values are modelled as follows.
    - [str] is a list of Unicode code points ([list N]); slicing, [split],
      [replace] and [startswith] work on code points, as in Python 3.
    - [int] is [Z].
    - [datetime.now()] is an argument of every function that reads the
      clock.
    - objects that are reachable through two lists (the artifacts of a
      project) live in a store indexed by addresses; lists hold addresses. *)

From Stdlib Require Import ZArith NArith Lia String Ascii Decimal DecimalZ DecimalPos.
From stdpp Require Import base option list.

Local Open Scope N_scope.

(** ** Python strings *)

Module Py.

Abbreviation char := N (only parsing).
Abbreviation str := (list N) (only parsing).

(** An ASCII literal as a Python string. *)
Definition lit (s : string) : str :=
  List.map N_of_ascii (list_ascii_of_string s).

Fixpoint str_eqb (a b : str) : bool :=
  match a, b with
  | [], [] => true
  | x :: a', y :: b' => (x =? y) && str_eqb a' b'
  | _, _ => false
  end.

(** [s.startswith(pre)] *)
Fixpoint startswith (pre s : str) : bool :=
  match pre, s with
  | [], _ => true
  | x :: pre', y :: s' => (x =? y) && startswith pre' s'
  | _ :: _, [] => false
  end.

(** [s.endswith(suf)] *)
Definition endswith (suf s : str) : bool :=
  startswith (reverse suf) (reverse s).

(** [s[1:-1]] *)
Definition slice_1_neg1 (s : str) : str :=
  drop 1 (take (length s - 1) s).

(** [s.split(sep)] for a separator of one character. *)
Fixpoint split (sep : char) (s : str) : list str :=
  match s with
  | [] => [[]]
  | c :: s' =>
      if c =? sep then [] :: split sep s'
      else match split sep s' with
           | p :: ps => (c :: p) :: ps
           | [] => [[c]]
           end
  end.

(** [sep.join(parts)] *)
Fixpoint join (sep : str) (parts : list str) : str :=
  match parts with
  | [] => []
  | [p] => p
  | p :: ps => p ++ sep ++ join sep ps
  end.

(** [s.replace(old, new)] for two strings of one character. *)
Definition replace (old new : char) (s : str) : str :=
  List.map (fun c => if c =? old then new else c) s.

(** [s.rfind(sub)]: the start of the last occurrence of [sub] in [s]. *)
Fixpoint rfind (sub s : str) : option nat :=
  match s with
  | [] => if startswith sub [] then Some 0%nat else None
  | _ :: s' =>
      match rfind sub s' with
      | Some i => Some (S i)
      | None => if startswith sub s then Some 0%nat else None
      end
  end.

(** [sub in s] *)
Definition contains (sub s : str) : bool :=
  match rfind sub s with Some _ => true | None => false end.

(** [s.rsplit(sep, 1)] *)
Definition rsplit1 (sep s : str) : list str :=
  match rfind sep s with
  | Some i => [take i s; drop (i + length sep) s]
  | None => [s]
  end.

(** [x in l] and [l.index(x)] on a list of strings. *)
Fixpoint index (x : str) (l : list str) : option nat :=
  match l with
  | [] => None
  | y :: l' => if str_eqb y x then Some 0%nat
               else match index x l' with Some i => Some (S i) | None => None end
  end.

(** *** [str(n)] and [int(s)] *)

Fixpoint uint_chars (u : Decimal.uint) : str :=
  match u with
  | Nil => []
  | D0 u => 48 :: uint_chars u
  | D1 u => 49 :: uint_chars u
  | D2 u => 50 :: uint_chars u
  | D3 u => 51 :: uint_chars u
  | D4 u => 52 :: uint_chars u
  | D5 u => 53 :: uint_chars u
  | D6 u => 54 :: uint_chars u
  | D7 u => 55 :: uint_chars u
  | D8 u => 56 :: uint_chars u
  | D9 u => 57 :: uint_chars u
  end.

(** [str(z)] (also what an f-string substitutes for an [int]). *)
Definition str_of_int (z : Z) : str :=
  match Z.to_int z with
  | Decimal.Pos u => uint_chars u
  | Decimal.Neg u => 45 :: uint_chars u
  end.

Definition digit_cons (c : char) (u : Decimal.uint) : option Decimal.uint :=
  match c with
  | 48 => Some (D0 u) | 49 => Some (D1 u) | 50 => Some (D2 u)
  | 51 => Some (D3 u) | 52 => Some (D4 u) | 53 => Some (D5 u)
  | 54 => Some (D6 u) | 55 => Some (D7 u) | 56 => Some (D8 u)
  | 57 => Some (D9 u)
  | _ => None
  end.

Fixpoint chars_uint (s : str) : option Decimal.uint :=
  match s with
  | [] => Some Nil
  | c :: s' =>
      match chars_uint s' with
      | Some u => digit_cons c u
      | None => None
      end
  end.

(** A non-empty run of ASCII digits. *)
Definition digits_value (s : str) : option Z :=
  match s with
  | [] => None
  | _ :: _ => Z.of_uint <$> chars_uint s
  end.

(** [int(s)]: [None] stands for [ValueError]. The model reads an optional
    sign followed by ASCII digits, which covers every string [str] produces;
    Python also accepts surrounding blanks, single underscores between
    digits and non-ASCII decimal digits, which the model reports as
    [ValueError]. *)
Definition int_of_str (s : str) : option Z :=
  match s with
  | 45 :: s' => Z.opp <$> digits_value s'
  | 43 :: s' => digits_value s'
  | _ => digits_value s
  end.

(** *** The clock *)

(** The fields of [datetime.now()] that the stamps read. *)
Record datetime := {
  dt_month : nat;
  dt_day : nat;
  dt_hour : nat;
  dt_minute : nat;
}.

Definition digit_char (d : nat) : char := 48 + N.of_nat (d mod 10).

(** [%m], [%d], [%H], [%M]: two digits, zero padded. *)
Definition two_digits (n : nat) : str :=
  [digit_char (n / 10); digit_char n].

(** [now.strftime("%m%dT%H%M")] *)
Definition strftime_mdTHM (now : datetime) : str :=
  two_digits (dt_month now) ++ two_digits (dt_day now) ++ lit "T"
  ++ two_digits (dt_hour now) ++ two_digits (dt_minute now).

(** *** Outcomes of a call that may raise *)

Inductive exn := ValueError.

Inductive result (A : Type) :=
  | Return (a : A)
  | Raise (e : exn).
Arguments Return {A} a.
Arguments Raise {A} e.

Definition bind {A B} (r : result A) (k : A -> result B) : result B :=
  match r with
  | Return a => k a
  | Raise e => Raise e
  end.

(** [int(s)] as a call that may raise. *)
Definition int_call (s : str) : result Z :=
  match int_of_str s with
  | Some z => Return z
  | None => Raise ValueError
  end.

End Py.

Notation "'let!' x ':=' r 'in' k" := (Py.bind r (fun x => k))
  (at level 10, x pattern, r at level 100, k at level 200).

(** ** stamp.py *)

Module StampPy.
Import Py.

(** The tag glyphs of the compact form and the separator. *)
Definition PIPE : char := 124.
Definition TAG_BRANCH : char := 0x1F33F.
Definition TAG_DEPTH : char := 0x1F4CD.
Definition TAG_PARENT : char := 0x2B06.
Definition TAG_STATE : char := 0x26A1.
Definition TAG_GATES : char := 0x1F512.
Definition TAG_PIN : char := 0x1F4CC.
Definition TAG_LOOK : char := 0x1F441.
Definition TAG_CHAIN : char := 0x1F517.
Definition TAG_TIME : char := 0x23F1.

(** The gate glyphs: the values of [GATE_STATES]. *)
Definition G_OPEN : str := [0x25CB].
Definition G_HALF : str := [0x25D0].
Definition G_YES : str := [0x25CF].
Definition G_NO : str := [0x2715].
Definition G_BLOCKED : str := [0x25C8].
Definition G_REVISIT : str := [0x21BA].

Definition GATE_STATES : list str :=
  [G_OPEN; G_HALF; G_YES; G_NO; G_BLOCKED; G_REVISIT].
Definition GATE_CYCLE : list str := [G_OPEN; G_HALF; G_YES; G_NO].
Definition CONV_STATES : list str :=
  [lit "OPEN"; lit "GATE"; lit "DONE"; lit "FORK"; lit "HOLD"; lit "DEAD"].

Module Gate.
Record t := mk {
  letter : str;
  question : str;
  state : str;
}.

(** The value [Gate.cycle] assigns to [self.state]. *)
Definition cycle_state (s : str) : str :=
  let idx := match index s GATE_CYCLE with Some i => i | None => 0%nat end in
  nth ((idx + 1) mod length GATE_CYCLE) GATE_CYCLE [].

Definition cycle (g : t) : t :=
  mk (letter g) (question g) (cycle_state (state g)).

Definition compact (g : t) : str := letter g ++ state g.
End Gate.

Module Stamp.
Record t := mk {
  branch : str;
  depth : Z;
  max_depth : Z;
  parent : str;
  parent_depth : Z;
  state : str;
  gates : list Gate.t;
  pin : str;
  look : str;
  chain : str;
  timestamp : str;
}.

(** [Stamp()] *)
Definition default : t := mk [] 0 0 [] 0 (lit "OPEN") [] [] [] [] [].

Definition set_branch v s := mk v (depth s) (max_depth s) (parent s) (parent_depth s) (state s) (gates s) (pin s) (look s) (chain s) (timestamp s).
Definition set_depth v s := mk (branch s) v (max_depth s) (parent s) (parent_depth s) (state s) (gates s) (pin s) (look s) (chain s) (timestamp s).
Definition set_max_depth v s := mk (branch s) (depth s) v (parent s) (parent_depth s) (state s) (gates s) (pin s) (look s) (chain s) (timestamp s).
Definition set_parent v s := mk (branch s) (depth s) (max_depth s) v (parent_depth s) (state s) (gates s) (pin s) (look s) (chain s) (timestamp s).
Definition set_parent_depth v s := mk (branch s) (depth s) (max_depth s) (parent s) v (state s) (gates s) (pin s) (look s) (chain s) (timestamp s).
Definition set_state v s := mk (branch s) (depth s) (max_depth s) (parent s) (parent_depth s) v (gates s) (pin s) (look s) (chain s) (timestamp s).
Definition set_gates v s := mk (branch s) (depth s) (max_depth s) (parent s) (parent_depth s) (state s) v (pin s) (look s) (chain s) (timestamp s).
Definition set_pin v s := mk (branch s) (depth s) (max_depth s) (parent s) (parent_depth s) (state s) (gates s) v (look s) (chain s) (timestamp s).
Definition set_look v s := mk (branch s) (depth s) (max_depth s) (parent s) (parent_depth s) (state s) (gates s) (pin s) v (chain s) (timestamp s).
Definition set_chain v s := mk (branch s) (depth s) (max_depth s) (parent s) (parent_depth s) (state s) (gates s) (pin s) (look s) v (timestamp s).
Definition set_timestamp v s := mk (branch s) (depth s) (max_depth s) (parent s) (parent_depth s) (state s) (gates s) (pin s) (look s) (chain s) v.

(** [f"{tag}{value}" if value else ""] *)
Definition tagged_if (tag : char) (value : str) : str :=
  match value with
  | [] => []
  | _ :: _ => tag :: value
  end.

Definition gate_str (s : t) : str := concat (List.map Gate.compact (gates s)).

Definition parent_str (s : t) : str :=
  match parent s with
  | [] => []
  | _ :: _ => parent s ++ lit "@d" ++ str_of_int (parent_depth s)
  end.

Definition pin_short (s : t) : str :=
  match pin s with
  | [] => []
  | _ :: _ => replace 32 45 (take 30 (pin s))
  end.

(** The list [parts] of [compact], before the empty ones are dropped. *)
Definition compact_parts (now : datetime) (s : t) : list str :=
  [ lit "OLO";
    tagged_if TAG_BRANCH (branch s);
    TAG_DEPTH :: str_of_int (depth s) ++ lit "/" ++ str_of_int (max_depth s);
    tagged_if TAG_PARENT (parent_str s);
    TAG_STATE :: state s;
    tagged_if TAG_GATES (gate_str s);
    tagged_if TAG_PIN (pin_short s);
    tagged_if TAG_LOOK (look s);
    tagged_if TAG_CHAIN (chain s);
    TAG_TIME :: strftime_mdTHM now ].

(** The truth value of a string. *)
Definition truthy (p : str) : bool :=
  match p with [] => false | _ :: _ => true end.

(** [Stamp.compact] *)
Definition compact (now : datetime) (s : t) : str :=
  lit "[" ++ join [PIPE] (List.filter truthy (compact_parts now s)) ++ lit "]".

(** The loop over the gate field: two characters per gate. *)
Fixpoint parse_gates (gs : str) : list Gate.t :=
  match gs with
  | l :: st :: rest => Gate.mk [l] [] [st] :: parse_gates rest
  | _ => []
  end.

(** One iteration of the loop of [parse_compact] over the parts. *)
Definition parse_part (stamp : t) (part : str) : result t :=
  if str_eqb part (lit "OLO") then Return stamp
  else if startswith [TAG_BRANCH] part then
    Return (set_branch (drop 1 part) stamp)
  else if startswith [TAG_DEPTH] part then
    let nums := split 47 (drop 1 part) in
    let! d := int_call (nth 0 nums []) in
    let stamp := set_depth d stamp in
    match nums with
    | _ :: n1 :: _ => let! m := int_call n1 in Return (set_max_depth m stamp)
    | _ => Return (set_max_depth 0 stamp)
    end
  else if startswith [TAG_PARENT] part then
    let ref := drop 1 part in
    if contains (lit "@d") ref then
      match rsplit1 (lit "@d") ref with
      | [name; dp] =>
          let stamp := set_parent name stamp in
          let! pd := int_call dp in Return (set_parent_depth pd stamp)
      | _ => Raise ValueError
      end
    else Return (set_parent ref stamp)
  else if startswith [TAG_STATE] part then
    Return (set_state (drop 1 part) stamp)
  else if startswith [TAG_GATES] part then
    Return (set_gates (gates stamp ++ parse_gates (drop 1 part)) stamp)
  else if startswith [TAG_PIN] part then
    Return (set_pin (replace 45 32 (drop 1 part)) stamp)
  else if startswith [TAG_LOOK] part then
    Return (set_look (drop 1 part) stamp)
  else if startswith [TAG_CHAIN] part then
    Return (set_chain (drop 1 part) stamp)
  else if startswith [TAG_TIME] part then
    Return (set_timestamp (drop 1 part) stamp)
  else Return stamp.

Fixpoint parse_parts (stamp : t) (parts : list str) : result t :=
  match parts with
  | [] => Return stamp
  | part :: rest => let! stamp := parse_part stamp part in parse_parts stamp rest
  end.

(** [Stamp.parse_compact]: [Return None] is the result [None]. *)
Definition parse_compact (line : str) : result (option t) :=
  if negb (startswith (lit "[OLO|") line) || negb (endswith (lit "]") line)
  then Return None
  else
    let inner := slice_1_neg1 line in
    let parts := split PIPE inner in
    let! stamp := parse_parts default parts in
    Return (Some stamp).
End Stamp.

End StampPy.

(** ** gently_tiers.py *)

Module Tiers.
Import Py.

(** The members of [GateState] carry the prefix [G_]: [ConvState] has a
    member [OPEN] too. *)
Inductive ForkType := EXPLORE | PIVOT | REFINE | CHALLENGE | MERGE | DEAD.
Inductive GateState := G_OPEN | G_HALF | G_YES | G_NO | G_REVISIT.
Inductive ConvState := OPEN | GATE | DONE | FORK | HOLD.
Inductive ArtifactOrigin := MANUAL | TIER_AUTO | EDITED | INJECTED.

#[global] Instance ForkType_eq_dec : EqDecision ForkType.
Proof. solve_decision. Defined.
#[global] Instance GateState_eq_dec : EqDecision GateState.
Proof. solve_decision. Defined.
#[global] Instance ConvState_eq_dec : EqDecision ConvState.
Proof. solve_decision. Defined.
#[global] Instance ArtifactOrigin_eq_dec : EqDecision ArtifactOrigin.
Proof. solve_decision. Defined.

(** The [.value] of the enumerations. *)
Definition ForkType_value (f : ForkType) : str :=
  match f with
  | EXPLORE => lit "explore" | PIVOT => lit "pivot" | REFINE => lit "refine"
  | CHALLENGE => lit "challenge" | MERGE => lit "merge" | DEAD => lit "dead"
  end.

Definition GateState_value (s : GateState) : str :=
  match s with
  | G_OPEN => [0x25CB] | G_HALF => [0x25D0] | G_YES => [0x25CF]
  | G_NO => [0x2715] | G_REVISIT => [0x21BA]
  end.

Definition ConvState_value (s : ConvState) : str :=
  match s with
  | OPEN => lit "OPEN" | GATE => lit "GATE" | DONE => lit "DONE"
  | FORK => lit "FORK" | HOLD => lit "HOLD"
  end.

(** [l.index(x)] when [x in l]. *)
Fixpoint list_index {A} `{EqDecision A} (x : A) (l : list A) : option nat :=
  match l with
  | [] => None
  | y :: l' => if decide (y = x) then Some 0%nat
               else match list_index x l' with Some i => Some (S i) | None => None end
  end.

(** The dictionary a gate snapshot holds. *)
Record GateSnapshot := mkSnapshot {
  snap_letter : str;
  snap_question : str;
  snap_state : str;
}.

Module Gate.
Record t := mk {
  letter : str;
  question : str;
  state : GateState;
}.

Definition order : list GateState := [G_OPEN; G_HALF; G_YES; G_NO].

(** The assignment [Gate.cycle] makes to [self.state], if it makes one. *)
Definition cycle_assign (s : GateState) : option GateState :=
  match list_index s order with
  | Some i => Some (nth ((i + 1) mod length order) order G_OPEN)
  | None => None
  end.

Definition cycle (g : t) : t :=
  match cycle_assign (state g) with
  | Some s => mk (letter g) (question g) s
  | None => g
  end.

Definition sym (g : t) : str := letter g ++ GateState_value (state g).

Definition snapshot (g : t) : GateSnapshot :=
  mkSnapshot (letter g) (question g) (GateState_value (state g)).
End Gate.

Module Branch.
Record t := mk {
  id : str;
  name : str;
  fork_type : ForkType;
  forked_at_depth : Z;
  depth : Z;
  conv_state : ConvState;
  pin : str;
  stamp_at_fork : str;
}.

(** The glyph table [ft] of [summary]; every fork type has an entry. *)
Definition ft (f : ForkType) : str :=
  match f with
  | EXPLORE => [0x2192] | PIVOT => [0x21BB] | CHALLENGE => [0x2694]
  | REFINE => [0x25B7] | MERGE => [0x2727] | DEAD => [0x2715]
  end.

Definition summary (b : t) : str :=
  let status :=
    if decide (conv_state b = DONE) then [0x25CF]
    else if (0 <? depth b)%Z then [0x25D0] else [0x25CB] in
  status ++ lit " " ++ ft (fork_type b) ++ lit " " ++ name b
  ++ lit " [d=" ++ str_of_int (depth b) ++ lit "] " ++ [34] ++ pin b ++ [34].
End Branch.

Module Artifact.
Record t := mk {
  id : str;
  name : str;
  content : str;
  origin : ArtifactOrigin;
  source_tier : Z;
  source_branch : option str;
  gate_snapshot : list GateSnapshot;
  stamp_at_creation : str;
  status : str;
}.

(** [art.status = v] *)
Definition set_status (v : str) (a : t) : t :=
  mk (id a) (name a) (content a) (origin a) (source_tier a) (source_branch a)
     (gate_snapshot a) (stamp_at_creation a) v.
End Artifact.

Module Tier.
Record t := mk {
  level : Z;
  master_depth : Z;
  master_state : ConvState;
  master_pin : str;
  branches : list Branch.t;
  frozen : bool;
  frozen_stamp : str;
  promoted_by : str;
}.

(** [Tier(level=n)] *)
Definition new (n : Z) : t := mk n 0 OPEN [] [] false [] [].

Definition set_master_pin v x := mk (level x) (master_depth x) (master_state x) v (branches x) (frozen x) (frozen_stamp x) (promoted_by x).
Definition set_branches v x := mk (level x) (master_depth x) (master_state x) (master_pin x) v (frozen x) (frozen_stamp x) (promoted_by x).
Definition set_frozen v x := mk (level x) (master_depth x) (master_state x) (master_pin x) (branches x) v (frozen_stamp x) (promoted_by x).
Definition set_frozen_stamp v x := mk (level x) (master_depth x) (master_state x) (master_pin x) (branches x) (frozen x) v (promoted_by x).
Definition set_promoted_by v x := mk (level x) (master_depth x) (master_state x) (master_pin x) (branches x) (frozen x) (frozen_stamp x) v.

Definition truthy (p : str) : bool :=
  match p with [] => false | _ :: _ => true end.

Definition tagged_if (tag : char) (value : str) : str :=
  match value with
  | [] => []
  | _ :: _ => tag :: value
  end.

Definition make_stamp (now : datetime) (self : t) (project_id : str)
    (gates : list Gate.t) : str :=
  let gs := concat (List.map Gate.sym gates) in
  let ts := strftime_mdTHM now in
  let pin := match master_pin self with
             | [] => []
             | _ :: _ => replace 32 45 (take 25 (master_pin self))
             end in
  let parts :=
    [ lit "OLO";
      0x1F33F :: lit "t" ++ str_of_int (level self) ++ lit "/" ++ project_id;
      0x1F4CD :: str_of_int (master_depth self);
      0x26A1 :: ConvState_value (master_state self);
      tagged_if 0x1F512 gs;
      tagged_if 0x1F4CC pin ] in
  let parts :=
    if (0 <? level self)%Z
    then parts ++ [0x2B06 :: lit "t" ++ str_of_int (level self - 1)]
    else parts in
  let parts := parts ++ [0x23F1 :: ts] in
  lit "[" ++ join (lit "|") (List.filter truthy parts) ++ lit "]".

#[global] Instance inhabited : Inhabited t := populate (new 0).
End Tier.

Module Project.
(** [store] holds the artifact objects; [artifacts] and [bucket] hold
    their addresses, so that an artifact that is in both lists is one
    object. *)
Record t := mk {
  id : str;
  name : str;
  color : str;
  gates : list Gate.t;
  tiers : list Tier.t;
  store : list Artifact.t;
  artifacts : list nat;
  bucket : list nat;
}.

(** [Project(id=.., name=.., color=..)] with the gates assigned. *)
Definition new (id name color : str) (gates : list Gate.t) : t :=
  mk id name color gates [] [] [] [].

Definition set_tiers v p := mk (id p) (name p) (color p) (gates p) v (store p) (artifacts p) (bucket p).
Definition set_store v p := mk (id p) (name p) (color p) (gates p) (tiers p) v (artifacts p) (bucket p).
Definition set_artifacts v p := mk (id p) (name p) (color p) (gates p) (tiers p) (store p) v (bucket p).
Definition set_bucket v p := mk (id p) (name p) (color p) (gates p) (tiers p) (store p) (artifacts p) v.

(** Allocation of a new artifact object: the store after it and the
    address of the object. *)
Definition alloc (a : Artifact.t) (p : t) : t * nat :=
  (set_store (store p ++ [a]) p, length (store p)).

(** [_new_tier]: the project after the call and the index of the tier
    returned. *)
Definition _new_tier (p : t) : t * nat :=
  let t := Tier.new (Z.of_nat (length (tiers p))) in
  (set_tiers (tiers p ++ [t]) p, length (tiers p)).

(** The loop of [current_tier] over [reversed(self.tiers)]: the index, in
    [self.tiers], of the first tier met that is not frozen. *)
Fixpoint first_unfrozen (reversed : list Tier.t) : option nat :=
  match reversed with
  | [] => None
  | t :: rest => if Tier.frozen t then first_unfrozen rest else Some (length rest)
  end.

(** [current_tier]: the project after the call and the index of the tier
    returned. *)
Definition current_tier (p : t) : t * nat :=
  match first_unfrozen (reverse (tiers p)) with
  | Some k => (p, k)
  | None => _new_tier p
  end.

Definition init_project (p : t) : t :=
  match tiers p with
  | [] => fst (_new_tier p)
  | _ :: _ => p
  end.

(** [branch_from_master]: the project after the call and the branch
    returned. *)
Definition branch_from_master (now : datetime) (name : str)
    (fork_type : ForkType) (p : t) : t * Branch.t :=
  let '(p, k) := current_tier p in
  let tier := tiers p !!! k in
  let branch :=
    Branch.mk
      (lit "b" ++ str_of_int (Z.of_nat (length (Tier.branches tier)))
       ++ lit "-" ++ name)
      name fork_type (Tier.master_depth tier) 0 OPEN []
      (Tier.make_stamp now tier (id p) (gates p)) in
  let tier := Tier.set_branches (Tier.branches tier ++ [branch]) tier in
  (set_tiers (<[k := tier]> (tiers p)) p, branch).

(** [collect_artifact]: the project after the call and the address of the
    artifact returned. *)
Definition collect_artifact (now : datetime) (branch_id name content : str)
    (p : t) : t * nat :=
  let '(p, k) := current_tier p in
  let tier := tiers p !!! k in
  let art :=
    Artifact.mk
      (lit "art-" ++ str_of_int (Z.of_nat (length (artifacts p))))
      name content MANUAL (Tier.level tier) (Some branch_id)
      (List.map Gate.snapshot (gates p))
      (Tier.make_stamp now tier (id p) (gates p))
      (lit "available") in
  let '(p, a) := alloc art p in
  let p := set_artifacts (artifacts p ++ [a]) p in
  let p := set_bucket (bucket p ++ [a]) p in
  (p, a).

(** Does the object at address [a] have the id [artifact_id]? *)
Definition has_id (p : t) (artifact_id : str) (a : nat) : bool :=
  match store p !! a with
  | Some art => str_eqb (Artifact.id art) artifact_id
  | None => false
  end.

(** [next((a for a in self.bucket if a.id == artifact_id), None)] *)
Definition find_in_bucket (p : t) (artifact_id : str) : option nat :=
  List.find (has_id p artifact_id) (bucket p).

#[global] Instance artifact_inhabited : Inhabited Artifact.t :=
  populate (Artifact.mk [] [] [] MANUAL 0 None [] [] []).

(** [inject]: the project after the call and the pair returned, as the
    index of the new tier and the address of the automatic artifact;
    [None] is the pair [(None, None)]. *)
Definition inject (now : datetime) (artifact_id : str) (p : t)
    : t * option (nat * nat) :=
  match find_in_bucket p artifact_id with
  | None => (p, None)
  | Some a =>
      let p := set_store (alter (Artifact.set_status (lit "injected")) a (store p)) p in
      let art := store p !!! a in
      (* step 1: freeze the current tier *)
      let '(p, k) := current_tier p in
      let old_tier := tiers p !!! k in
      let old_tier := Tier.set_frozen true old_tier in
      let old_tier :=
        Tier.set_frozen_stamp (Tier.make_stamp now old_tier (id p) (gates p)) old_tier in
      let old_tier := Tier.set_promoted_by artifact_id old_tier in
      let p := set_tiers (<[k := old_tier]> (tiers p)) p in
      (* step 2: the automatic artifact *)
      let branch_pins :=
        List.map (fun b => lit "  " ++ Branch.summary b) (Tier.branches old_tier) in
      let auto_content :=
        lit "=== TIER " ++ str_of_int (Tier.level old_tier) ++ lit " CONCLUSION ===" ++ [10]
        ++ lit "Master was at depth " ++ str_of_int (Tier.master_depth old_tier)
        ++ lit ", state " ++ ConvState_value (Tier.master_state old_tier) ++ [10]
        ++ lit "Master pin: " ++ [34] ++ Tier.master_pin old_tier ++ [34] ++ [10]
        ++ lit "Gates: " ++ join (lit " ") (List.map Gate.sym (gates p)) ++ [10]
        ++ [10]
        ++ lit "Branches explored:" ++ [10]
        ++ join [10] branch_pins ++ [10]
        ++ [10]
        ++ lit "Promoted by: " ++ Artifact.name art ++ [10]
        ++ lit "Injected content: " ++ take 100 (Artifact.content art) ++ lit "..." ++ [10]
        ++ [10]
        ++ lit "Frozen stamp: " ++ Tier.frozen_stamp old_tier in
      let auto_art :=
        Artifact.mk
          (lit "tier-" ++ str_of_int (Tier.level old_tier) ++ lit "-auto")
          (lit "Tier " ++ str_of_int (Tier.level old_tier) ++ lit ": "
           ++ Tier.master_pin old_tier)
          auto_content TIER_AUTO (Tier.level old_tier) None
          (List.map Gate.snapshot (gates p))
          (Tier.frozen_stamp old_tier)
          (lit "available") in
      let '(p, auto) := alloc auto_art p in
      let p := set_artifacts (artifacts p ++ [auto]) p in
      (* step 3: the new tier *)
      let '(p, n) := _new_tier p in
      let new_tier :=
        Tier.set_master_pin
          (lit "promoted from tier " ++ str_of_int (Tier.level old_tier))
          (tiers p !!! n) in
      let p := set_tiers (<[n := new_tier]> (tiers p)) p in
      (p, Some (n, auto))
  end.

(** The calls a client can make on a project, with the clock reading of
    each call that stamps. *)
Inductive op :=
  | BranchFromMaster (now : datetime) (name : str) (fork_type : ForkType)
  | CollectArtifact (now : datetime) (branch_id name content : str)
  | Inject (now : datetime) (artifact_id : str)
  | CurrentTier.

(** The project after one call. *)
Definition exec (o : op) (p : t) : t :=
  match o with
  | BranchFromMaster now name f => fst (branch_from_master now name f p)
  | CollectArtifact now b n c => fst (collect_artifact now b n c p)
  | Inject now a => fst (inject now a p)
  | CurrentTier => fst (current_tier p)
  end.

(** The project after a sequence of calls. *)
Definition run (ops : list op) (p : t) : t :=
  fold_left (fun p o => exec o p) ops p.

(** The states a project goes through: a new project, [init_project],
    then any sequence of calls. *)
Definition reachable (p : t) : Prop :=
  exists id name color gates ops,
    p = run ops (init_project (new id name color gates)).
End Project.

End Tiers.

(** ** gently_model.py *)

Module Model.
Import Py.

(** [ForkType], [GateState] and [ConvState] have the members and the values
    of the enumerations of gently_tiers.py. *)
Export Tiers(ForkType, EXPLORE, PIVOT, REFINE, CHALLENGE, MERGE, DEAD,
             GateState, G_OPEN, G_HALF, G_YES, G_NO, G_REVISIT,
             ConvState, OPEN, GATE, DONE, FORK, HOLD,
             ForkType_value, GateState_value, ConvState_value, list_index).

Inductive ArtifactStatus := COLLECTED | STAGED | INJECTED | EDITED.

Module Gate.
Record t := mk {
  letter : str;
  question : str;
  state : GateState;
}.

Definition order : list GateState := [G_OPEN; G_HALF; G_YES; G_NO].

(** The assignment [Gate.cycle] makes to [self.state], if it makes one. *)
Definition cycle_assign (s : GateState) : option GateState :=
  match list_index s order with
  | Some idx => Some (nth ((idx + 1) mod length order) order G_OPEN)
  | None => None
  end.

Definition cycle (g : t) : t :=
  match cycle_assign (state g) with
  | Some s => mk (letter g) (question g) s
  | None => g
  end.

Definition symbol (g : t) : str := letter g ++ GateState_value (state g).
End Gate.

Module Stamp.
Record t := mk {
  project_id : str;
  branch_id : option str;
  depth : Z;
  max_depth : Z;
  conv_state : ConvState;
  gates : list Gate.t;
  pin : str;
  parent_id : option str;
  fork_type : option ForkType;
  timestamp : str;
}.

Definition truthy (p : str) : bool :=
  match p with [] => false | _ :: _ => true end.

Definition tagged_if (tag : char) (value : str) : str :=
  match value with
  | [] => []
  | _ :: _ => tag :: value
  end.

Definition compact (now : datetime) (self : t) : str :=
  let ts := strftime_mdTHM now in
  let gs := concat (List.map Gate.symbol (gates self)) in
  let branch := match branch_id self with
                | Some (c :: b) => c :: b
                | _ => lit "master"
                end in
  let pin := match pin self with
             | [] => []
             | _ :: _ => replace 32 45 (take 25 (pin self))
             end in
  let parts :=
    [ lit "OLO";
      0x1F33F :: project_id self ++ lit "/" ++ branch;
      0x1F4CD :: str_of_int (depth self) ++ lit "/" ++ str_of_int (max_depth self);
      0x26A1 :: ConvState_value (conv_state self);
      tagged_if 0x1F512 gs;
      tagged_if 0x1F4CC pin ] in
  let parts :=
    match parent_id self with
    | Some (c :: par) =>
        parts ++ [0x2B06 :: (c :: par) ++ lit "@d" ++ str_of_int (depth self)]
    | _ => parts
    end in
  let parts :=
    match fork_type self with
    | Some f => parts ++ [0x1F500 :: ForkType_value f]
    | None => parts
    end in
  let parts := parts ++ [0x23F1 :: ts] in
  lit "[" ++ join (lit "|") (List.filter truthy parts) ++ lit "]".
End Stamp.

Module Artifact.
Record t := mk {
  id : str;
  name : str;
  content : str;
  source_branch : str;
  source_depth : Z;
  status : ArtifactStatus;
  fork_type : option ForkType;
  stamp_at_capture : str;
  edited_content : option str;
}.

Definition set_status (v : ArtifactStatus) (a : t) : t :=
  mk (id a) (name a) (content a) (source_branch a) (source_depth a) v
     (fork_type a) (stamp_at_capture a) (edited_content a).
End Artifact.

Module Branch.
(** [artifacts] holds addresses in the store of the project. *)
Record t := mk {
  id : str;
  name : str;
  fork_type : ForkType;
  forked_at_depth : Z;
  stamp_at_fork : str;
  depth : Z;
  conv_state : ConvState;
  pin : str;
  artifacts : list nat;
  order : Z;
}.

Definition set_artifacts v b :=
  mk (id b) (name b) (fork_type b) (forked_at_depth b) (stamp_at_fork b)
     (depth b) (conv_state b) (pin b) v (order b).

Definition make_stamp (self : t) (project_id : str) (gates : list Gate.t) : Stamp.t :=
  Stamp.mk project_id (Some (id self)) (depth self) (depth self)
    (conv_state self) gates (pin self) (Some (lit "master"))
    (Some (fork_type self)) [].
End Branch.

Module MasterChat.
Record t := mk {
  depth : Z;
  max_depth : Z;
  conv_state : ConvState;
  pin : str;
}.

Definition set_depth v m := mk v (max_depth m) (conv_state m) (pin m).

Definition make_stamp (self : t) (project_id : str) (gates : list Gate.t) : Stamp.t :=
  Stamp.mk project_id None (depth self) (max_depth self) (conv_state self)
    gates (pin self) None None [].
End MasterChat.

Module Project.
(** [store] holds the artifact objects; the bucket and the branches hold
    their addresses. *)
Record t := mk {
  id : str;
  name : str;
  color : str;
  master : MasterChat.t;
  branches : list Branch.t;
  gates : list Gate.t;
  bucket : list nat;
  store : list Artifact.t;
}.

Definition set_master v p := mk (id p) (name p) (color p) v (branches p) (gates p) (bucket p) (store p).
Definition set_branches v p := mk (id p) (name p) (color p) (master p) v (gates p) (bucket p) (store p).
Definition set_bucket v p := mk (id p) (name p) (color p) (master p) (branches p) (gates p) v (store p).
Definition set_store v p := mk (id p) (name p) (color p) (master p) (branches p) (gates p) (bucket p) v.

Definition branch_from_master (now : datetime) (name : str)
    (fork_type : ForkType) (p : t) : t * Branch.t :=
  let stamp := MasterChat.make_stamp (master p) (id p) (gates p) in
  let branch :=
    Branch.mk (id p ++ lit "-" ++ name) name fork_type
      (MasterChat.depth (master p)) (Stamp.compact now stamp)
      0 OPEN [] [] (Z.of_nat (length (branches p))) in
  (set_branches (branches p ++ [branch]) p, branch).

(** [next((b for b in self.branches if b.id == branch_id), None)], as the
    index of the branch found. *)
Fixpoint find_branch (bs : list Branch.t) (branch_id : str) : option nat :=
  match bs with
  | [] => None
  | b :: bs' =>
      if str_eqb (Branch.id b) branch_id then Some 0%nat
      else match find_branch bs' branch_id with
           | Some i => Some (S i)
           | None => None
           end
  end.

#[global] Instance branch_inhabited : Inhabited Branch.t :=
  populate (Branch.mk [] [] EXPLORE 0 [] 0 OPEN [] [] 0).

(** [collect_from_branch]: the project after the call and the address of
    the artifact returned, [None] for the result [None]. *)
Definition collect_from_branch (now : datetime) (branch_id name content : str)
    (p : t) : t * option nat :=
  match find_branch (branches p) branch_id with
  | None => (p, None)
  | Some i =>
      let branch := branches p !!! i in
      let art :=
        Artifact.mk
          (lit "art-" ++ str_of_int (Z.of_nat (length (bucket p))))
          name content branch_id (Branch.depth branch) COLLECTED
          (Some (Branch.fork_type branch))
          (Stamp.compact now (Branch.make_stamp branch (id p) (gates p)))
          None in
      let a := length (store p) in
      let p := set_store (store p ++ [art]) p in
      let branch := Branch.set_artifacts (Branch.artifacts branch ++ [a]) branch in
      let p := set_branches (<[i := branch]> (branches p)) p in
      let p := set_bucket (bucket p ++ [a]) p in
      (p, Some a)
  end.

Definition has_id (p : t) (artifact_id : str) (a : nat) : bool :=
  match store p !! a with
  | Some art => str_eqb (Artifact.id art) artifact_id
  | None => false
  end.

Definition find_in_bucket (p : t) (artifact_id : str) : option nat :=
  List.find (has_id p artifact_id) (bucket p).

(** [inject_to_master]: the project after the call and the address of the
    artifact returned, [None] for the result [None]. *)
Definition inject_to_master (artifact_id : str) (p : t) : t * option nat :=
  match find_in_bucket p artifact_id with
  | None => (p, None)
  | Some a =>
      let p := set_store (alter (Artifact.set_status INJECTED) a (store p)) p in
      let p := set_master (MasterChat.set_depth (MasterChat.depth (master p) + 1) (master p)) p in
      (p, Some a)
  end.
End Project.

End Model.

(** ** stamp.py: the dictionary form and the rehydration block *)

Module StampDict.
Import Py StampPy.

(** The dictionaries of [to_dict] and [from_dict], by the keys they may
    hold: a key is absent ([None]) or present with a value of the type
    [to_dict] writes for it. *)
Record gate_dict := mk_gate_dict {
  gd_letter : option str;
  gd_question : option str;
  gd_state : option str;
}.

Record stamp_dict := mk_stamp_dict {
  sd_branch : option str;
  sd_depth : option Z;
  sd_max_depth : option Z;
  sd_parent : option str;
  sd_parent_depth : option Z;
  sd_state : option str;
  sd_gates : option (list gate_dict);
  sd_pin : option str;
  sd_look : option str;
  sd_chain : option str;
  sd_timestamp : option str;
}.

(** The outcome of [from_dict]: a stamp, or [KeyError] with the key. *)
Inductive loaded :=
  | Loaded (s : Stamp.t)
  | KeyError (key : str).

(** [d.get(key, default)] *)
Definition get {A} (v : option A) (default : A) : A :=
  match v with Some x => x | None => default end.

(** [Stamp.to_dict]; [now_iso] is [datetime.now().isoformat()]. *)
Definition to_dict (now_iso : str) (s : Stamp.t) : stamp_dict :=
  mk_stamp_dict (Some (Stamp.branch s)) (Some (Stamp.depth s))
    (Some (Stamp.max_depth s)) (Some (Stamp.parent s))
    (Some (Stamp.parent_depth s)) (Some (Stamp.state s))
    (Some (List.map
             (fun g => mk_gate_dict (Some (Gate.letter g)) (Some (Gate.question g))
                         (Some (Gate.state g)))
             (Stamp.gates s)))
    (Some (Stamp.pin s)) (Some (Stamp.look s)) (Some (Stamp.chain s))
    (Some now_iso).

(** [Gate(g['letter'], g['question'], g['state'])] *)
Definition gate_from_dict (g : gate_dict) : Gate.t + str :=
  match gd_letter g with
  | None => inr (lit "letter")
  | Some l =>
      match gd_question g with
      | None => inr (lit "question")
      | Some q =>
          match gd_state g with
          | None => inr (lit "state")
          | Some st => inl (Gate.mk l q st)
          end
      end
  end.

(** The list comprehension over [d.get('gates', [])]. *)
Fixpoint gates_from_dicts (gs : list gate_dict) : list Gate.t + str :=
  match gs with
  | [] => inl []
  | g :: rest =>
      match gate_from_dict g with
      | inr k => inr k
      | inl gate =>
          match gates_from_dicts rest with
          | inr k => inr k
          | inl gates => inl (gate :: gates)
          end
      end
  end.

(** [Stamp.from_dict] *)
Definition from_dict (d : stamp_dict) : loaded :=
  let stamp :=
    Stamp.mk (get (sd_branch d) []) (get (sd_depth d) 0%Z)
      (get (sd_max_depth d) 0%Z) (get (sd_parent d) [])
      (get (sd_parent_depth d) 0%Z) (get (sd_state d) (lit "OPEN"))
      [] (get (sd_pin d) []) (get (sd_look d) []) (get (sd_chain d) []) [] in
  match gates_from_dicts (get (sd_gates d) []) with
  | inl gates => Loaded (Stamp.set_gates gates stamp)
  | inr k => KeyError k
  end.

(** [state_labels.get(state, state)] *)
Definition state_label (state : str) : str :=
  if str_eqb state G_YES then lit "YES (confirmed)"
  else if str_eqb state G_OPEN then lit "OPEN (undecided)"
  else if str_eqb state G_HALF then lit "PARTIAL (exploring)"
  else if str_eqb state G_NO then lit "NO (rejected)"
  else if str_eqb state G_BLOCKED then lit "BLOCKED (waiting)"
  else if str_eqb state G_REVISIT then lit "REVISIT (reopened)"
  else state.

(** The project name of the rehydration block. *)
Definition rehydrate_project (s : Stamp.t) : str :=
  if contains (lit "/") (Stamp.branch s)
  then nth 0 (split 47 (Stamp.branch s)) []
  else Stamp.branch s.

(** The list [block] of [Stamp.rehydrate]; [findings] is the dictionary in
    the order of its items, [None] for [findings=None]. *)
Definition rehydrate_block (s : Stamp.t) (tree_state : option str)
    (findings : option (list (str * str))) : list str :=
  [ lit "[OLO REHYDRATE]";
    lit "PROJECT: " ++ rehydrate_project s;
    lit "ACTIVE BRANCH: " ++ Stamp.branch s ++ lit " (depth "
      ++ str_of_int (Stamp.depth s) ++ lit "/" ++ str_of_int (Stamp.max_depth s)
      ++ lit ")";
    lit "STATE: " ++ Stamp.state s;
    [] ]
  ++ match Stamp.gates s with
     | [] => []
     | _ :: _ =>
         [lit "DECISION GATES:"]
         ++ concat (List.map
                      (fun g =>
                         [ lit "  " ++ Gate.letter g ++ lit ": " ++ Gate.question g;
                           lit "     -> " ++ Gate.state g ++ lit " "
                             ++ state_label (Gate.state g) ])
                      (Stamp.gates s))
         ++ [[]]
     end
  ++ match Stamp.pin s with
     | [] => []
     | _ :: _ => [lit "LAST FINDING: " ++ Stamp.pin s; []]
     end
  ++ match findings with
     | Some (f :: fs) =>
         [lit "KEY FINDINGS FROM ALL BRANCHES:"]
         ++ List.map
              (fun bf => lit "  " ++ [TAG_PIN] ++ lit " " ++ fst bf ++ lit ": "
                         ++ [34] ++ snd bf ++ [34])
              (f :: fs)
         ++ [[]]
     | _ => []
     end
  ++ match tree_state with
     | Some (c :: t) => [lit "TREE:"; c :: t; []]
     | _ => []
     end
  ++ match Stamp.look s with
     | [] => []
     | _ :: _ => [lit "CONTEXT: " ++ Stamp.look s]
     end
  ++ [ [];
       lit "Continue from this state. Gates show decisions. Findings are cherry-picked.";
       lit "[/OLO REHYDRATE]" ].

(** [Stamp.rehydrate] *)
Definition rehydrate (s : Stamp.t) (tree_state : option str)
    (findings : option (list (str * str))) : str :=
  join [10] (rehydrate_block s tree_state findings).

End StampDict.

(** ** gently_model.py: the bucket operations and the application *)

Module ModelOps.
Import Py Model.

(** [Artifact.display_content] *)
Definition display_content (a : Artifact.t) : str :=
  match Artifact.edited_content a with
  | Some (c :: e) => c :: e
  | _ => Artifact.content a
  end.

(** [art.edited_content = new_content; art.status = ArtifactStatus.EDITED] *)
Definition set_edited (new_content : str) (a : Artifact.t) : Artifact.t :=
  Artifact.mk (Artifact.id a) (Artifact.name a) (Artifact.content a)
    (Artifact.source_branch a) (Artifact.source_depth a) EDITED
    (Artifact.fork_type a) (Artifact.stamp_at_capture a) (Some new_content).

(** [Project.stage_artifact]: the project after the call and the address of
    the artifact returned, [None] for the result [None]. *)
Definition stage_artifact (artifact_id : str) (p : Project.t)
    : Project.t * option nat :=
  match Project.find_in_bucket p artifact_id with
  | Some a =>
      (Project.set_store (alter (Artifact.set_status STAGED) a (Project.store p)) p,
       Some a)
  | None => (p, None)
  end.

(** [Project.edit_artifact] *)
Definition edit_artifact (artifact_id new_content : str) (p : Project.t)
    : Project.t * option nat :=
  match Project.find_in_bucket p artifact_id with
  | Some a =>
      (Project.set_store (alter (set_edited new_content) a (Project.store p)) p,
       Some a)
  | None => (p, None)
  end.

(** The calls a client can make on a project. *)
Inductive op :=
  | BranchFromMaster (now : datetime) (name : str) (fork_type : ForkType)
  | CollectFromBranch (now : datetime) (branch_id name content : str)
  | InjectToMaster (artifact_id : str)
  | StageArtifact (artifact_id : str)
  | EditArtifact (artifact_id new_content : str).

Definition exec (o : op) (p : Project.t) : Project.t :=
  match o with
  | BranchFromMaster now name f => fst (Project.branch_from_master now name f p)
  | CollectFromBranch now b n c => fst (Project.collect_from_branch now b n c p)
  | InjectToMaster a => fst (Project.inject_to_master a p)
  | StageArtifact a => fst (stage_artifact a p)
  | EditArtifact a new => fst (edit_artifact a new p)
  end.

Definition run (ops : list op) (p : Project.t) : Project.t :=
  fold_left (fun p o => exec o p) ops p.

(** [Project(id=.., name=.., color=..)] *)
Definition new_project (id name color : str) : Project.t :=
  Project.mk id name color (MasterChat.mk 0 0 OPEN []) [] [] [] [].

Module Gently.
Record t := mk {
  projects : list Project.t;
  active_project_id : option str;
}.

(** [Gently()] *)
Definition new : t := mk [] None.

(** [Gently.add_project]: the application after the call and the project
    returned. *)
Definition add_project (id name color : str) (g : t) : t * Project.t :=
  let proj := new_project id name color in
  let g := mk (projects g ++ [proj]) (active_project_id g) in
  let g :=
    match active_project_id g with
    | Some (_ :: _) => g
    | _ => mk (projects g) (Some id)
    end in
  (g, proj).

(** [Gently.active_project] *)
Definition active_project (g : t) : option Project.t :=
  match active_project_id g with
  | Some aid => List.find (fun p => str_eqb (Project.id p) aid) (projects g)
  | None => None
  end.

(** [Gently.switch_project] *)
Definition switch_project (id : str) (g : t) : t :=
  mk (projects g) (Some id).
End Gently.

End ModelOps.

(** * Predicates and data of the statements *)

Section PyPredicates.
Import Py.

(** [lacks c s]: the character [c] does not occur in [s]. *)
Definition lacks (c : N) (s : list N) : bool :=
  forallb (fun x => negb (x =? c)) s.

Definition is_digit (c : N) : bool := (48 <=? c) && (c <=? 57).

End PyPredicates.

Section StampPredicates.
Import Py StampPy.

(** A gate of the declared domain: a letter and a state glyph of one
    character each, neither of them the separator. *)
Definition gate_ok (g : Gate.t) : bool :=
  match Gate.letter g, Gate.state g with
  | [l], [st] => negb (l =? PIPE) && negb (st =? PIPE)
  | _, _ => false
  end.

(** A record of the declared domain: no text field holds the separator and
    every gate is well formed. *)
Definition in_domain (r : Stamp.t) : bool :=
  lacks PIPE (Stamp.branch r) && lacks PIPE (Stamp.parent r)
  && lacks PIPE (Stamp.state r) && forallb gate_ok (Stamp.gates r)
  && lacks PIPE (Stamp.pin r) && lacks PIPE (Stamp.look r)
  && lacks PIPE (Stamp.chain r).

(** What the compact form keeps of a gate. *)
Definition gate_pair (g : Gate.t) : list N * list N := (Gate.letter g, Gate.state g).

Definition forget_question (g : Gate.t) : Gate.t :=
  Gate.mk (Gate.letter g) [] (Gate.state g).

(** The record [parse_compact] rebuilds from [compact now r]. *)
Definition decoded (now : datetime) (r : Stamp.t) : Stamp.t :=
  Stamp.mk (Stamp.branch r) (Stamp.depth r) (Stamp.max_depth r)
    (Stamp.parent r)
    (match Stamp.parent r with [] => 0%Z | _ :: _ => Stamp.parent_depth r end)
    (Stamp.state r)
    (List.map forget_question (Stamp.gates r))
    (replace 45 32 (take 30 (Stamp.pin r)))
    (Stamp.look r) (Stamp.chain r) (strftime_mdTHM now).

(** The round trip with every listed field reproduced exactly. *)
Definition roundtrip_exact (now : datetime) (r : Stamp.t) : Prop :=
  exists s,
    Stamp.parse_compact (Stamp.compact now r) = Return (Some s)
    /\ Stamp.branch s = Stamp.branch r
    /\ Stamp.depth s = Stamp.depth r
    /\ Stamp.max_depth s = Stamp.max_depth r
    /\ Stamp.state s = Stamp.state r
    /\ List.map gate_pair (Stamp.gates s) = List.map gate_pair (Stamp.gates r)
    /\ Stamp.parent s = Stamp.parent r
    /\ Stamp.parent_depth s = Stamp.parent_depth r
    /\ Stamp.look s = Stamp.look r
    /\ Stamp.chain s = Stamp.chain r
    /\ replace 32 45 (Stamp.pin s) = replace 32 45 (take 30 (Stamp.pin r)).

(** A clock reading and a record without parent whose [parent_depth] is not
    the default. *)
Definition clock_1103T2028 : datetime := Build_datetime 11 3 20 28.

Definition orphan_at_depth_3 : Stamp.t :=
  Stamp.mk [] 0 0 [] 3 (lit "OPEN") [] [] [] [] [].

(** The stamp of the demonstration of stamp.py. *)
Definition blue_channel_stamp : Stamp.t :=
  Stamp.mk (lit "olo-guard/blue-channel") 7 12 (lit "jpeg-base") 4 (lit "OPEN")
    [ Gate.mk (lit "A") (lit "Blue channel for verification?") G_YES;
      Gate.mk (lit "B") (lit "JPEG as kill mechanism?") G_REVISIT;
      Gate.mk (lit "C") (lit "Temporal fragmentation?") G_NO;
      Gate.mk (lit "D") (lit "Gematria visible or hidden?") G_OPEN;
      Gate.mk (lit "E") (lit "Boustrophedon UX cost?") G_HALF ]
    (lit "blue dies in JPEG 4:2:0") (lit "blue-base,jpeg-v2") (lit "core3->") [].

(** The fields of the compact form, in the canonical order. *)
Inductive field :=
  | F_marker | F_branch | F_depth | F_parent | F_state
  | F_gates | F_pin | F_look | F_chain | F_time.

Definition canonical_order : list field :=
  [F_marker; F_branch; F_depth; F_parent; F_state;
   F_gates; F_pin; F_look; F_chain; F_time].

(** The rendering of a field, after the wire format: the tag glyph and the
    value. *)
Definition field_text (now : datetime) (r : Stamp.t) (f : field) : list N :=
  match f with
  | F_marker => lit "OLO"
  | F_branch => TAG_BRANCH :: Stamp.branch r
  | F_depth => TAG_DEPTH :: str_of_int (Stamp.depth r) ++ lit "/" ++ str_of_int (Stamp.max_depth r)
  | F_parent => TAG_PARENT :: Stamp.parent r ++ lit "@d" ++ str_of_int (Stamp.parent_depth r)
  | F_state => TAG_STATE :: Stamp.state r
  | F_gates => TAG_GATES :: concat (List.map Gate.compact (Stamp.gates r))
  | F_pin => TAG_PIN :: replace 32 45 (take 30 (Stamp.pin r))
  | F_look => TAG_LOOK :: Stamp.look r
  | F_chain => TAG_CHAIN :: Stamp.chain r
  | F_time => TAG_TIME :: strftime_mdTHM now
  end.

Definition is_empty (s : list N) : bool :=
  match s with [] => true | _ :: _ => false end.

(** The fields [compact] drops: the optional ones, when empty. *)
Definition omitted (r : Stamp.t) (f : field) : bool :=
  match f with
  | F_branch => is_empty (Stamp.branch r)
  | F_parent => is_empty (Stamp.parent r)
  | F_gates => is_empty (concat (List.map Gate.compact (Stamp.gates r)))
  | F_pin => is_empty (Stamp.pin r)
  | F_look => is_empty (Stamp.look r)
  | F_chain => is_empty (Stamp.chain r)
  | F_marker | F_depth | F_state | F_time => false
  end.

(** The fields that hold the default of the record ([Stamp()]). *)
Definition holds_default (r : Stamp.t) (f : field) : bool :=
  match f with
  | F_depth => (Stamp.depth r =? 0)%Z && (Stamp.max_depth r =? 0)%Z
  | F_state => str_eqb (Stamp.state r) (lit "OPEN")
  | F_parent => is_empty (Stamp.parent r) && (Stamp.parent_depth r =? 0)%Z
  | _ => omitted r f
  end.

(** The compact form that renders, in the canonical order, the fields that
    [drops] does not drop. *)
Definition compact_of (drops : Stamp.t -> field -> bool) (now : datetime)
    (r : Stamp.t) : list N :=
  lit "[" ++ join [PIPE]
    (List.map (field_text now r)
       (List.filter (fun f => negb (drops r f)) canonical_order))
  ++ lit "]".

End StampPredicates.

Section TierPredicates.
Import Py Tiers.

(** Every tier has its index as level. *)
Definition levels_ok (ts : list Tier.t) : Prop :=
  forall i t, ts !! i = Some t -> Tier.level t = Z.of_nat i.

(** The last tier is the only one that is not frozen. *)
Definition one_active (ts : list Tier.t) : Prop :=
  exists ts' t, ts = ts' ++ [t] /\ Tier.frozen t = false
                /\ Forall (fun t => Tier.frozen t = true) ts'.

(** The lists of the project hold addresses of objects of the store. *)
Definition closed (p : Project.t) : Prop :=
  Forall (fun a => (a < length (Project.store p))%nat) (Project.artifacts p)
  /\ Forall (fun a => (a < length (Project.store p))%nat) (Project.bucket p).

Definition invariant (p : Project.t) : Prop :=
  levels_ok (Project.tiers p) /\ one_active (Project.tiers p) /\ closed p.

(** What [inject] makes of the tier it freezes. *)
Definition freeze (now : datetime) (artifact_id : list N) (p : Project.t)
    (t : Tier.t) : Tier.t :=
  Tier.mk (Tier.level t) (Tier.master_depth t) (Tier.master_state t)
    (Tier.master_pin t) (Tier.branches t) true
    (Tier.make_stamp now (Tier.set_frozen true t) (Project.id p) (Project.gates p))
    artifact_id.

(** The tier [inject] creates above a tier of level [l]. *)
Definition promoted (n : nat) (l : Z) : Tier.t :=
  Tier.mk (Z.of_nat n) 0 OPEN (lit "promoted from tier " ++ str_of_int l)
    [] false [] [].

(** The project of the demonstration of gently_tiers.py: two gates, one
    branch, one artifact collected from it. *)
Definition olo_gates : list Gate.t :=
  [Gate.mk (lit "A") (lit "Blue?") G_YES; Gate.mk (lit "B") (lit "JPEG?") G_OPEN].

Definition olo_clock : datetime := Build_datetime 11 3 20 28.

Definition olo_project : Project.t :=
  Project.init_project (Project.new (lit "olo") (lit "OLO Guard") (lit "#00e5a0") olo_gates).

Definition olo_collect_ops : list Project.op :=
  [Project.BranchFromMaster olo_clock (lit "jpeg-test") EXPLORE;
   Project.CollectArtifact olo_clock (lit "b0-jpeg-test") (lit "jpeg-findings")
     (lit "JPEG 4:2:0 destroys 75% blue channel. Confirmed n=100.")].

Definition olo_collected : Project.t := Project.run olo_collect_ops olo_project.

Definition olo_promoted : Project.t :=
  Project.exec (Project.Inject olo_clock (lit "art-0")) olo_collected.

(** [x] is [y] up to the status: every other field is the same. *)
Definition same_but_status (x y : Artifact.t) : Prop :=
  Artifact.id x = Artifact.id y
  /\ Artifact.name x = Artifact.name y
  /\ Artifact.content x = Artifact.content y
  /\ Artifact.origin x = Artifact.origin y
  /\ Artifact.source_tier x = Artifact.source_tier y
  /\ Artifact.source_branch x = Artifact.source_branch y
  /\ Artifact.gate_snapshot x = Artifact.gate_snapshot y
  /\ Artifact.stamp_at_creation x = Artifact.stamp_at_creation y.

(** The state of a project after a successful [inject], relative to the
    state [p] before it and to the address [a] of the artifact injected. *)
Definition promotion_post (now : datetime) (artifact_id : list N)
    (p : Project.t) (a : nat) (r : Project.t * option (nat * nat)) : Prop :=
  exists older active frozen_tier new_tier art injected auto_art,
    (* before: the active tier is the last one *)
    Project.tiers p = older ++ [active] /\ Tier.frozen active = false
    /\ Forall (fun t => Tier.frozen t = true) older
    /\ Forall (fun t => (Tier.level t <= Tier.level active)%Z) (Project.tiers p)
    (* after: the active tier frozen in place, one tier appended *)
    /\ Project.tiers r.1 = older ++ [frozen_tier; new_tier]
    /\ frozen_tier = freeze now artifact_id p active
    /\ Tier.frozen frozen_tier = true
    /\ Tier.frozen_stamp frozen_tier
       = Tier.make_stamp now (Tier.set_frozen true active) (Project.id p) (Project.gates p)
    /\ Tier.promoted_by frozen_tier = artifact_id
    /\ Tier.level new_tier = (Tier.level active + 1)%Z
    /\ Tier.frozen new_tier = false
    /\ Project.current_tier r.1 = (r.1, S (length older))
    (* the artifacts *)
    /\ In a (Project.bucket p)
    /\ Project.store p !! a = Some art /\ Artifact.id art = artifact_id
    /\ Project.store r.1
       = alter (Artifact.set_status (lit "injected")) a (Project.store p) ++ [auto_art]
    /\ Project.store r.1 !! a = Some (Artifact.set_status (lit "injected") art)
    /\ Project.store r.1 !! a = Some injected
    /\ Artifact.status injected = lit "injected"
    /\ same_but_status injected art
    /\ (forall a', a' <> a -> (a' < length (Project.store p))%nat ->
                   Project.store r.1 !! a' = Project.store p !! a')
    /\ Project.store r.1 !! length (Project.store p) = Some auto_art
    /\ length (Project.store r.1) = S (length (Project.store p))
    /\ Artifact.origin auto_art = TIER_AUTO
    /\ Artifact.source_branch auto_art = None
    /\ Project.artifacts r.1 = Project.artifacts p ++ [length (Project.store p)]
    /\ Project.bucket r.1 = Project.bucket p
    /\ ~ In (length (Project.store p)) (Project.bucket r.1)
    (* the result: the new tier and the automatic artifact *)
    /\ r.2 = Some (S (length older), length (Project.store p)).

(** A project of gently_model.py, and the same with one branch and one
    artifact collected from it. *)
Definition model_project : Model.Project.t :=
  Model.Project.mk (lit "olo") (lit "OLO Guard") (lit "#00e5a0")
    (Model.MasterChat.mk 5 12 OPEN (lit "blue channel verified")) [] [] [] [].

Definition model_collected : Model.Project.t :=
  (Model.Project.collect_from_branch olo_clock (lit "olo-jpeg-test")
     (lit "jpeg-findings") (lit "JPEG kills blue")
     (Model.Project.branch_from_master olo_clock (lit "jpeg-test") EXPLORE
        model_project).1).1.

(** What one call appends to the bucket. *)
Definition bucket_added (o : Project.op) (p : Project.t) : list nat :=
  match o with
  | Project.CollectArtifact _ _ _ _ => [length (Project.store p)]
  | _ => []
  end.

End TierPredicates.

Section DictPredicates.
Import Py StampPy StampDict.


End DictPredicates.

Section TierStampPredicates.
Import Py.

(** A gate of a project whose letter is one character, not the separator. *)
Definition tier_gate_ok (g : Tiers.Gate.t) : bool :=
  match Tiers.Gate.letter g with
  | [l] => negb (l =? StampPy.PIPE)
  | _ => false
  end.

(** The list [parts] of [Tier.make_stamp], before the empty ones are
    dropped. *)
Definition tier_stamp_parts (now : datetime) (t : Tiers.Tier.t)
    (project_id : list N) (gates : list Tiers.Gate.t) : list (list N) :=
  [ lit "OLO";
    StampPy.TAG_BRANCH :: lit "t" ++ str_of_int (Tiers.Tier.level t) ++ lit "/" ++ project_id;
    StampPy.TAG_DEPTH :: str_of_int (Tiers.Tier.master_depth t);
    StampPy.TAG_STATE :: Tiers.ConvState_value (Tiers.Tier.master_state t);
    StampPy.Stamp.tagged_if StampPy.TAG_GATES (concat (List.map Tiers.Gate.sym gates));
    StampPy.Stamp.tagged_if StampPy.TAG_PIN
      (match Tiers.Tier.master_pin t with
       | [] => []
       | _ :: _ => replace 32 45 (take 25 (Tiers.Tier.master_pin t))
       end) ]
  ++ (if (0 <? Tiers.Tier.level t)%Z
      then [StampPy.TAG_PARENT :: lit "t" ++ str_of_int (Tiers.Tier.level t - 1)]
      else [])
  ++ [StampPy.TAG_TIME :: strftime_mdTHM now].

(** The record [parse_compact] of stamp.py reads from the stamp of a tier. *)
Definition tier_stamp_decoded (now : datetime) (t : Tiers.Tier.t)
    (project_id : list N) (gates : list Tiers.Gate.t) : StampPy.Stamp.t :=
  StampPy.Stamp.mk
    (lit "t" ++ str_of_int (Tiers.Tier.level t) ++ lit "/" ++ project_id)
    (Tiers.Tier.master_depth t) 0
    (if (0 <? Tiers.Tier.level t)%Z
     then lit "t" ++ str_of_int (Tiers.Tier.level t - 1) else [])
    0
    (Tiers.ConvState_value (Tiers.Tier.master_state t))
    (List.map (fun g => StampPy.Gate.mk (Tiers.Gate.letter g) []
                          (Tiers.GateState_value (Tiers.Gate.state g))) gates)
    (replace 45 32 (take 25 (Tiers.Tier.master_pin t)))
    [] [] (strftime_mdTHM now).

End TierStampPredicates.

Section ShelfPredicates.
Import Py Tiers.

(** The ids the engine gives: to the artifact collected when the shelf holds
    [n] artifacts, to the automatic artifact of the tier of level [l], and
    to the [n]-th branch of a tier. *)
Definition art_id (n : nat) : list N :=
  lit "art-" ++ str_of_int (Z.of_nat n).

Definition auto_id (l : Z) : list N :=
  lit "tier-" ++ str_of_int l ++ lit "-auto".

Definition branch_id (n : nat) (name : list N) : list N :=
  lit "b" ++ str_of_int (Z.of_nat n) ++ lit "-" ++ name.

(** The artifact list holds every object of the store once, in the order of
    creation. *)
Definition shelf_complete (p : Project.t) : Prop :=
  Project.artifacts p = seq 0 (length (Project.store p)).

(** Every artifact is a collected one, with the id of its address, or the
    automatic artifact of a frozen tier, with the id of the level. *)
Definition ids_ok (p : Project.t) : Prop :=
  forall a art, Project.store p !! a = Some art ->
    (Artifact.origin art = MANUAL /\ Artifact.id art = art_id a)
    \/ (Artifact.origin art = TIER_AUTO
        /\ Artifact.id art = auto_id (Artifact.source_tier art)
        /\ (0 <= Artifact.source_tier art < Z.of_nat (length (Project.tiers p)) - 1)%Z).

(** Automatic artifacts come in the order of the levels they conclude. *)
Definition autos_sorted (p : Project.t) : Prop :=
  forall a b arta artb,
    Project.store p !! a = Some arta -> Project.store p !! b = Some artb ->
    Artifact.origin arta = TIER_AUTO -> Artifact.origin artb = TIER_AUTO ->
    (a < b)%nat ->
    (Artifact.source_tier arta < Artifact.source_tier artb)%Z.

(** The bucket holds collected artifacts only. *)
Definition bucket_manual (p : Project.t) : Prop :=
  forall a art, In a (Project.bucket p) -> Project.store p !! a = Some art ->
    Artifact.origin art = MANUAL.

(** Every frozen tier has its automatic artifact, outside the bucket. *)
Definition frozen_concluded (p : Project.t) : Prop :=
  forall i t, Project.tiers p !! i = Some t -> Tier.frozen t = true ->
    exists a art,
      Project.store p !! a = Some art
      /\ Artifact.origin art = TIER_AUTO
      /\ Artifact.source_tier art = Z.of_nat i
      /\ Artifact.stamp_at_creation art = Tier.frozen_stamp t
      /\ ~ In a (Project.bucket p).

Definition shelf_ok (p : Project.t) : Prop :=
  shelf_complete p /\ ids_ok p /\ autos_sorted p /\ bucket_manual p
  /\ frozen_concluded p.

(** The branches of every tier carry the id of their position. *)
Definition branch_ids_ok (p : Project.t) : Prop :=
  forall i t n b,
    Project.tiers p !! i = Some t -> Tier.branches t !! n = Some b ->
    Branch.id b = branch_id n (Branch.name b).

End ShelfPredicates.

Section ModelPredicates.
Import Py Model ModelOps.

(** A project of gently_model.py no call was made on. *)
Definition model_fresh (p : Project.t) : Prop :=
  Project.branches p = [] /\ Project.bucket p = [] /\ Project.store p = [].

Definition model_reachable (p : Project.t) : Prop :=
  exists p0 ops, model_fresh p0 /\ p = run ops p0.

(** The bucket holds every artifact once, in the order of collection, each
    with the id of its position; the artifacts of a branch are artifacts of
    the bucket that name the branch as their source. *)
Definition model_shelf_ok (p : Project.t) : Prop :=
  Project.bucket p = seq 0 (length (Project.store p))
  /\ (forall a art, Project.store p !! a = Some art -> Artifact.id art = art_id a)
  /\ (forall i b a, Project.branches p !! i = Some b -> In a (Branch.artifacts b) ->
        exists art, Project.store p !! a = Some art
                    /\ Artifact.source_branch art = Branch.id b).

(** [x] is [y] up to the status and the edited content: every field set
    at collection is the same. *)
Definition same_capture (x y : Artifact.t) : Prop :=
  Artifact.id x = Artifact.id y
  /\ Artifact.name x = Artifact.name y
  /\ Artifact.content x = Artifact.content y
  /\ Artifact.source_branch x = Artifact.source_branch y
  /\ Artifact.source_depth x = Artifact.source_depth y
  /\ Artifact.fork_type x = Artifact.fork_type y
  /\ Artifact.stamp_at_capture x = Artifact.stamp_at_capture y.

(** The calls of a list that are [inject_to_master]. *)
Definition injects (ops : list op) : nat :=
  length (List.filter (fun o => match o with InjectToMaster _ => true | _ => false end) ops).

(** [add_project] for each of a list of (id, name, color). *)
Definition add_projects (l : list (list N * list N * list N)) (g : Gently.t)
    : Gently.t :=
  fold_left (fun g x => fst (Gently.add_project x.1.1 x.1.2 x.2 g)) l g.

(** The model project of the demonstration with two branches of one name. *)
Definition model_twins : Project.t :=
  run [BranchFromMaster olo_clock (lit "jpeg-test") EXPLORE;
       BranchFromMaster olo_clock (lit "jpeg-test") REFINE] model_project.

End ModelPredicates.

Section ModelStampPredicates.
Import Py.

(** A gate of gently_model.py whose letter is one character, not the
    separator. *)
Definition model_gate_ok (g : Model.Gate.t) : bool :=
  match Model.Gate.letter g with
  | [l] => negb (l =? StampPy.PIPE)
  | _ => false
  end.

(** [branch = self.branch_id or "master"] *)
Definition model_stamp_branch (r : Model.Stamp.t) : list N :=
  match Model.Stamp.branch_id r with
  | Some (c :: b) => c :: b
  | _ => lit "master"
  end.

(** The parent a stamp of gently_model.py renders: none for [None] and for
    the empty string. *)
Definition model_stamp_parent (r : Model.Stamp.t) : list N :=
  match Model.Stamp.parent_id r with
  | Some par => par
  | None => []
  end.

(** The stamps of gently_model.py without a separator in their texts. *)
Definition model_stamp_ok (r : Model.Stamp.t) : bool :=
  lacks StampPy.PIPE (Model.Stamp.project_id r)
  && lacks StampPy.PIPE (model_stamp_branch r)
  && lacks StampPy.PIPE (Model.Stamp.pin r)
  && lacks StampPy.PIPE (model_stamp_parent r)
  && forallb model_gate_ok (Model.Stamp.gates r).

(** The list [parts] of [Stamp.compact] of gently_model.py, before the
    empty ones are dropped. *)
Definition model_stamp_parts (now : datetime) (r : Model.Stamp.t) : list (list N) :=
  [ lit "OLO";
    StampPy.TAG_BRANCH :: Model.Stamp.project_id r ++ lit "/" ++ model_stamp_branch r;
    StampPy.TAG_DEPTH :: str_of_int (Model.Stamp.depth r) ++ lit "/"
      ++ str_of_int (Model.Stamp.max_depth r);
    StampPy.TAG_STATE :: Tiers.ConvState_value (Model.Stamp.conv_state r);
    StampPy.Stamp.tagged_if StampPy.TAG_GATES
      (concat (List.map Model.Gate.symbol (Model.Stamp.gates r)));
    StampPy.Stamp.tagged_if StampPy.TAG_PIN
      (match Model.Stamp.pin r with
       | [] => []
       | _ :: _ => replace 32 45 (take 25 (Model.Stamp.pin r))
       end);
    StampPy.Stamp.tagged_if StampPy.TAG_PARENT
      (match model_stamp_parent r with
       | [] => []
       | _ :: _ => model_stamp_parent r ++ lit "@d" ++ str_of_int (Model.Stamp.depth r)
       end);
    match Model.Stamp.fork_type r with
    | Some f => 0x1F500 :: Tiers.ForkType_value f
    | None => []
    end;
    StampPy.TAG_TIME :: strftime_mdTHM now ].

(** The record [parse_compact] of stamp.py reads from a stamp of
    gently_model.py. *)
Definition model_stamp_decoded (now : datetime) (r : Model.Stamp.t) : StampPy.Stamp.t :=
  StampPy.Stamp.mk
    (Model.Stamp.project_id r ++ lit "/" ++ model_stamp_branch r)
    (Model.Stamp.depth r) (Model.Stamp.max_depth r)
    (model_stamp_parent r)
    (match model_stamp_parent r with [] => 0%Z | _ :: _ => Model.Stamp.depth r end)
    (Tiers.ConvState_value (Model.Stamp.conv_state r))
    (List.map (fun g => StampPy.Gate.mk (Model.Gate.letter g) []
                          (Tiers.GateState_value (Model.Gate.state g)))
       (Model.Stamp.gates r))
    (replace 45 32 (take 25 (Model.Stamp.pin r)))
    [] [] (strftime_mdTHM now).

End ModelStampPredicates.

(** * Properties *)

(** ** Python strings *)

Section PyFacts.
Import Py.

Lemma str_eqb_eq a b : str_eqb a b = true <-> a = b.
Proof.
  revert b. induction a as [|x a IH]; intros [|y b]; simpl; try easy.
  rewrite andb_true_iff, N.eqb_eq, IH. split.
  - intros [-> ->]. reflexivity.
  - intros [= -> ->]. auto.
Qed.

Lemma str_eqb_refl a : str_eqb a a = true.
Proof. apply str_eqb_eq. reflexivity. Qed.

Lemma lacks_app c s t : lacks c (s ++ t) = lacks c s && lacks c t.
Proof. apply forallb_app. Qed.

Lemma lacks_cons c x s : lacks c (x :: s) = negb (x =? c) && lacks c s.
Proof. reflexivity. Qed.

Lemma lacks_take c n s : lacks c s = true -> lacks c (take n s) = true.
Proof.
  revert n. induction s as [|x s IH]; intros [|n]; simpl; auto.
  rewrite !andb_true_iff. intros [? ?]. auto.
Qed.

Lemma lacks_replace c old new s :
  new <> c -> lacks c s = true -> lacks c (replace old new s) = true.
Proof.
  intros Hnew. induction s as [|x s IH]; simpl; auto.
  rewrite !andb_true_iff. intros [Hx Hs]. split; auto.
  destruct (x =? old); auto.
  apply negb_true_iff, N.eqb_neq. exact Hnew.
Qed.

Lemma split_nonempty sep s : split sep s <> [].
Proof.
  destruct s as [|c s]; simpl; [easy|].
  destruct (c =? sep); [easy|]. destruct (split sep s); easy.
Qed.

Lemma split_lacks sep p : lacks sep p = true -> split sep p = [p].
Proof.
  induction p as [|c p IH]; simpl; [reflexivity|].
  rewrite andb_true_iff, negb_true_iff. intros [-> Hp].
  rewrite IH by assumption. reflexivity.
Qed.

Lemma split_app_sep sep p rest :
  lacks sep p = true -> split sep (p ++ sep :: rest) = p :: split sep rest.
Proof.
  induction p as [|c p IH]; simpl.
  - intros _. rewrite N.eqb_refl. reflexivity.
  - rewrite andb_true_iff, negb_true_iff. intros [-> Hp].
    rewrite IH by assumption. reflexivity.
Qed.

(** Splitting undoes joining when no part holds the separator. *)
Lemma split_join sep parts :
  parts <> [] ->
  forallb (lacks sep) parts = true ->
  split sep (join [sep] parts) = parts.
Proof.
  induction parts as [|p ps IH]; [easy|]. intros _.
  simpl forallb. rewrite andb_true_iff. intros [Hp Hps].
  destruct ps as [|q ps].
  - simpl. apply split_lacks, Hp.
  - change (join [sep] (p :: q :: ps)) with (p ++ sep :: join [sep] (q :: ps)).
    rewrite split_app_sep by assumption. f_equal. apply IH; easy.
Qed.

Lemma endswith_snoc c s : endswith [c] (s ++ [c]) = true.
Proof.
  unfold endswith. rewrite reverse_app. simpl.
  rewrite N.eqb_refl. reflexivity.
Qed.

Lemma slice_1_neg1_wrap a b s : slice_1_neg1 (a :: s ++ [b]) = s.
Proof.
  unfold slice_1_neg1. simpl length. rewrite length_app. simpl length.
  replace (S (length s + 1) - 1)%nat with (S (length s)) by lia.
  simpl. rewrite take_app_length. reflexivity.
Qed.

(** *** Integers *)

Lemma uint_chars_digits u : forallb is_digit (uint_chars u) = true.
Proof. induction u; simpl; auto. Qed.

Lemma chars_uint_chars u : chars_uint (uint_chars u) = Some u.
Proof. induction u; simpl; try rewrite IHu; reflexivity. Qed.

Lemma digits_value_chars u :
  u <> Nil -> digits_value (uint_chars u) = Some (Z.of_uint u).
Proof.
  intros Hu. unfold digits_value.
  destruct (uint_chars u) eqn:E.
  - destruct u; simpl in E; congruence.
  - rewrite <- E, chars_uint_chars. reflexivity.
Qed.

Lemma int_of_str_digit c s :
  is_digit c = true -> int_of_str (c :: s) = digits_value (c :: s).
Proof.
  unfold is_digit. rewrite andb_true_iff, N.leb_le, N.leb_le. intros [H1 H2].
  assert (Hc : c = 48 \/ c = 49 \/ c = 50 \/ c = 51 \/ c = 52 \/ c = 53
               \/ c = 54 \/ c = 55 \/ c = 56 \/ c = 57) by lia.
  repeat (destruct Hc as [-> | Hc]; [reflexivity|]). subst c. reflexivity.
Qed.

Lemma int_of_str_uint u :
  u <> Nil -> int_of_str (uint_chars u) = Some (Z.of_uint u).
Proof.
  intros Hu. rewrite <- digits_value_chars by assumption.
  pose proof (uint_chars_digits u) as Hd.
  destruct (uint_chars u) as [|c s] eqn:E.
  - destruct u; simpl in E; congruence.
  - simpl in Hd. apply andb_true_iff in Hd as [Hc _].
    apply int_of_str_digit, Hc.
Qed.

Lemma to_int_nonnil z :
  match Z.to_int z with Decimal.Pos u | Decimal.Neg u => u <> Nil end.
Proof.
  destruct z as [|p|p]; simpl; try easy;
    apply (DecimalPos.Unsigned.to_uint_nonnil p).
Qed.

(** [int(str(z)) == z] *)
Lemma int_of_str_of_int z : int_of_str (str_of_int z) = Some z.
Proof.
  pose proof (to_int_nonnil z) as Hn.
  pose proof (DecimalZ.of_to z) as Hz.
  unfold str_of_int. destruct (Z.to_int z) as [u|u]; simpl in Hz.
  - rewrite int_of_str_uint by assumption. congruence.
  - change (int_of_str (45 :: uint_chars u)) with (Z.opp <$> digits_value (uint_chars u)).
    rewrite digits_value_chars by assumption. simpl. congruence.
Qed.

Lemma int_call_str_of_int z : int_call (str_of_int z) = Return z.
Proof. unfold int_call. rewrite int_of_str_of_int. reflexivity. Qed.

Lemma digits_lack c s :
  is_digit c = false -> forallb is_digit s = true -> lacks c s = true.
Proof.
  intros Hc. induction s as [|x s IH]; simpl; auto.
  rewrite !andb_true_iff. intros [Hx Hs]. split; auto.
  apply negb_true_iff, N.eqb_neq. intros ->. congruence.
Qed.

(** The decimal form of an integer holds digits and at most a sign. *)
Lemma str_of_int_lacks c z :
  is_digit c = false -> c <> 45 -> lacks c (str_of_int z) = true.
Proof.
  intros Hc Hm. unfold str_of_int.
  destruct (Z.to_int z) as [u|u].
  - apply digits_lack; auto using uint_chars_digits.
  - rewrite lacks_cons, digits_lack by auto using uint_chars_digits.
    rewrite andb_true_r. apply negb_true_iff, N.eqb_neq. congruence.
Qed.

Lemma strftime_lacks c now :
  is_digit c = false -> c <> 84 -> lacks c (strftime_mdTHM now) = true.
Proof.
  intros Hc HT.
  assert (Hd : forall d, negb (digit_char d =? c) = true).
  { intros d. apply negb_true_iff, N.eqb_neq. intros <-.
    unfold is_digit, digit_char in Hc.
    pose proof (Nat.mod_upper_bound d 10 ltac:(lia)).
    apply andb_false_iff in Hc as [Hc|Hc]; apply N.leb_gt in Hc; lia. }
  assert (HT' : negb (84 =? c) = true).
  { apply negb_true_iff, N.eqb_neq. congruence. }
  unfold strftime_mdTHM, two_digits. change (lit "T") with [84].
  rewrite !lacks_app, !lacks_cons, !Hd, HT'. reflexivity.
Qed.

(** *** The last occurrence of a separator *)

Lemma rfind_lacks c sub s : lacks c s = true -> rfind (c :: sub) s = None.
Proof.
  induction s as [|x s IH]; simpl; [reflexivity|].
  rewrite andb_true_iff, negb_true_iff. intros [Hx Hs].
  rewrite IH by assumption. rewrite N.eqb_sym, Hx. reflexivity.
Qed.

Lemma rfind_last c d s t :
  c <> d -> lacks c t = true ->
  rfind [c; d] (s ++ c :: d :: t) = Some (length s).
Proof.
  intros Hcd Ht. induction s as [|x s IH].
  - simpl. rewrite (rfind_lacks c [d] t Ht).
    apply N.eqb_neq in Hcd. rewrite Hcd. simpl.
    rewrite !N.eqb_refl. reflexivity.
  - simpl. simpl in IH. rewrite IH. reflexivity.
Qed.

Lemma rsplit1_last c d s t :
  c <> d -> lacks c t = true ->
  rsplit1 [c; d] (s ++ c :: d :: t) = [s; t].
Proof.
  intros Hcd Ht. unfold rsplit1. rewrite rfind_last by assumption.
  rewrite take_app_length. f_equal. f_equal.
  rewrite drop_app_ge by (simpl; lia).
  replace (length s + length [c; d] - length s)%nat with 2%nat by (simpl; lia).
  reflexivity.
Qed.

Lemma contains_last c d s t :
  c <> d -> lacks c t = true -> contains [c; d] (s ++ c :: d :: t) = true.
Proof.
  intros Hcd Ht. unfold contains. rewrite rfind_last by assumption. reflexivity.
Qed.

End PyFacts.

(** ** The stamp codec *)

Section StampCodec.
Import Py StampPy.

Lemma parse_parts_filter s parts :
  Stamp.parse_parts s (List.filter Stamp.truthy parts) = Stamp.parse_parts s parts.
Proof.
  revert s. induction parts as [|p parts IH]; intros s; [reflexivity|].
  destruct p as [|c p]; simpl; [apply IH|].
  destruct (Stamp.parse_part s (c :: p)); simpl; auto.
Qed.

Lemma parse_branch_part s v :
  Stamp.branch s = [] ->
  Stamp.parse_part s (Stamp.tagged_if TAG_BRANCH v) = Return (Stamp.set_branch v s).
Proof.
  intros Hs. destruct v; [|reflexivity].
  destruct s; simpl in Hs; subst. reflexivity.
Qed.

Lemma parse_state_part s v :
  Stamp.parse_part s (TAG_STATE :: v) = Return (Stamp.set_state v s).
Proof. reflexivity. Qed.

Lemma parse_look_part s v :
  Stamp.look s = [] ->
  Stamp.parse_part s (Stamp.tagged_if TAG_LOOK v) = Return (Stamp.set_look v s).
Proof.
  intros Hs. destruct v; [|reflexivity].
  destruct s; simpl in Hs; subst. reflexivity.
Qed.

Lemma parse_chain_part s v :
  Stamp.chain s = [] ->
  Stamp.parse_part s (Stamp.tagged_if TAG_CHAIN v) = Return (Stamp.set_chain v s).
Proof.
  intros Hs. destruct v; [|reflexivity].
  destruct s; simpl in Hs; subst. reflexivity.
Qed.

Lemma parse_time_part s v :
  Stamp.parse_part s (TAG_TIME :: v) = Return (Stamp.set_timestamp v s).
Proof. reflexivity. Qed.

Lemma parse_pin_part s v :
  Stamp.pin s = [] ->
  Stamp.parse_part s (Stamp.tagged_if TAG_PIN v)
  = Return (Stamp.set_pin (replace 45 32 v) s).
Proof.
  intros Hs. destruct v; [|reflexivity].
  destruct s; simpl in Hs; subst. reflexivity.
Qed.

Lemma parse_depth_part s a b :
  lacks 47 a = true -> lacks 47 b = true ->
  Stamp.parse_part s (TAG_DEPTH :: a ++ lit "/" ++ b)
  = let! d := int_call a in
    let! m := int_call b in
    Return (Stamp.set_max_depth m (Stamp.set_depth d s)).
Proof.
  intros Ha Hb.
  assert (Hsplit : split 47 (a ++ lit "/" ++ b) = [a; b]).
  { change (lit "/" ++ b) with (47 :: b).
    rewrite split_app_sep, split_lacks by assumption. reflexivity. }
  change (Stamp.parse_part s (TAG_DEPTH :: a ++ lit "/" ++ b))
    with (let nums := split 47 (a ++ lit "/" ++ b) in
          let! d := int_call (nth 0 nums []) in
          let stamp := Stamp.set_depth d s in
          match nums with
          | _ :: n1 :: _ => let! m := int_call n1 in Return (Stamp.set_max_depth m stamp)
          | _ => Return (Stamp.set_max_depth 0 stamp)
          end).
  rewrite Hsplit. reflexivity.
Qed.

Lemma parse_parent_part s name dp :
  Stamp.parent s = [] ->
  lacks 64 dp = true ->
  Stamp.parse_part s
    (Stamp.tagged_if TAG_PARENT
       (match name with [] => [] | _ :: _ => name ++ lit "@d" ++ dp end))
  = match name with
    | [] => Return s
    | _ :: _ => let! pd := int_call dp in
                Return (Stamp.set_parent_depth pd (Stamp.set_parent name s))
    end.
Proof.
  intros Hs Hdp. destruct name as [|c name]; [reflexivity|].
  set (nm := c :: name).
  assert (Href : (nm ++ lit "@d" ++ dp) = nm ++ 64 :: 100 :: dp) by reflexivity.
  assert (Hin : contains (lit "@d") (nm ++ lit "@d" ++ dp) = true).
  { rewrite Href. apply (contains_last 64 100); [lia | assumption]. }
  assert (Hsp : rsplit1 (lit "@d") (nm ++ lit "@d" ++ dp) = [nm; dp]).
  { rewrite Href. apply (rsplit1_last 64 100); [lia | assumption]. }
  change (Stamp.parse_part s (Stamp.tagged_if TAG_PARENT (nm ++ lit "@d" ++ dp)))
    with (let ref := nm ++ lit "@d" ++ dp in
          if contains (lit "@d") ref then
            match rsplit1 (lit "@d") ref with
            | [name; dp] =>
                let stamp := Stamp.set_parent name s in
                let! pd := int_call dp in Return (Stamp.set_parent_depth pd stamp)
            | _ => Raise ValueError
            end
          else Return (Stamp.set_parent ref s)).
  cbv zeta. rewrite Hin, Hsp. reflexivity.
Qed.

Lemma parse_gates_gate_str gs :
  forallb gate_ok gs = true ->
  Stamp.parse_gates (concat (List.map Gate.compact gs)) = List.map forget_question gs.
Proof.
  induction gs as [|g gs IH]; [reflexivity|].
  simpl forallb. rewrite andb_true_iff. intros [Hg Hgs].
  destruct g as [l q st]. unfold gate_ok in Hg. simpl in Hg.
  destruct l as [|l [|? ?]]; try discriminate.
  destruct st as [|st [|? ?]]; try discriminate.
  simpl. rewrite IH by assumption. reflexivity.
Qed.

Lemma parse_gates_part s r :
  Stamp.gates s = [] ->
  forallb gate_ok (Stamp.gates r) = true ->
  Stamp.parse_part s (Stamp.tagged_if TAG_GATES (Stamp.gate_str r))
  = Return (Stamp.set_gates (List.map forget_question (Stamp.gates r)) s).
Proof.
  intros Hs Hr. pose proof (parse_gates_gate_str _ Hr) as Hp.
  unfold Stamp.gate_str in *.
  destruct (concat (List.map Gate.compact (Stamp.gates r))) as [|c gs] eqn:E.
  - simpl in Hp. rewrite <- Hp. destruct s; simpl in Hs; subst. reflexivity.
  - rewrite <- Hp.
    change (Stamp.parse_part s (Stamp.tagged_if TAG_GATES (c :: gs)))
      with (Return (Stamp.set_gates (Stamp.gates s ++ Stamp.parse_gates (c :: gs)) s)).
    rewrite Hs. reflexivity.
Qed.

Lemma replace_replace a b s : replace b a (replace a b s) = replace b a s.
Proof.
  unfold replace. rewrite List.map_map. apply List.map_ext. intros c.
  destruct (c =? a) eqn:Ea.
  - rewrite N.eqb_refl. apply N.eqb_eq in Ea. subst.
    destruct (a =? b); reflexivity.
  - reflexivity.
Qed.

Lemma replace_pin_short r :
  replace 45 32 (Stamp.pin_short r) = replace 45 32 (take 30 (Stamp.pin r)).
Proof.
  unfold Stamp.pin_short. destruct (Stamp.pin r); [reflexivity|].
  apply replace_replace.
Qed.

Lemma gate_str_lacks gs :
  forallb gate_ok gs = true ->
  lacks PIPE (concat (List.map Gate.compact gs)) = true.
Proof.
  induction gs as [|g gs IH]; [reflexivity|].
  simpl forallb. rewrite andb_true_iff. intros [Hg Hgs].
  destruct g as [l q st]. unfold gate_ok in Hg. simpl in Hg.
  destruct l as [|l [|? ?]]; try discriminate.
  destruct st as [|st [|? ?]]; try discriminate.
  apply andb_true_iff in Hg as [Hl Hst].
  change (concat (List.map Gate.compact (Gate.mk [l] q [st] :: gs)))
    with (l :: st :: concat (List.map Gate.compact gs)).
  rewrite !lacks_cons, IH, Hl, Hst by assumption. reflexivity.
Qed.

Lemma tagged_if_lacks c tag v :
  tag <> c -> lacks c v = true -> lacks c (Stamp.tagged_if tag v) = true.
Proof.
  intros Htag Hv. destruct v; [reflexivity|].
  unfold Stamp.tagged_if. rewrite lacks_cons, Hv.
  apply N.eqb_neq in Htag. rewrite Htag. reflexivity.
Qed.

Lemma in_domain_fields r :
  in_domain r = true ->
  lacks PIPE (Stamp.branch r) = true /\ lacks PIPE (Stamp.parent r) = true
  /\ lacks PIPE (Stamp.state r) = true /\ forallb gate_ok (Stamp.gates r) = true
  /\ lacks PIPE (Stamp.pin r) = true /\ lacks PIPE (Stamp.look r) = true
  /\ lacks PIPE (Stamp.chain r) = true.
Proof. unfold in_domain. rewrite !andb_true_iff. tauto. Qed.

Lemma str_of_int_lacks_pipe z : lacks PIPE (str_of_int z) = true.
Proof. apply str_of_int_lacks; [reflexivity | unfold PIPE; lia]. Qed.

Lemma compact_parts_lack now r :
  in_domain r = true ->
  forallb (lacks PIPE) (Stamp.compact_parts now r) = true.
Proof.
  intros Hd.
  destruct (in_domain_fields r Hd) as (Hb & Hp & Hs & Hg & Hpin & Hl & Hc).
  unfold Stamp.compact_parts. cbn [forallb].
  rewrite !tagged_if_lacks; try assumption; try (unfold PIPE; compute; congruence).
  - rewrite !lacks_cons, !lacks_app, !str_of_int_lacks_pipe, Hs.
    rewrite strftime_lacks by (reflexivity || (unfold PIPE; lia)).
    reflexivity.
  - unfold Stamp.pin_short. destruct (Stamp.pin r) eqn:E; [reflexivity|].
    rewrite <- E. apply lacks_replace; [unfold PIPE; lia|].
    apply lacks_take. rewrite E. assumption.
  - apply gate_str_lacks, Hg.
  - unfold Stamp.parent_str. destruct (Stamp.parent r) eqn:E; [reflexivity|].
    rewrite <- E in *. rewrite !lacks_app, Hp, str_of_int_lacks_pipe. reflexivity.
Qed.

Lemma forallb_filter {A} (P Q : A -> bool) l :
  forallb P l = true -> forallb P (List.filter Q l) = true.
Proof.
  induction l as [|x l IH]; simpl; [reflexivity|].
  rewrite andb_true_iff. intros [Hx Hl].
  destruct (Q x); simpl; [rewrite Hx|]; auto.
Qed.

(** The parts of a compact stamp, read back in order, rebuild [decoded]. *)
Lemma parse_parts_compact_parts now r :
  in_domain r = true ->
  Stamp.parse_parts Stamp.default (Stamp.compact_parts now r)
  = Return (decoded now r).
Proof.
  intros Hd.
  destruct (in_domain_fields r Hd) as (Hb & Hp & Hs & Hg & Hpin & Hl & Hc).
  unfold Stamp.compact_parts. cbn [Stamp.parse_parts].
  change (Stamp.parse_part Stamp.default (lit "OLO")) with (Return Stamp.default).
  cbn [bind].
  rewrite parse_branch_part by reflexivity. cbn [bind].
  rewrite parse_depth_part
    by (apply str_of_int_lacks; [reflexivity | lia]).
  rewrite !int_call_str_of_int. cbn [bind].
  unfold Stamp.parent_str.
  rewrite parse_parent_part
    by (reflexivity || (apply str_of_int_lacks; [reflexivity | lia])).
  rewrite int_call_str_of_int.
  assert (Hpar :
    (match Stamp.parent r with
     | [] => Return (Stamp.set_max_depth (Stamp.max_depth r)
                       (Stamp.set_depth (Stamp.depth r)
                          (Stamp.set_branch (Stamp.branch r) Stamp.default)))
     | _ :: _ =>
         let! pd := Return (Stamp.parent_depth r) in
         Return (Stamp.set_parent_depth pd
                   (Stamp.set_parent (Stamp.parent r)
                      (Stamp.set_max_depth (Stamp.max_depth r)
                         (Stamp.set_depth (Stamp.depth r)
                            (Stamp.set_branch (Stamp.branch r) Stamp.default)))))
     end)
    = Return (Stamp.mk (Stamp.branch r) (Stamp.depth r) (Stamp.max_depth r)
                (Stamp.parent r)
                (match Stamp.parent r with [] => 0%Z | _ :: _ => Stamp.parent_depth r end)
                (lit "OPEN") [] [] [] [] [])).
  { destruct (Stamp.parent r); reflexivity. }
  rewrite Hpar. clear Hpar. cbn [bind].
  rewrite parse_state_part. cbn [bind].
  rewrite parse_gates_part by (reflexivity || assumption). cbn [bind].
  rewrite parse_pin_part by reflexivity. cbn [bind].
  rewrite parse_look_part by reflexivity. cbn [bind].
  rewrite parse_chain_part by reflexivity. cbn [bind].
  rewrite parse_time_part. rewrite replace_pin_short. reflexivity.
Qed.

(** Decoding the compact form of a record of the declared domain. *)
Lemma parse_compact_compact now r :
  in_domain r = true ->
  Stamp.parse_compact (Stamp.compact now r) = Return (Some (decoded now r)).
Proof.
  intros Hd.
  pose proof (compact_parts_lack now r Hd) as Hlack.
  pose proof (parse_parts_compact_parts now r Hd) as Hparse.
  rewrite <- parse_parts_filter in Hparse.
  apply (forallb_filter _ Stamp.truthy) in Hlack.
  unfold Stamp.compact.
  set (fp := List.filter Stamp.truthy (Stamp.compact_parts now r)) in *.
  assert (Hfp : exists q l, fp = lit "OLO" :: q :: l).
  { subst fp. unfold Stamp.compact_parts.
    destruct (Stamp.tagged_if TAG_BRANCH (Stamp.branch r)); simpl; eauto. }
  destruct Hfp as (q & l & Hfp).
  assert (Hne : fp <> []) by (rewrite Hfp; discriminate).
  unfold Stamp.parse_compact.
  assert (Hstart : startswith (lit "[OLO|") (lit "[" ++ join [PIPE] fp ++ lit "]") = true).
  { rewrite Hfp. reflexivity. }
  assert (Hend : endswith (lit "]") (lit "[" ++ join [PIPE] fp ++ lit "]") = true).
  { rewrite app_assoc. apply endswith_snoc. }
  rewrite Hstart, Hend. cbn [negb orb].
  change (lit "[" ++ join [PIPE] fp ++ lit "]") with (91 :: join [PIPE] fp ++ [93]).
  rewrite slice_1_neg1_wrap, split_join by assumption.
  rewrite Hparse. reflexivity.
Qed.

End StampCodec.

(** ** Claims about the stamp codec *)

Section StampClaims.
Import Py StampPy.

Lemma map_gate_pair_forget gs :
  List.map gate_pair (List.map forget_question gs) = List.map gate_pair gs.
Proof. rewrite List.map_map. reflexivity. Qed.

(** C1, as stated, fails: a record with an empty [parent] and a non-zero
    [parent_depth] is in the declared domain, its compact form has no parent
    reference, and decoding it yields [parent_depth = 0]. *)
Lemma stamp_roundtrip_loses_orphan_parent_depth :
  in_domain orphan_at_depth_3 = true
  /\ Stamp.parse_compact (Stamp.compact clock_1103T2028 orphan_at_depth_3)
     = Return (Some (Stamp.set_timestamp (lit "1103T2028") Stamp.default))
  /\ ~ roundtrip_exact clock_1103T2028 orphan_at_depth_3.
Proof.
  split; [reflexivity|]. split; [vm_compute; reflexivity|].
  intros (s & Hs & _ & _ & _ & _ & _ & _ & Hpd & _).
  vm_compute in Hs. injection Hs as <-. discriminate Hpd.
Qed.

(** C1 (amended): for every record of the declared domain, decoding its
    compact form succeeds and reproduces branch, depth, max_depth, state, the
    ordered gate letter and state pairs, parent, look and chain exactly;
    parent_depth is reproduced exactly when parent is non-empty and is decoded
    as 0 when parent is empty; pin is reproduced up to the replacement of
    spaces by dashes and the truncation to 30 characters. *)
Theorem stamp_roundtrip (now : datetime) (r : Stamp.t) :
  in_domain r = true ->
  exists s,
    Stamp.parse_compact (Stamp.compact now r) = Return (Some s)
    /\ Stamp.branch s = Stamp.branch r
    /\ Stamp.depth s = Stamp.depth r
    /\ Stamp.max_depth s = Stamp.max_depth r
    /\ Stamp.state s = Stamp.state r
    /\ List.map gate_pair (Stamp.gates s) = List.map gate_pair (Stamp.gates r)
    /\ Stamp.parent s = Stamp.parent r
    /\ (Stamp.parent r <> [] -> Stamp.parent_depth s = Stamp.parent_depth r)
    /\ (Stamp.parent r = [] -> Stamp.parent_depth s = 0%Z)
    /\ Stamp.look s = Stamp.look r
    /\ Stamp.chain s = Stamp.chain r
    /\ Stamp.pin s = replace 45 32 (take 30 (Stamp.pin r))
    /\ replace 32 45 (Stamp.pin s) = replace 32 45 (take 30 (Stamp.pin r)).
Proof.
  intros Hd. exists (decoded now r).
  split; [apply parse_compact_compact, Hd|].
  unfold decoded; cbn [Stamp.branch Stamp.depth Stamp.max_depth Stamp.state
    Stamp.gates Stamp.parent Stamp.parent_depth Stamp.look Stamp.chain Stamp.pin].
  repeat split; auto using map_gate_pair_forget, replace_replace.
  - destruct (Stamp.parent r); congruence.
  - intros ->. reflexivity.
Qed.

Lemma stamp_roundtrip_witness :
  in_domain blue_channel_stamp = true
  /\ exists s,
    Stamp.parse_compact (Stamp.compact clock_1103T2028 blue_channel_stamp) = Return (Some s)
    /\ Stamp.branch s = Stamp.branch blue_channel_stamp
    /\ Stamp.depth s = Stamp.depth blue_channel_stamp
    /\ Stamp.max_depth s = Stamp.max_depth blue_channel_stamp
    /\ Stamp.state s = Stamp.state blue_channel_stamp
    /\ List.map gate_pair (Stamp.gates s) = List.map gate_pair (Stamp.gates blue_channel_stamp)
    /\ Stamp.parent s = Stamp.parent blue_channel_stamp
    /\ (Stamp.parent blue_channel_stamp <> [] ->
        Stamp.parent_depth s = Stamp.parent_depth blue_channel_stamp)
    /\ (Stamp.parent blue_channel_stamp = [] -> Stamp.parent_depth s = 0%Z)
    /\ Stamp.look s = Stamp.look blue_channel_stamp
    /\ Stamp.chain s = Stamp.chain blue_channel_stamp
    /\ Stamp.pin s = replace 45 32 (take 30 (Stamp.pin blue_channel_stamp))
    /\ replace 32 45 (Stamp.pin s) = replace 32 45 (take 30 (Stamp.pin blue_channel_stamp)).
Proof.
  split; [reflexivity|].
  apply (stamp_roundtrip clock_1103T2028 blue_channel_stamp). reflexivity.
Defined.

(** C5: a line that does not start with the wrapper and the protocol marker,
    or does not end with the closing bracket, is decoded to no result, and
    the call does not raise. *)
Theorem parse_compact_rejects (line : list N) :
  startswith (lit "[OLO|") line = false \/ endswith (lit "]") line = false ->
  Stamp.parse_compact line = Return None.
Proof.
  intros H. unfold Stamp.parse_compact.
  destruct H as [-> | ->]; [reflexivity|].
  rewrite orb_true_r. reflexivity.
Qed.

Lemma parse_compact_rejects_witness :
  (startswith (lit "[OLO|") (lit "not a stamp") = false
   \/ endswith (lit "]") (lit "not a stamp") = false)
  /\ Stamp.parse_compact (lit "not a stamp") = Return None.
Proof.
  split; [left; reflexivity|].
  apply (parse_compact_rejects (lit "not a stamp")). left. reflexivity.
Defined.

(** C9, as stated, fails: for the default record the depth and the state
    fields hold their defaults and are rendered all the same. *)
Lemma compact_renders_default_depth_and_state :
  Stamp.compact clock_1103T2028 Stamp.default
  = lit "[OLO|" ++ [TAG_DEPTH] ++ lit "0/0|" ++ [TAG_STATE] ++ lit "OPEN|"
    ++ [TAG_TIME] ++ lit "1103T2028]"
  /\ compact_of holds_default clock_1103T2028 Stamp.default
     = lit "[OLO|" ++ [TAG_TIME] ++ lit "1103T2028]"
  /\ Stamp.compact clock_1103T2028 Stamp.default
     <> compact_of holds_default clock_1103T2028 Stamp.default.
Proof.
  split; [vm_compute; reflexivity|]. split; [vm_compute; reflexivity|].
  vm_compute. discriminate.
Qed.

Lemma rendered_parts now r :
  List.filter Stamp.truthy (Stamp.compact_parts now r)
  = List.map (field_text now r)
      (List.filter (fun f => negb (omitted r f)) canonical_order).
Proof.
  unfold Stamp.compact_parts, canonical_order, omitted, field_text,
    Stamp.gate_str, Stamp.parent_str, Stamp.pin_short.
  generalize (strftime_mdTHM now) (str_of_int (Stamp.depth r))
    (str_of_int (Stamp.max_depth r)) (str_of_int (Stamp.parent_depth r))
    (concat (List.map Gate.compact (Stamp.gates r))).
  intros ts d m pd gs.
  destruct (Stamp.branch r), (Stamp.parent r), gs, (Stamp.pin r),
    (Stamp.look r), (Stamp.chain r); reflexivity.
Qed.

(** C9 (amended): [compact] renders the protocol marker, depth/max_depth, the
    conversation state and the timestamp always, and each of branch, parent
    reference, gate snapshot, pin, look and chain exactly when it is
    non-empty; the rendered fields come in the canonical order, joined by the
    separator, so that a field that is not rendered leaves no separator: for
    a record of the declared domain the segments between the separators are
    exactly the rendered fields. *)
Theorem compact_canonical (now : datetime) (r : Stamp.t) :
  Stamp.compact now r = compact_of omitted now r
  /\ (in_domain r = true ->
      split PIPE (slice_1_neg1 (Stamp.compact now r))
      = List.map (field_text now r)
          (List.filter (fun f => negb (omitted r f)) canonical_order)).
Proof.
  split.
  - unfold Stamp.compact, compact_of. rewrite rendered_parts. reflexivity.
  - intros Hd. unfold Stamp.compact. rewrite <- rendered_parts.
    change (lit "[" ++ join [PIPE] (List.filter Stamp.truthy (Stamp.compact_parts now r))
            ++ lit "]")
      with (91 :: join [PIPE] (List.filter Stamp.truthy (Stamp.compact_parts now r)) ++ [93]).
    rewrite slice_1_neg1_wrap. apply split_join.
    + rewrite rendered_parts. discriminate.
    + apply forallb_filter, compact_parts_lack, Hd.
Qed.

(** The scenario of the design document: depth 5, gate A decided, pin
    "blue verified". *)
Example compact_scenario :
  Stamp.compact clock_1103T2028
    (Stamp.mk [] 5 0 [] 0 (lit "OPEN")
       [Gate.mk (lit "A") (lit "Blue?") G_YES; Gate.mk (lit "B") (lit "JPEG?") G_OPEN]
       (lit "blue verified") [] [] [])
  = lit "[OLO|" ++ [TAG_DEPTH] ++ lit "5/0|" ++ [TAG_STATE] ++ lit "OPEN|"
    ++ [TAG_GATES] ++ lit "A" ++ G_YES ++ lit "B" ++ G_OPEN ++ lit "|"
    ++ [TAG_PIN] ++ lit "blue-verified|" ++ [TAG_TIME] ++ lit "1103T2028]".
Proof. vm_compute. reflexivity. Qed.

(** A tag that [parse_compact] does not know is skipped. *)
Example parse_compact_skips_unknown_tag :
  Stamp.parse_compact
    (lit "[OLO|" ++ [0x1F500] ++ lit "explore|" ++ [TAG_STATE] ++ lit "DONE]")
  = Return (Some (Stamp.set_state (lit "DONE") Stamp.default)).
Proof. vm_compute. reflexivity. Qed.

(** Inside the wrapper a depth that is not a number makes [int] raise. *)
Example parse_compact_raises_on_bad_depth :
  Stamp.parse_compact (lit "[OLO|" ++ [TAG_DEPTH] ++ lit "x/2]") = Raise ValueError.
Proof. vm_compute. reflexivity. Qed.

End StampClaims.

(** ** The gate cycle *)

Section GateCycle.
Import Py.





(** The second gate of the demonstration of stamp.py, clicked: a REVISIT
    gate goes to HALF and is back at HALF four clicks later. *)
Example gate_cycle_from_revisit :
  let B := StampPy.Gate.mk (lit "B") (lit "JPEG as kill mechanism?") StampPy.G_REVISIT in
  StampPy.Gate.state (StampPy.Gate.cycle B) = StampPy.G_HALF
  /\ Nat.iter 5 StampPy.Gate.cycle B = StampPy.Gate.cycle B.
Proof. split; reflexivity. Qed.

End GateCycle.

(** ** The tier engine *)

Section TierFacts.
Import Py Tiers.

Lemma first_unfrozen_Some rts k :
  Project.first_unfrozen rts = Some k ->
  exists t, reverse rts !! k = Some t /\ Tier.frozen t = false.
Proof.
  induction rts as [|t rts IH]; simpl; [discriminate|].
  rewrite reverse_cons. destruct (Tier.frozen t) eqn:Ef.
  - intros H. destruct (IH H) as (t' & Ht' & Hf).
    exists t'. split; [|exact Hf]. apply lookup_app_l_Some, Ht'.
  - intros [= <-]. exists t. split; [|exact Ef].
    rewrite <- length_reverse. apply list_lookup_middle. reflexivity.
Qed.

Lemma first_unfrozen_None rts :
  Project.first_unfrozen rts = None ->
  Forall (fun t => Tier.frozen t = true) rts.
Proof.
  induction rts as [|t rts IH]; simpl; [constructor|].
  destruct (Tier.frozen t) eqn:Ef; [|discriminate].
  intros H. constructor; auto.
Qed.

Lemma first_unfrozen_last ts t :
  Tier.frozen t = false ->
  Project.first_unfrozen (reverse (ts ++ [t])) = Some (length ts).
Proof.
  intros Hf. rewrite reverse_snoc. simpl. rewrite Hf, length_reverse. reflexivity.
Qed.

(** [current_tier] returns a tier that is not frozen, and at most appends a
    tier to the project. *)
Lemma current_tier_spec p :
  exists extra t,
    (Project.current_tier p).1 = Project.set_tiers (Project.tiers p ++ extra) p
    /\ (extra = [] \/ (extra = [Tier.new (Z.of_nat (length (Project.tiers p)))]
                       /\ Forall (fun t => Tier.frozen t = true) (Project.tiers p)))
    /\ (Project.tiers p ++ extra) !! (Project.current_tier p).2 = Some t
    /\ Tier.frozen t = false.
Proof.
  unfold Project.current_tier.
  destruct (Project.first_unfrozen (reverse (Project.tiers p))) as [k|] eqn:E.
  - apply first_unfrozen_Some in E as (t & Ht & Hf).
    rewrite reverse_involutive in Ht.
    exists [], t. rewrite app_nil_r. simpl.
    repeat split; auto. destruct p; reflexivity.
  - apply first_unfrozen_None in E. rewrite Forall_reverse in E.
    exists [Tier.new (Z.of_nat (length (Project.tiers p)))],
           (Tier.new (Z.of_nat (length (Project.tiers p)))).
    simpl. repeat split; auto.
    apply list_lookup_middle. reflexivity.
Qed.

Lemma current_tier_active p ts t :
  Project.tiers p = ts ++ [t] -> Tier.frozen t = false ->
  Project.current_tier p = (p, length ts).
Proof.
  intros Hts Hf. unfold Project.current_tier.
  rewrite Hts, first_unfrozen_last by assumption. reflexivity.
Qed.

Lemma insert_last_snoc {A} `{!Inhabited A} (l : list A) (x : A) (f : A -> A) :
  <[length l := f ((l ++ [x]) !!! length l)]> (l ++ [x]) = l ++ [f x].
Proof.
  rewrite list_lookup_total_middle by reflexivity.
  replace (length l) with (length l + 0)%nat at 1 by lia.
  rewrite insert_app_r. reflexivity.
Qed.

(** The project after a successful [inject], in terms of the tier
    [current_tier] returned. *)
Lemma inject_found now artifact_id p a :
  Project.find_in_bucket p artifact_id = Some a ->
  exists extra auto_art,
    let ts := Project.tiers p ++ extra in
    let k := (Project.current_tier p).2 in
    Project.tiers (Project.current_tier p).1 = ts
    /\ (extra = [] \/ (extra = [Tier.new (Z.of_nat (length (Project.tiers p)))]
                       /\ Forall (fun t => Tier.frozen t = true) (Project.tiers p)))
    /\ (exists t, ts !! k = Some t /\ Tier.frozen t = false)
    /\ Artifact.origin auto_art = TIER_AUTO
    /\ Artifact.source_branch auto_art = None
    /\ Artifact.source_tier auto_art = Tier.level (ts !!! k)
    /\ Project.inject now artifact_id p
       = (Project.mk (Project.id p) (Project.name p) (Project.color p)
            (Project.gates p)
            (<[k := freeze now artifact_id p (ts !!! k)]> ts
             ++ [promoted (length ts) (Tier.level (ts !!! k))])
            (alter (Artifact.set_status (lit "injected")) a (Project.store p)
             ++ [auto_art])
            (Project.artifacts p ++ [length (Project.store p)])
            (Project.bucket p),
          Some (length ts, length (Project.store p))).
Proof.
  intros Hfind.
  set (p1 := Project.set_store
               (alter (Artifact.set_status (lit "injected")) a (Project.store p)) p).
  assert (Hcur1 : Project.current_tier p1
                  = (Project.set_store (Project.store p1) (Project.current_tier p).1,
                     (Project.current_tier p).2)).
  { unfold Project.current_tier, p1. simpl.
    destruct (Project.first_unfrozen (reverse (Project.tiers p))); reflexivity. }
  destruct (current_tier_spec p) as (extra & t & Hp2 & Hextra & Hk & Hf).
  unfold Project.inject. rewrite Hfind. fold p1. rewrite Hcur1, Hp2.
  set (k := (Project.current_tier p).2) in *.
  set (ts := Project.tiers p ++ extra) in *.
  eexists extra, _. cbv zeta.
  split; [reflexivity|]. split; [exact Hextra|]. split; [eauto|].
  cbn [Project.alloc Project._new_tier Project.set_tiers Project.set_store
       Project.set_artifacts Project.tiers Project.store Project.artifacts
       Project.bucket Project.id Project.gates Project.name Project.color p1 fst snd].
  split; [|split; [|split]]; cycle 3.
  - rewrite insert_last_snoc, !length_insert, !length_alter. reflexivity.
  - reflexivity.
  - reflexivity.
  - reflexivity.
Qed.

(** The project after [branch_from_master]. *)
Lemma branch_from_master_spec now name fork_type p :
  exists extra t,
    let ts := Project.tiers p ++ extra in
    let k := (Project.current_tier p).2 in
    let b := (Project.branch_from_master now name fork_type p).2 in
    (extra = [] \/ (extra = [Tier.new (Z.of_nat (length (Project.tiers p)))]
                    /\ Forall (fun t => Tier.frozen t = true) (Project.tiers p)))
    /\ ts !! k = Some t /\ Tier.frozen t = false
    /\ Branch.name b = name /\ Branch.fork_type b = fork_type
    /\ Project.branch_from_master now name fork_type p
       = (Project.mk (Project.id p) (Project.name p) (Project.color p)
            (Project.gates p)
            (<[k := Tier.set_branches (Tier.branches t ++ [b]) t]> ts)
            (Project.store p) (Project.artifacts p) (Project.bucket p),
          b).
Proof.
  destruct (current_tier_spec p) as (extra & t & Hp2 & Hextra & Hk & Hf).
  exists extra, t. cbv zeta.
  split; [exact Hextra|]. split; [exact Hk|]. split; [exact Hf|].
  unfold Project.branch_from_master.
  destruct (Project.current_tier p) as [p2 k] eqn:Ecur.
  simpl in Hp2, Hk. subst p2. simpl.
  rewrite (list_lookup_total_correct _ _ _ Hk).
  repeat split.
Qed.

(** The project after [collect_artifact]. *)
Lemma collect_artifact_spec now branch_id name content p :
  exists extra art,
    (extra = [] \/ (extra = [Tier.new (Z.of_nat (length (Project.tiers p)))]
                    /\ Forall (fun t => Tier.frozen t = true) (Project.tiers p)))
    /\ Artifact.origin art = MANUAL
    /\ Artifact.source_branch art = Some branch_id
    /\ Artifact.name art = name /\ Artifact.content art = content
    /\ Artifact.id art
       = lit "art-" ++ str_of_int (Z.of_nat (length (Project.artifacts p)))
    /\ Project.collect_artifact now branch_id name content p
       = (Project.mk (Project.id p) (Project.name p) (Project.color p)
            (Project.gates p) (Project.tiers p ++ extra)
            (Project.store p ++ [art])
            (Project.artifacts p ++ [length (Project.store p)])
            (Project.bucket p ++ [length (Project.store p)]),
          length (Project.store p)).
Proof.
  destruct (current_tier_spec p) as (extra & t & Hp2 & Hextra & Hk & Hf).
  unfold Project.collect_artifact.
  destruct (Project.current_tier p) as [p2 k] eqn:Ecur.
  simpl in Hp2, Hk. subst p2.
  eexists extra, _.
  split; [exact Hextra|].
  cbn [Project.alloc Project.set_tiers Project.set_store Project.set_artifacts
       Project.set_bucket Project.tiers Project.store Project.artifacts
       Project.bucket Project.id Project.gates Project.name Project.color].
  split; [|split; [|split; [|split; [|split]]]]; cycle 5.
  - reflexivity.
  - reflexivity.
  - reflexivity.
  - reflexivity.
  - reflexivity.
  - reflexivity.
Qed.

Lemma levels_ok_app ts extra :
  levels_ok ts ->
  extra = [] \/ extra = [Tier.new (Z.of_nat (length ts))] ->
  levels_ok (ts ++ extra).
Proof.
  intros Hts [-> | ->]; [rewrite app_nil_r; exact Hts|].
  intros i t Hi. apply lookup_snoc_Some in Hi as [[_ Hi] | [-> <-]]; auto.
Qed.

Lemma levels_ok_insert ts k t t' :
  levels_ok ts -> ts !! k = Some t -> Tier.level t' = Tier.level t ->
  levels_ok (<[k := t']> ts).
Proof.
  intros Hts Hk Hl i x Hi.
  apply list_lookup_insert_Some in Hi as [(-> & <- & _) | (_ & Hi)]; auto.
  rewrite Hl. auto.
Qed.

Lemma levels_ok_snoc ts t :
  levels_ok ts -> Tier.level t = Z.of_nat (length ts) -> levels_ok (ts ++ [t]).
Proof.
  intros Hts Ht i x Hi.
  apply lookup_snoc_Some in Hi as [[_ Hi] | [-> <-]]; auto.
Qed.

(** With an active tier, [current_tier] appends nothing. *)
Lemma active_extra ts' t (extra : list Tier.t) :
  Tier.frozen t = false ->
  extra = [] \/ (extra = [Tier.new (Z.of_nat (length (ts' ++ [t])))]
                 /\ Forall (fun t => Tier.frozen t = true) (ts' ++ [t])) ->
  extra = [].
Proof.
  intros Hf [-> | [_ Hall]]; [reflexivity|].
  apply Forall_app in Hall as [_ Hall].
  inversion Hall; subst. congruence.
Qed.

Lemma insert_snoc {A} (l : list A) (x y : A) :
  <[length l := y]> (l ++ [x]) = l ++ [y].
Proof.
  replace (length l) with (length l + 0)%nat by lia.
  rewrite insert_app_r. reflexivity.
Qed.

(** *** Frozen tiers are not touched *)

Lemma frozen_lookup_insert (ts : list Tier.t) k x i t t' :
  ts !! k = Some t' -> Tier.frozen t' = false ->
  ts !! i = Some t -> Tier.frozen t = true ->
  <[k := x]> ts !! i = Some t.
Proof.
  intros Hk Hf Hi Hfi. rewrite list_lookup_insert_ne; [exact Hi|].
  intros ->. congruence.
Qed.

(** One call leaves every frozen tier as it is, at its index. *)
Lemma exec_keeps_frozen o p i t :
  Project.tiers p !! i = Some t -> Tier.frozen t = true ->
  Project.tiers (Project.exec o p) !! i = Some t.
Proof.
  intros Hi Hf. destruct o as [now name f | now b n c | now aid | ]; simpl.
  - destruct (branch_from_master_spec now name f p)
      as (extra & t' & _ & Hk & Hf' & _ & _ & ->). simpl.
    eapply frozen_lookup_insert; eauto using lookup_app_l_Some.
  - destruct (collect_artifact_spec now b n c p)
      as (extra & art & _ & _ & _ & _ & _ & _ & ->). simpl.
    apply lookup_app_l_Some, Hi.
  - destruct (Project.find_in_bucket p aid) as [a|] eqn:Hfind.
    + destruct (inject_found now aid p a Hfind)
        as (extra & auto & _ & _ & (t' & Hk & Hf') & _ & _ & _ & ->). simpl.
      apply lookup_app_l_Some.
      eapply frozen_lookup_insert; eauto using lookup_app_l_Some.
    + unfold Project.inject. rewrite Hfind. exact Hi.
  - destruct (current_tier_spec p) as (extra & t' & -> & _). simpl.
    apply lookup_app_l_Some, Hi.
Qed.

Lemma run_keeps_frozen ops p i t :
  Project.tiers p !! i = Some t -> Tier.frozen t = true ->
  Project.tiers (Project.run ops p) !! i = Some t.
Proof.
  revert p. induction ops as [|o ops IH]; intros p Hi Hf; [exact Hi|].
  simpl. apply IH; [|exact Hf]. apply exec_keeps_frozen; assumption.
Qed.

(** The tier [inject] freezes is the one [current_tier] returns: it is not
    frozen before the call. *)
Lemma inject_target_unfrozen now artifact_id p a t :
  Project.find_in_bucket p artifact_id = Some a ->
  Project.tiers p !! (Project.current_tier p).2 = Some t ->
  Tier.frozen t = false
  /\ Project.tiers (Project.inject now artifact_id p).1 !! (Project.current_tier p).2
     = Some (freeze now artifact_id p t).
Proof.
  intros Hfind Ht.
  destruct (inject_found now artifact_id p a Hfind)
    as (extra & auto & _ & _ & (t' & Hk & Hf') & _ & _ & _ & ->).
  assert (Hk' : (Project.tiers p ++ extra) !! (Project.current_tier p).2 = Some t)
    by apply lookup_app_l_Some, Ht.
  assert (t' = t) by congruence. subst t'.
  split; [exact Hf'|]. simpl.
  rewrite (list_lookup_total_correct _ _ _ Hk').
  apply lookup_app_l_Some, list_lookup_insert_eq.
  eapply lookup_lt_Some, Hk'.
Qed.

(** *** The operations on a project with an active last tier *)

Lemma inject_active now artifact_id p a ts' t0 :
  Project.tiers p = ts' ++ [t0] -> Tier.frozen t0 = false ->
  Project.find_in_bucket p artifact_id = Some a ->
  exists auto_art,
    Artifact.origin auto_art = TIER_AUTO
    /\ Artifact.source_branch auto_art = None
    /\ Artifact.source_tier auto_art = Tier.level t0
    /\ Project.inject now artifact_id p
       = (Project.mk (Project.id p) (Project.name p) (Project.color p)
            (Project.gates p)
            (ts' ++ [freeze now artifact_id p t0;
                     promoted (S (length ts')) (Tier.level t0)])
            (alter (Artifact.set_status (lit "injected")) a (Project.store p)
             ++ [auto_art])
            (Project.artifacts p ++ [length (Project.store p)])
            (Project.bucket p),
          Some (S (length ts'), length (Project.store p))).
Proof.
  intros Hts Hf Hfind.
  destruct (inject_found now artifact_id p a Hfind)
    as (extra & auto & _ & Hextra & _ & Ho & Hb & Hst & Heq).
  cbv zeta in Hst, Heq.
  rewrite (current_tier_active p ts' t0 Hts Hf) in Hst, Heq.
  rewrite Hts in Hextra, Hst, Heq.
  apply active_extra in Hextra; [|exact Hf]. subst extra.
  rewrite app_nil_r in Hst, Heq. cbn [snd] in Hst, Heq.
  rewrite list_lookup_total_middle in Hst, Heq by reflexivity.
  rewrite insert_snoc, length_app, <- app_assoc in Heq. simpl in Heq.
  replace (length ts' + 1)%nat with (S (length ts')) in Heq by lia.
  exists auto. auto.
Qed.

Lemma branch_from_master_active now name fork_type p ts' t0 :
  Project.tiers p = ts' ++ [t0] -> Tier.frozen t0 = false ->
  exists b,
    Project.branch_from_master now name fork_type p
    = (Project.mk (Project.id p) (Project.name p) (Project.color p)
         (Project.gates p)
         (ts' ++ [Tier.set_branches (Tier.branches t0 ++ [b]) t0])
         (Project.store p) (Project.artifacts p) (Project.bucket p),
       b).
Proof.
  intros Hts Hf.
  destruct (branch_from_master_spec now name fork_type p)
    as (extra & t & Hextra & Hk & _ & _ & _ & Heq).
  cbv zeta in Hk, Heq.
  rewrite (current_tier_active p ts' t0 Hts Hf) in Hk, Heq.
  rewrite Hts in Hextra, Hk, Heq.
  apply active_extra in Hextra; [|exact Hf]. subst extra.
  rewrite app_nil_r in Hk, Heq. cbn [snd] in Hk, Heq.
  rewrite list_lookup_middle in Hk by reflexivity. injection Hk as <-.
  rewrite insert_snoc in Heq. eauto.
Qed.

Lemma collect_artifact_active now branch_id name content p ts' t0 :
  Project.tiers p = ts' ++ [t0] -> Tier.frozen t0 = false ->
  exists art,
    Artifact.origin art = MANUAL
    /\ Artifact.source_branch art = Some branch_id
    /\ Project.collect_artifact now branch_id name content p
       = (Project.mk (Project.id p) (Project.name p) (Project.color p)
            (Project.gates p) (Project.tiers p)
            (Project.store p ++ [art])
            (Project.artifacts p ++ [length (Project.store p)])
            (Project.bucket p ++ [length (Project.store p)]),
          length (Project.store p)).
Proof.
  intros Hts Hf.
  destruct (collect_artifact_spec now branch_id name content p)
    as (extra & art & Hextra & Ho & Hb & _ & _ & _ & Heq).
  rewrite Hts in Hextra. apply active_extra in Hextra; [|exact Hf]. subst extra.
  rewrite app_nil_r in Heq. eauto.
Qed.

(** *** The invariant of the engine *)

Lemma levels_ok_snoc_inv ts t :
  levels_ok (ts ++ [t]) -> levels_ok ts /\ Tier.level t = Z.of_nat (length ts).
Proof.
  intros H. split.
  - intros i x Hi. apply H, lookup_app_l_Some, Hi.
  - apply H, list_lookup_middle. reflexivity.
Qed.

Lemma closed_grow (l : list nat) n :
  Forall (fun a => (a < n)%nat) l -> Forall (fun a => (a < S n)%nat) l.
Proof.
  intros H. eapply Forall_impl; [exact H|]. intros a Ha. simpl in Ha. lia.
Qed.

Lemma closed_snoc (l : list nat) n :
  Forall (fun a => (a < n)%nat) l -> Forall (fun a => (a < S n)%nat) (l ++ [n]).
Proof.
  intros H. apply Forall_app. split; [apply closed_grow, H|].
  apply Forall_singleton. lia.
Qed.

Lemma init_invariant id name color gates :
  invariant (Project.init_project (Project.new id name color gates)).
Proof.
  split; [|split].
  - intros [|i] t; simpl; [|discriminate]. intros [= <-]. reflexivity.
  - exists [], (Tier.new 0). repeat split. constructor.
  - split; constructor.
Qed.

(** Every call keeps the invariant. *)
Lemma exec_invariant o p : invariant p -> invariant (Project.exec o p).
Proof.
  intros (Hlev & (ts' & t0 & Hts & Hf & Hall) & Hart & Hbuck).
  pose proof Hlev as Hlev'. rewrite Hts in Hlev'.
  apply levels_ok_snoc_inv in Hlev' as [Hlev' Hl0].
  destruct o as [now name f | now b n c | now aid | ]; simpl.
  - destruct (branch_from_master_active now name f p ts' t0 Hts Hf) as (br & ->).
    split; [|split]; simpl.
    + apply levels_ok_snoc; assumption.
    + exists ts', (Tier.set_branches (Tier.branches t0 ++ [br]) t0). auto.
    + split; assumption.
  - destruct (collect_artifact_active now b n c p ts' t0 Hts Hf) as (art & _ & _ & ->).
    split; [|split]; simpl.
    + assumption.
    + exists ts', t0. auto.
    + split; simpl; rewrite length_app, Nat.add_1_r; apply closed_snoc; assumption.
  - destruct (Project.find_in_bucket p aid) as [a|] eqn:Hfind.
    + destruct (inject_active now aid p a ts' t0 Hts Hf Hfind) as (auto & _ & _ & _ & ->).
      split; [|split]; simpl.
      * change (ts' ++ [freeze now aid p t0; promoted (S (length ts')) (Tier.level t0)])
          with (ts' ++ [freeze now aid p t0] ++ [promoted (S (length ts')) (Tier.level t0)]).
        rewrite app_assoc. apply levels_ok_snoc.
        -- apply levels_ok_snoc; assumption.
        -- rewrite length_app, Nat.add_1_r. reflexivity.
      * exists (ts' ++ [freeze now aid p t0]), (promoted (S (length ts')) (Tier.level t0)).
        rewrite <- app_assoc. repeat split.
        apply Forall_app. split; [assumption|]. apply Forall_singleton. reflexivity.
      * split; simpl; rewrite length_app, length_alter, Nat.add_1_r.
        -- apply closed_snoc; assumption.
        -- apply closed_grow; assumption.
    + unfold Project.inject. rewrite Hfind. simpl.
      split; [|split]; [assumption | exists ts', t0; auto | split; assumption].
  - rewrite (current_tier_active p ts' t0 Hts Hf). simpl.
    split; [|split]; [assumption | exists ts', t0; auto | split; assumption].
Qed.

Lemma run_invariant ops p : invariant p -> invariant (Project.run ops p).
Proof.
  revert p. induction ops as [|o ops IH]; intros p Hp; [exact Hp|].
  simpl. apply IH, exec_invariant, Hp.
Qed.

(** Every reachable state satisfies the invariant. *)
Lemma reachable_invariant p : Project.reachable p -> invariant p.
Proof.
  intros (id & name & color & gates & ops & ->).
  apply run_invariant, init_invariant.
Qed.

End TierFacts.

(** ** Claims about the tier engine *)

Section TierClaims.
Import Py Tiers.

Lemma olo_collected_reachable : Project.reachable olo_collected.
Proof.
  exists (lit "olo"), (lit "OLO Guard"), (lit "#00e5a0"), olo_gates, olo_collect_ops.
  vm_compute. reflexivity.
Qed.

Lemma olo_promoted_reachable : Project.reachable olo_promoted.
Proof.
  exists (lit "olo"), (lit "OLO Guard"), (lit "#00e5a0"), olo_gates,
    (olo_collect_ops ++ [Project.Inject olo_clock (lit "art-0")]).
  vm_compute. reflexivity.
Qed.

Lemma find_in_bucket_Some p artifact_id a :
  Project.find_in_bucket p artifact_id = Some a ->
  In a (Project.bucket p)
  /\ exists art, Project.store p !! a = Some art /\ Artifact.id art = artifact_id.
Proof.
  intros H. apply find_some in H as [Hin Hid]. split; [exact Hin|].
  unfold Project.has_id in Hid. destruct (Project.store p !! a) as [art|]; [|discriminate].
  exists art. split; [reflexivity|]. apply str_eqb_eq, Hid.
Qed.

Lemma find_all_false {A} (f : A -> bool) l :
  (forall x, In x l -> f x = false) -> find f l = None.
Proof.
  induction l as [|x l IH]; intros H; [reflexivity|]. simpl.
  rewrite (H x) by (left; reflexivity). apply IH. intros y Hy. apply H. right. exact Hy.
Qed.

(** C2: in a project that satisfies the invariant of the engine (as every
    reachable project does), [inject] of the id of an artifact of the bucket
    freezes the active tier, the highest-index and only unfrozen one, storing
    its stamp and the artifact id in it; creates exactly one tier, one level
    above, which is the new current tier; appends exactly one new artifact,
    of origin TIER_AUTO and without source branch, to the artifact list and
    not to the bucket; and sets the status of the injected artifact to
    injected. *)
Theorem inject_promotes now artifact_id p a :
  invariant p ->
  Project.find_in_bucket p artifact_id = Some a ->
  promotion_post now artifact_id p a (Project.inject now artifact_id p).
Proof.
  intros (Hlev & (ts' & t0 & Hts & Hf & Hall) & Hart & Hbuck) Hfind.
  destruct (inject_active now artifact_id p a ts' t0 Hts Hf Hfind)
    as (auto & Ho & Hb & _ & Heq).
  destruct (find_in_bucket_Some p artifact_id a Hfind) as (Hin & art & Hart0 & Hid).
  rewrite Heq.
  exists ts', t0, (freeze now artifact_id p t0),
    (promoted (S (length ts')) (Tier.level t0)), art,
    (Artifact.mk (Artifact.id art) (Artifact.name art) (Artifact.content art)
       (Artifact.origin art) (Artifact.source_tier art) (Artifact.source_branch art)
       (Artifact.gate_snapshot art) (Artifact.stamp_at_creation art) (lit "injected")),
    auto.
  cbn [fst snd Project.tiers Project.store Project.artifacts Project.bucket].
  pose proof Hlev as Hlev'. rewrite Hts in Hlev'.
  apply levels_ok_snoc_inv in Hlev' as [_ Hl0].
  assert (Hlook : (alter (Artifact.set_status (lit "injected")) a (Project.store p)
                   ++ [auto]) !! a
                  = Some (Artifact.set_status (lit "injected") art)).
  { rewrite lookup_app_l by (rewrite length_alter; eapply lookup_lt_Some, Hart0).
    rewrite list_lookup_alter_eq, Hart0. reflexivity. }
  unfold same_but_status.
  cbn [Artifact.id Artifact.name Artifact.content Artifact.origin Artifact.source_tier
       Artifact.source_branch Artifact.gate_snapshot Artifact.stamp_at_creation
       Artifact.status].
  repeat split; auto.
  - apply Forall_forall. intros t Ht. apply list_elem_of_lookup in Ht as [i Hi].
    rewrite (Hlev i t Hi), Hl0.
    apply lookup_lt_Some in Hi. rewrite Hts, length_app in Hi. simpl in Hi. lia.
  - simpl. lia.
  - rewrite (current_tier_active _ (ts' ++ [freeze now artifact_id p t0])
               (promoted (S (length ts')) (Tier.level t0))).
    + rewrite length_app, Nat.add_1_r. reflexivity.
    + simpl. rewrite <- app_assoc. reflexivity.
    + reflexivity.
  - intros a' Hne Ha'. rewrite lookup_app_l by (rewrite length_alter; exact Ha').
    apply list_lookup_alter_ne. congruence.
  - rewrite <- (length_alter (Artifact.set_status (lit "injected")) (Project.store p) a).
    apply list_lookup_middle. reflexivity.
  - rewrite length_app, length_alter. simpl. lia.
  - intros Hnew. rewrite Forall_forall in Hbuck.
    apply list_elem_of_In, Hbuck in Hnew. lia.
Qed.

Lemma inject_promotes_witness :
  invariant olo_collected
  /\ Project.find_in_bucket olo_collected (lit "art-0") = Some 0%nat
  /\ promotion_post olo_clock (lit "art-0") olo_collected 0
       (Project.inject olo_clock (lit "art-0") olo_collected).
Proof.
  assert (Hinv : invariant olo_collected)
    by apply reachable_invariant, olo_collected_reachable.
  assert (Hfind : Project.find_in_bucket olo_collected (lit "art-0") = Some 0%nat)
    by (vm_compute; reflexivity).
  split; [exact Hinv|]. split; [exact Hfind|].
  exact (inject_promotes olo_clock (lit "art-0") olo_collected 0%nat Hinv Hfind).
Defined.

(** One call never shortens the list of tiers. *)
Lemma exec_tiers_length o p :
  (length (Project.tiers p) <= length (Project.tiers (Project.exec o p)))%nat.
Proof.
  destruct o as [now name f | now b n c | now aid | ]; simpl.
  - destruct (branch_from_master_spec now name f p)
      as (extra & t' & _ & _ & _ & _ & _ & ->). simpl.
    rewrite length_insert, length_app. lia.
  - destruct (collect_artifact_spec now b n c p)
      as (extra & art & _ & _ & _ & _ & _ & _ & ->). simpl.
    rewrite length_app. lia.
  - destruct (Project.find_in_bucket p aid) as [a|] eqn:Hfind.
    + destruct (inject_found now aid p a Hfind)
        as (extra & auto & _ & _ & _ & _ & _ & _ & ->). simpl.
      rewrite length_app, length_insert, length_app. lia.
    + unfold Project.inject. rewrite Hfind. simpl. lia.
  - destruct (current_tier_spec p) as (extra & t' & -> & _). simpl.
    rewrite length_app. lia.
Qed.

Lemma lookup_insert_same_level (ts : list Tier.t) k x t1 i t :
  ts !! k = Some t1 -> Tier.level x = Tier.level t1 ->
  ts !! i = Some t ->
  exists t', <[k := x]> ts !! i = Some t' /\ Tier.level t' = Tier.level t.
Proof.
  intros Hk Hx Hi. destruct (decide (k = i)) as [-> | Hne].
  - exists x. split; [|congruence].
    apply list_lookup_insert_eq. eapply lookup_lt_Some, Hi.
  - exists t. split; [|reflexivity]. rewrite list_lookup_insert_ne; assumption.
Qed.

(** One call keeps every tier at its index, with its level. *)
Lemma exec_keeps_levels o p i t :
  Project.tiers p !! i = Some t ->
  exists t', Project.tiers (Project.exec o p) !! i = Some t'
             /\ Tier.level t' = Tier.level t.
Proof.
  intros Hi. destruct o as [now name f | now b n c | now aid | ]; simpl.
  - destruct (branch_from_master_spec now name f p)
      as (extra & t1 & _ & Hk & _ & _ & _ & ->). simpl.
    eapply lookup_insert_same_level; eauto using lookup_app_l_Some.
  - destruct (collect_artifact_spec now b n c p)
      as (extra & art & _ & _ & _ & _ & _ & _ & ->). simpl.
    eauto using lookup_app_l_Some.
  - destruct (Project.find_in_bucket p aid) as [a|] eqn:Hfind.
    + destruct (inject_found now aid p a Hfind)
        as (extra & auto & _ & _ & (t1 & Hk & _) & _ & _ & _ & ->). simpl.
      rewrite (list_lookup_total_correct _ _ _ Hk).
      destruct (lookup_insert_same_level (Project.tiers p ++ extra)
                  (Project.current_tier p).2 (freeze now aid p t1) t1 i t)
        as (t' & Ht' & Hl); eauto using lookup_app_l_Some.
    + unfold Project.inject. rewrite Hfind. simpl. eauto.
  - destruct (current_tier_spec p) as (extra & t' & -> & _). simpl.
    eauto using lookup_app_l_Some.
Qed.

Lemma one_active_unique ts i j ti tj :
  one_active ts ->
  ts !! i = Some ti -> ts !! j = Some tj ->
  Tier.frozen ti = false -> Tier.frozen tj = false -> i = j.
Proof.
  intros (ts' & t0 & -> & _ & Hall) Hi Hj Hfi Hfj.
  rewrite Forall_lookup in Hall.
  apply lookup_snoc_Some in Hi as [[_ Hi] | [-> _]];
    [apply Hall in Hi; congruence|].
  apply lookup_snoc_Some in Hj as [[_ Hj] | [-> _]];
    [apply Hall in Hj; congruence|].
  reflexivity.
Qed.

(** C3: in every state reachable from [init_project] by calls of
    [branch_from_master], [collect_artifact], [inject] (and [current_tier]),
    at most one tier is not frozen (the last one is, and is the only one);
    every tier has its index as level, so that levels go up by one from a
    tier to the next; and a further call only appends to the list of tiers:
    the list does not get shorter and every tier stays at its index. *)
Theorem tier_invariants p :
  Project.reachable p ->
  (forall i j ti tj,
      Project.tiers p !! i = Some ti -> Project.tiers p !! j = Some tj ->
      Tier.frozen ti = false -> Tier.frozen tj = false -> i = j)
  /\ (exists t, last (Project.tiers p) = Some t /\ Tier.frozen t = false)
  /\ (forall i t, Project.tiers p !! i = Some t -> Tier.level t = Z.of_nat i)
  /\ (forall i t t',
        Project.tiers p !! i = Some t -> Project.tiers p !! S i = Some t' ->
        Tier.level t' = (Tier.level t + 1)%Z)
  /\ (forall o,
        (length (Project.tiers p) <= length (Project.tiers (Project.exec o p)))%nat
        /\ forall i t, Project.tiers p !! i = Some t ->
             exists t', Project.tiers (Project.exec o p) !! i = Some t'
                        /\ Tier.level t' = Tier.level t).
Proof.
  intros Hreach. destruct (reachable_invariant p Hreach) as (Hlev & Hact & _).
  split; [intros; eapply one_active_unique; eauto|].
  split.
  { destruct Hact as (ts' & t0 & -> & Hf & _). exists t0.
    rewrite last_snoc. auto. }
  split; [exact Hlev|].
  split.
  { intros i t t' Hi HSi. rewrite (Hlev _ _ Hi), (Hlev _ _ HSi). lia. }
  intros o. split; [apply exec_tiers_length|].
  intros i t Hi. apply exec_keeps_levels, Hi.
Qed.

Lemma tier_invariants_witness :
  Project.reachable olo_promoted
  /\ List.map Tier.frozen (Project.tiers olo_promoted) = [true; false]
  /\ (forall i t, Project.tiers olo_promoted !! i = Some t -> Tier.level t = Z.of_nat i).
Proof.
  split; [exact olo_promoted_reachable|].
  split; [vm_compute; reflexivity|].
  exact (proj1 (proj2 (proj2 (tier_invariants olo_promoted olo_promoted_reachable)))).
Defined.

Lemma model_find_branch_None bs branch_id :
  Forall (fun b => Model.Branch.id b <> branch_id) bs ->
  Model.Project.find_branch bs branch_id = None.
Proof.
  induction 1 as [|b bs Hb _ IH]; [reflexivity|]. simpl.
  destruct (str_eqb (Model.Branch.id b) branch_id) eqn:E.
  - apply str_eqb_eq in E. contradiction.
  - rewrite IH. reflexivity.
Qed.

(** C6: when no artifact of the bucket has the id, [inject] returns no
    result and leaves the project as it is: tiers and their frozen flags,
    branches, artifacts, bucket and gates; the same holds of
    [inject_to_master] of gently_model.py. *)
Theorem inject_unknown_id_noop now artifact_id (p : Project.t) (m : Model.Project.t) :
  (forall a art, In a (Project.bucket p) -> Project.store p !! a = Some art ->
                 Artifact.id art <> artifact_id) ->
  (forall a art, In a (Model.Project.bucket m) -> Model.Project.store m !! a = Some art ->
                 Model.Artifact.id art <> artifact_id) ->
  Project.inject now artifact_id p = (p, None)
  /\ Model.Project.inject_to_master artifact_id m = (m, None).
Proof.
  intros Hp Hm. split.
  - unfold Project.inject, Project.find_in_bucket.
    rewrite find_all_false; [reflexivity|].
    intros a Ha. unfold Project.has_id.
    destruct (Project.store p !! a) as [art|] eqn:E; [|reflexivity].
    destruct (str_eqb (Artifact.id art) artifact_id) eqn:Eid; [|reflexivity].
    apply str_eqb_eq in Eid. exfalso. exact (Hp a art Ha E Eid).
  - unfold Model.Project.inject_to_master, Model.Project.find_in_bucket.
    rewrite find_all_false; [reflexivity|].
    intros a Ha. unfold Model.Project.has_id.
    destruct (Model.Project.store m !! a) as [art|] eqn:E; [|reflexivity].
    destruct (str_eqb (Model.Artifact.id art) artifact_id) eqn:Eid; [|reflexivity].
    apply str_eqb_eq in Eid. exfalso. exact (Hm a art Ha E Eid).
Qed.

Lemma inject_unknown_id_noop_witness :
  Project.inject olo_clock (lit "art-7") olo_collected = (olo_collected, None)
  /\ Model.Project.inject_to_master (lit "art-7") model_collected = (model_collected, None).
Proof.
  apply (inject_unknown_id_noop olo_clock (lit "art-7") olo_collected model_collected).
  - intros a art [<- | []] Hart. vm_compute in Hart. injection Hart as <-.
    vm_compute. discriminate.
  - intros a art [<- | []] Hart. vm_compute in Hart. injection Hart as <-.
    vm_compute. discriminate.
Defined.

(** C7, as stated, fails for gently_tiers.py: the project just initialised
    has no branch at all, and [collect_artifact] with a branch id still
    returns an artifact and appends it to the artifact list and the
    bucket. *)
Lemma collect_artifact_accepts_unknown_branch :
  concat (List.map Tier.branches (Project.tiers olo_project)) = []
  /\ (Project.collect_artifact olo_clock (lit "ghost") (lit "n") (lit "c") olo_project).2
     = 0%nat
  /\ Project.artifacts
       (Project.collect_artifact olo_clock (lit "ghost") (lit "n") (lit "c") olo_project).1
     = [0%nat]
  /\ Project.bucket
       (Project.collect_artifact olo_clock (lit "ghost") (lit "n") (lit "c") olo_project).1
     = [0%nat]
  /\ Artifact.source_branch <$>
       Project.store
         (Project.collect_artifact olo_clock (lit "ghost") (lit "n") (lit "c") olo_project).1
       !! 0%nat
     = Some (Some (lit "ghost")).
Proof. repeat split; vm_compute; reflexivity. Qed.

(** C7 (amended): [collect_from_branch] of gently_model.py, given a branch
    id that no branch of the project has, returns no result and leaves the
    project as it is; [collect_artifact] of gently_tiers.py does not look
    the branch id up: for every branch id it creates a MANUAL artifact that
    records the id as its source branch, appends it to the artifact list
    and to the bucket, and returns it. *)
Theorem collect_unknown_branch now branch_id name content
    (m : Model.Project.t) (p : Project.t) :
  Forall (fun b => Model.Branch.id b <> branch_id) (Model.Project.branches m) ->
  Model.Project.collect_from_branch now branch_id name content m = (m, None)
  /\ exists p' art,
       Project.collect_artifact now branch_id name content p = (p', length (Project.store p))
       /\ Project.store p' = Project.store p ++ [art]
       /\ Project.artifacts p' = Project.artifacts p ++ [length (Project.store p)]
       /\ Project.bucket p' = Project.bucket p ++ [length (Project.store p)]
       /\ Artifact.origin art = MANUAL
       /\ Artifact.source_branch art = Some branch_id.
Proof.
  intros Hm. split.
  - unfold Model.Project.collect_from_branch.
    rewrite model_find_branch_None by assumption. reflexivity.
  - destruct (collect_artifact_spec now branch_id name content p)
      as (extra & art & _ & Ho & Hb & _ & _ & _ & ->).
    eexists _, art. split; [reflexivity|]. simpl. auto.
Qed.

Lemma collect_unknown_branch_witness :
  Forall (fun b => Model.Branch.id b <> lit "ghost") (Model.Project.branches model_collected)
  /\ Model.Project.collect_from_branch olo_clock (lit "ghost") (lit "n") (lit "c")
       model_collected
     = (model_collected, None)
  /\ exists p' art,
       Project.collect_artifact olo_clock (lit "ghost") (lit "n") (lit "c") olo_collected
       = (p', length (Project.store olo_collected))
       /\ Project.store p' = Project.store olo_collected ++ [art]
       /\ Project.artifacts p'
          = Project.artifacts olo_collected ++ [length (Project.store olo_collected)]
       /\ Project.bucket p'
          = Project.bucket olo_collected ++ [length (Project.store olo_collected)]
       /\ Artifact.origin art = MANUAL
       /\ Artifact.source_branch art = Some (lit "ghost").
Proof.
  assert (H : Forall (fun b => Model.Branch.id b <> lit "ghost")
                (Model.Project.branches model_collected)).
  { vm_compute. repeat constructor. discriminate. }
  split; [exact H|].
  exact (collect_unknown_branch olo_clock (lit "ghost") (lit "n") (lit "c")
           model_collected olo_collected H).
Defined.

(** C8: once a tier is frozen, no sequence of calls of the engine changes
    it: after the calls the same tier, with the same fields and the same
    branches, frozen, is at the same index; and the tier a later [inject]
    freezes (the one [current_tier] returns, which [inject] replaces by its
    frozen form) is another one, which was not frozen before. *)
Theorem frozen_is_permanent ops p i t :
  Project.tiers p !! i = Some t ->
  Tier.frozen t = true ->
  let q := Project.run ops p in
  Project.tiers q !! i = Some t
  /\ (Project.current_tier q).2 <> i
  /\ forall now artifact_id a,
       Project.find_in_bucket q artifact_id = Some a ->
       Project.tiers (Project.inject now artifact_id q).1 !! i = Some t
       /\ exists t',
            (Project.tiers (Project.current_tier q).1) !! (Project.current_tier q).2
            = Some t'
            /\ Tier.frozen t' = false
            /\ Project.tiers (Project.inject now artifact_id q).1
                 !! (Project.current_tier q).2
               = Some (freeze now artifact_id q t').
Proof.
  intros Hi Hf q.
  assert (Hq : Project.tiers q !! i = Some t) by (apply run_keeps_frozen; assumption).
  split; [exact Hq|].
  destruct (current_tier_spec q) as (extra & t' & Hp2 & _ & Hk & Hf').
  split.
  { intros Heq. rewrite Heq in Hk.
    rewrite (lookup_app_l_Some _ _ _ _ Hq) in Hk. congruence. }
  intros now aid a Hfind. split.
  { apply (exec_keeps_frozen (Project.Inject now aid) q i t Hq Hf). }
  exists t'. rewrite Hp2. simpl. split; [exact Hk|]. split; [exact Hf'|].
  destruct (inject_found now aid q a Hfind)
    as (extra' & auto & Hts & _ & _ & _ & _ & _ & ->). simpl.
  rewrite Hp2 in Hts. simpl in Hts. rewrite <- Hts.
  rewrite (list_lookup_total_correct _ _ _ Hk).
  apply lookup_app_l_Some, list_lookup_insert_eq. eapply lookup_lt_Some, Hk.
Qed.

Lemma frozen_is_permanent_witness :
  Project.tiers olo_promoted !! 0%nat
  = Some (freeze olo_clock (lit "art-0") olo_collected
            (Tier.mk 0 0 OPEN [] (Tier.branches (Project.tiers olo_collected !!! 0%nat))
               false [] []))
  /\ Project.tiers
       (Project.run
          [Project.BranchFromMaster olo_clock (lit "encode-params") REFINE;
           Project.Inject olo_clock (lit "art-0")]
          olo_promoted) !! 0%nat
     = Project.tiers olo_promoted !! 0%nat.
Proof.
  assert (H0 : Project.tiers olo_promoted !! 0%nat
               = Some (freeze olo_clock (lit "art-0") olo_collected
                         (Tier.mk 0 0 OPEN []
                            (Tier.branches (Project.tiers olo_collected !!! 0%nat))
                            false [] [])))
    by (vm_compute; reflexivity).
  split; [exact H0|]. rewrite H0.
  exact (proj1 (frozen_is_permanent
                  [Project.BranchFromMaster olo_clock (lit "encode-params") REFINE;
                   Project.Inject olo_clock (lit "art-0")]
                  olo_promoted 0%nat _ H0 eq_refl)).
Defined.

Lemma exec_bucket o p :
  Project.bucket (Project.exec o p) = Project.bucket p ++ bucket_added o p.
Proof.
  destruct o as [now name f | now b n c | now aid | ]; simpl.
  - destruct (branch_from_master_spec now name f p)
      as (extra & t' & _ & _ & _ & _ & _ & ->). simpl.
    rewrite app_nil_r. reflexivity.
  - destruct (collect_artifact_spec now b n c p)
      as (extra & art & _ & _ & _ & _ & _ & _ & ->). reflexivity.
  - rewrite app_nil_r.
    destruct (Project.find_in_bucket p aid) as [a|] eqn:Hfind.
    + destruct (inject_found now aid p a Hfind)
        as (extra & auto & _ & _ & _ & _ & _ & _ & ->). reflexivity.
    + unfold Project.inject. rewrite Hfind. reflexivity.
  - rewrite app_nil_r.
    destruct (current_tier_spec p) as (extra & t' & -> & _). reflexivity.
Qed.

Lemma run_bucket_prefix ops p :
  Project.bucket p `prefix_of` Project.bucket (Project.run ops p).
Proof.
  revert p. induction ops as [|o ops IH]; intros p; [reflexivity|].
  simpl. etransitivity; [|apply IH].
  rewrite exec_bucket. apply prefix_app_r. reflexivity.
Qed.

Lemma find_ext_in {A} (f g : A -> bool) l :
  (forall x, In x l -> f x = g x) -> find f l = find g l.
Proof.
  induction l as [|x l IH]; intros H; [reflexivity|]. simpl.
  rewrite (H x) by (left; reflexivity).
  rewrite IH; [reflexivity|]. intros y Hy. apply H. right. exact Hy.
Qed.

(** C10: no call removes an element of the bucket: the bucket before a
    sequence of calls is a prefix of the bucket after it; only
    [collect_artifact] adds to it, every other call leaves it as it is; and
    [inject] changes only the status of the injected artifact, which stays
    in the bucket, so that a later [inject] with the same id finds the same
    artifact. *)
Theorem bucket_append_only :
  (forall ops p, Project.bucket p `prefix_of` Project.bucket (Project.run ops p))
  /\ (forall o p,
        (forall now b n c, o <> Project.CollectArtifact now b n c) ->
        Project.bucket (Project.exec o p) = Project.bucket p)
  /\ (forall now b n c p,
        Project.bucket (Project.exec (Project.CollectArtifact now b n c) p)
        = Project.bucket p ++ [length (Project.store p)])
  /\ (forall now artifact_id p a,
        closed p ->
        Project.find_in_bucket p artifact_id = Some a ->
        let p' := (Project.inject now artifact_id p).1 in
        Project.bucket p' = Project.bucket p
        /\ In a (Project.bucket p')
        /\ (exists art,
              Project.store p !! a = Some art
              /\ Project.store p' !! a = Some (Artifact.set_status (lit "injected") art))
        /\ (forall a', a' <> a -> (a' < length (Project.store p))%nat ->
                       Project.store p' !! a' = Project.store p !! a')
        /\ Project.find_in_bucket p' artifact_id = Some a).
Proof.
  split; [exact run_bucket_prefix|].
  split.
  { intros o p Ho. rewrite exec_bucket.
    destruct o; simpl; rewrite ?app_nil_r; try reflexivity.
    exfalso. eapply Ho. reflexivity. }
  split; [intros; apply exec_bucket|].
  intros now aid p a [_ Hbuck] Hfind p'.
  destruct (find_in_bucket_Some p aid a Hfind) as (Hin & art & Hart & Hid).
  destruct (inject_found now aid p a Hfind)
    as (extra & auto & _ & _ & _ & _ & _ & _ & Heq).
  subst p'. rewrite Heq. cbn [fst Project.bucket Project.store].
  assert (Hsame : forall a', (a' < length (Project.store p))%nat ->
            (alter (Artifact.set_status (lit "injected")) a (Project.store p) ++ [auto]) !! a'
            = (alter (Artifact.set_status (lit "injected")) a (Project.store p)) !! a').
  { intros a' Ha'. apply lookup_app_l. rewrite length_alter. exact Ha'. }
  split; [reflexivity|]. split; [exact Hin|].
  split.
  { exists art. split; [exact Hart|].
    rewrite Hsame by (eapply lookup_lt_Some, Hart).
    rewrite list_lookup_alter_eq, Hart. reflexivity. }
  split.
  { intros a' Hne Ha'. rewrite Hsame by exact Ha'.
    apply list_lookup_alter_ne. congruence. }
  rewrite <- Hfind. unfold Project.find_in_bucket. cbn [Project.bucket].
  apply find_ext_in. intros x Hx.
  rewrite Forall_forall in Hbuck. apply list_elem_of_In, Hbuck in Hx.
  unfold Project.has_id. cbn [Project.store]. rewrite Hsame by exact Hx.
  destruct (decide (a = x)) as [<- | Hne].
  - rewrite list_lookup_alter_eq, Hart. reflexivity.
  - rewrite list_lookup_alter_ne by exact Hne. reflexivity.
Qed.

Lemma bucket_append_only_witness :
  closed olo_collected
  /\ Project.find_in_bucket olo_collected (lit "art-0") = Some 0%nat
  /\ Project.bucket olo_promoted = Project.bucket olo_collected
  /\ Project.find_in_bucket olo_promoted (lit "art-0") = Some 0%nat.
Proof.
  assert (Hc : closed olo_collected)
    by apply (reachable_invariant _ olo_collected_reachable).
  assert (Hfind : Project.find_in_bucket olo_collected (lit "art-0") = Some 0%nat)
    by (vm_compute; reflexivity).
  pose proof (proj2 (proj2 (proj2 bucket_append_only)) olo_clock (lit "art-0")
                olo_collected 0%nat Hc Hfind) as (Hb & _ & _ & _ & Hf).
  split; [exact Hc|]. split; [exact Hfind|]. split; [exact Hb | exact Hf].
Defined.

(** The demonstration of gently_tiers.py: after the promotion the first
    artifact is injected, the automatic artifact of tier 0 is on the shelf
    only, and tier 1 is the master. *)
Example olo_promoted_state :
  Artifact.status <$> Project.store olo_promoted !! 0%nat = Some (lit "injected")
  /\ Artifact.id <$> Project.store olo_promoted !! 1%nat = Some (lit "tier-0-auto")
  /\ Artifact.origin <$> Project.store olo_promoted !! 1%nat = Some TIER_AUTO
  /\ Project.artifacts olo_promoted = [0%nat; 1%nat]
  /\ Project.bucket olo_promoted = [0%nat]
  /\ List.map Tier.frozen (Project.tiers olo_promoted) = [true; false]
  /\ List.map Tier.level (Project.tiers olo_promoted) = [0%Z; 1%Z]
  /\ Tier.master_pin <$> Project.tiers olo_promoted !! 1%nat
     = Some (lit "promoted from tier 0")
  /\ Tier.promoted_by <$> Project.tiers olo_promoted !! 0%nat = Some (lit "art-0").
Proof. repeat split; vm_compute; reflexivity. Qed.

(** The stamp of a master at depth 5 with a pin. *)
Example make_stamp_tier_0 :
  Tier.make_stamp olo_clock
    (Tier.mk 0 5 OPEN (lit "blue channel verified") [] false [] [])
    (lit "olo") olo_gates
  = lit "[OLO|" ++ [0x1F33F] ++ lit "t0/olo|" ++ [0x1F4CD] ++ lit "5|"
    ++ [0x26A1] ++ lit "OPEN|" ++ [0x1F512] ++ lit "A" ++ [0x25CF] ++ lit "B"
    ++ [0x25CB] ++ lit "|" ++ [0x1F4CC] ++ lit "blue-channel-verified|"
    ++ [0x23F1] ++ lit "1103T2028]".
Proof. vm_compute. reflexivity. Qed.

(** In a project whose tiers are all frozen, [current_tier] creates one. *)
Example current_tier_all_frozen :
  Project.current_tier
    (Project.mk (lit "p") [] [] [] [Tier.mk 0 0 OPEN [] [] true [] []] [] [] [])
  = (Project.mk (lit "p") [] [] []
       [Tier.mk 0 0 OPEN [] [] true [] []; Tier.new 1] [] [] [],
     1%nat).
Proof. reflexivity. Qed.

End TierClaims.

(** * Further properties *)

(** ** stamp.py: the codec *)

Section StampMore.
Import Py StampPy StampDict.

Lemma gate_str_forget gs :
  concat (List.map Gate.compact (List.map forget_question gs))
  = concat (List.map Gate.compact gs).
Proof. rewrite List.map_map. reflexivity. Qed.

Lemma replace_take old new n s :
  take n (replace old new s) = replace old new (take n s).
Proof. unfold replace. symmetry. apply fmap_take. Qed.

Lemma pin_short_decoded now r :
  Stamp.pin_short (decoded now r) = Stamp.pin_short r.
Proof.
  unfold Stamp.pin_short, decoded. cbn [Stamp.pin].
  destruct (Stamp.pin r) as [|c pin]; [reflexivity|].
  set (p := c :: pin).
  assert (Hne : exists c' q, replace 45 32 (take 30 p) = c' :: q)
    by (subst p; simpl; eauto).
  destruct Hne as (c' & q & Hq). rewrite Hq, <- Hq.
  rewrite replace_take, take_take, Nat.min_id. apply replace_replace.
Qed.

(** Encoding what was decoded gives the line that was decoded. *)
Lemma compact_decoded now r : Stamp.compact now (decoded now r) = Stamp.compact now r.
Proof.
  unfold Stamp.compact, Stamp.compact_parts.
  rewrite pin_short_decoded.
  unfold Stamp.gate_str, Stamp.parent_str, decoded.
  cbn [Stamp.branch Stamp.depth Stamp.max_depth Stamp.parent Stamp.parent_depth
       Stamp.state Stamp.gates Stamp.look Stamp.chain].
  rewrite gate_str_forget.
  destruct (Stamp.parent r); reflexivity.
Qed.

(** X1: for a record of the declared domain, the stamp decoded from its
    compact form encodes (at the same clock reading) to the very same line,
    and decodes from it again: encoded lines are fixed by decode-encode. *)
Theorem compact_parse_compact now r :
  in_domain r = true ->
  exists s,
    Stamp.parse_compact (Stamp.compact now r) = Return (Some s)
    /\ Stamp.compact now s = Stamp.compact now r
    /\ Stamp.parse_compact (Stamp.compact now s) = Return (Some s).
Proof.
  intros Hd. exists (decoded now r).
  pose proof (parse_compact_compact now r Hd) as Hp.
  rewrite compact_decoded. auto.
Qed.

Lemma compact_parse_compact_witness :
  in_domain blue_channel_stamp = true
  /\ exists s,
       Stamp.parse_compact (Stamp.compact clock_1103T2028 blue_channel_stamp)
       = Return (Some s)
       /\ Stamp.compact clock_1103T2028 s
          = Stamp.compact clock_1103T2028 blue_channel_stamp
       /\ Stamp.parse_compact (Stamp.compact clock_1103T2028 s) = Return (Some s).
Proof.
  split; [reflexivity|].
  apply (compact_parse_compact clock_1103T2028 blue_channel_stamp). reflexivity.
Defined.

Lemma parse_parts_total_cases stamp parts :
  Stamp.parse_parts stamp parts = Raise ValueError
  \/ exists s, Stamp.parse_parts stamp parts = Return s.
Proof.
  destruct (Stamp.parse_parts stamp parts) as [s|[]]; eauto.
Qed.

(** X2: whatever the record holds, the line [compact] builds carries the
    wrapper and the protocol marker, so [parse_compact] never answers it
    with "no result": it returns a stamp, or raises when a text field
    smuggles in a malformed depth or parent field. *)
Theorem compact_is_wrapped now r :
  startswith (lit "[OLO|") (Stamp.compact now r) = true
  /\ endswith (lit "]") (Stamp.compact now r) = true
  /\ (Stamp.parse_compact (Stamp.compact now r) = Raise ValueError
      \/ exists s, Stamp.parse_compact (Stamp.compact now r) = Return (Some s)).
Proof.
  assert (Hstart : startswith (lit "[OLO|") (Stamp.compact now r) = true).
  { unfold Stamp.compact, Stamp.compact_parts.
    destruct (Stamp.tagged_if TAG_BRANCH (Stamp.branch r)); reflexivity. }
  assert (Hend : endswith (lit "]") (Stamp.compact now r) = true).
  { unfold Stamp.compact. rewrite app_assoc. apply endswith_snoc. }
  split; [exact Hstart|]. split; [exact Hend|].
  unfold Stamp.parse_compact. rewrite Hstart, Hend. cbn [negb orb].
  destruct (parse_parts_total_cases Stamp.default
              (split PIPE (slice_1_neg1 (Stamp.compact now r)))) as [-> | [s ->]];
    [left; reflexivity | right; eauto].
Qed.

Lemma parse_gates_pairs gs :
  (length (Stamp.parse_gates gs) = Nat.div2 (length gs)
   /\ concat (List.map Gate.compact (Stamp.parse_gates gs))
      = take (2 * Nat.div2 (length gs)) gs)
  /\ forall c,
       length (Stamp.parse_gates (c :: gs)) = Nat.div2 (S (length gs))
       /\ concat (List.map Gate.compact (Stamp.parse_gates (c :: gs)))
          = take (2 * Nat.div2 (S (length gs))) (c :: gs).
Proof.
  induction gs as [|b gs [[IHl IHc] IH2]].
  - split; [split; reflexivity|]. intros c. split; reflexivity.
  - split; [apply IH2|]. intros c.
    cbn [Stamp.parse_gates List.map concat length Nat.div2].
    rewrite IHl, IHc. split; [reflexivity|].
    replace (2 * S (Nat.div2 (length gs)))%nat
      with (S (S (2 * Nat.div2 (length gs)))) by lia.
    reflexivity.
Qed.

(** X3: the gate field is read two characters at a time: a field of [n]
    characters gives [n / 2] gates, each with one letter, one state glyph
    and an empty question; written back they give the field again, without
    its last character when [n] is odd. *)
Theorem parse_gates_roundtrip gs :
  length (Stamp.parse_gates gs) = Nat.div2 (length gs)
  /\ concat (List.map Gate.compact (Stamp.parse_gates gs))
     = take (2 * Nat.div2 (length gs)) gs
  /\ Forall (fun g => length (Gate.letter g) = 1%nat
                      /\ length (Gate.state g) = 1%nat
                      /\ Gate.question g = [])
       (Stamp.parse_gates gs).
Proof.
  destruct (parse_gates_pairs gs) as [[Hl Hc] _].
  split; [exact Hl|]. split; [exact Hc|].
  assert (H : forall n l, (length l <= n)%nat ->
            Forall (fun g => length (Gate.letter g) = 1%nat
                             /\ length (Gate.state g) = 1%nat
                             /\ Gate.question g = [])
              (Stamp.parse_gates l)).
  { induction n as [|n IH]; intros [|a [|b l]] Hn; simpl in *;
      try constructor; auto; try lia.
    apply IH. lia. }
  apply (H (length gs)). lia.
Qed.

Lemma gates_from_dicts_to_dict gs :
  gates_from_dicts
    (List.map (fun g => mk_gate_dict (Some (Gate.letter g)) (Some (Gate.question g))
                          (Some (Gate.state g))) gs)
  = inl gs.
Proof.
  induction gs as [|[l q st] gs IH]; [reflexivity|].
  simpl. simpl in IH. rewrite IH. reflexivity.
Qed.

(** X4: [from_dict] applied to [to_dict] of a stamp gives the stamp back,
    every gate with its question, and with the timestamp reset to the empty
    default, since [from_dict] does not read the key [timestamp]. *)
Theorem from_dict_to_dict now_iso s :
  from_dict (to_dict now_iso s) = Loaded (Stamp.set_timestamp [] s).
Proof.
  unfold from_dict, to_dict. cbn [sd_gates get].
  rewrite gates_from_dicts_to_dict. destruct s. reflexivity.
Qed.



Lemma contains_single c s : contains [c] s = negb (lacks c s).
Proof.
  unfold contains. induction s as [|x s IH]; [reflexivity|].
  simpl rfind. rewrite lacks_cons.
  destruct (rfind [c] s) as [i|].
  - destruct (lacks c s); [discriminate|]. rewrite andb_false_r. reflexivity.
  - destruct (lacks c s); [|discriminate].
    rewrite andb_true_r. simpl. rewrite andb_true_r, N.eqb_sym.
    destruct (x =? c); reflexivity.
Qed.

Lemma split_head sep s :
  exists p ps, split sep s = p :: ps /\ lacks sep p = true
               /\ (s = p \/ exists tail, s = p ++ sep :: tail).
Proof.
  induction s as [|c s (p & ps & Hs & Hp & Hcase)].
  - exists [], []. auto.
  - simpl. destruct (c =? sep) eqn:E.
    + apply N.eqb_eq in E. subst c. exists [], (split sep s).
      split; [reflexivity|]. split; [reflexivity|]. right. exists s. reflexivity.
    + rewrite Hs. exists (c :: p), ps. split; [reflexivity|].
      split; [rewrite lacks_cons, E, Hp; reflexivity|].
      destruct Hcase as [-> | [tail ->]]; [left | right; exists tail]; reflexivity.
Qed.

(** X6: the project named in the rehydration block is the part of the
    branch before its first slash: it holds no slash, and the branch is the
    project alone or the project, a slash and a rest; the block starts with
    the opening marker and the project line. *)
Theorem rehydrate_project_prefix s tree_state findings :
  lacks 47 (rehydrate_project s) = true
  /\ (Stamp.branch s = rehydrate_project s
      \/ exists rest, Stamp.branch s = rehydrate_project s ++ lit "/" ++ rest)
  /\ take 2 (rehydrate_block s tree_state findings)
     = [lit "[OLO REHYDRATE]"; lit "PROJECT: " ++ rehydrate_project s]
  /\ last (rehydrate_block s tree_state findings) = Some (lit "[/OLO REHYDRATE]").
Proof.
  assert (Hproj : lacks 47 (rehydrate_project s) = true
                  /\ (Stamp.branch s = rehydrate_project s
                      \/ exists rest, Stamp.branch s = rehydrate_project s ++ lit "/" ++ rest)).
  { unfold rehydrate_project. change (lit "/") with [47].
    rewrite contains_single.
    destruct (lacks 47 (Stamp.branch s)) eqn:E; simpl.
    - auto.
    - destruct (split_head 47 (Stamp.branch s)) as (p & ps & -> & Hp & Hcase).
      simpl. split; [exact Hp|]. exact Hcase. }
  destruct Hproj as [H1 H2]. split; [exact H1|]. split; [exact H2|].
  split; [reflexivity|].
  unfold rehydrate_block. rewrite !app_assoc.
  match goal with |- last (?l ++ [?a; ?b; ?c]) = _ =>
    change (l ++ [a; b; c]) with (l ++ [a; b] ++ [c]); rewrite app_assoc, last_snoc end.
  reflexivity.
Qed.

End StampMore.

(** ** gently_tiers.py: the stamp of a tier *)

Section TierStamp.
Import Py.

Lemma make_stamp_parts now t project_id gates :
  Tiers.Tier.make_stamp now t project_id gates
  = lit "[" ++ join [StampPy.PIPE]
      (List.filter StampPy.Stamp.truthy (tier_stamp_parts now t project_id gates))
    ++ lit "]".
Proof.
  unfold Tiers.Tier.make_stamp, tier_stamp_parts.
  destruct (0 <? Tiers.Tier.level t)%Z; reflexivity.
Qed.

Lemma parse_depth_only_part s a :
  lacks 47 a = true ->
  StampPy.Stamp.parse_part s (StampPy.TAG_DEPTH :: a)
  = let! d := int_call a in
    Return (StampPy.Stamp.set_max_depth 0 (StampPy.Stamp.set_depth d s)).
Proof.
  intros Ha.
  change (StampPy.Stamp.parse_part s (StampPy.TAG_DEPTH :: a))
    with (let nums := split 47 a in
          let! d := int_call (nth 0 nums []) in
          let stamp := StampPy.Stamp.set_depth d s in
          match nums with
          | _ :: n1 :: _ =>
              let! m := int_call n1 in Return (StampPy.Stamp.set_max_depth m stamp)
          | _ => Return (StampPy.Stamp.set_max_depth 0 stamp)
          end).
  rewrite split_lacks by assumption. reflexivity.
Qed.

Lemma parse_bare_parent_part s ref :
  lacks 64 ref = true ->
  StampPy.Stamp.parse_part s (StampPy.TAG_PARENT :: ref)
  = Return (StampPy.Stamp.set_parent ref s).
Proof.
  intros Href.
  change (StampPy.Stamp.parse_part s (StampPy.TAG_PARENT :: ref))
    with (if contains (lit "@d") ref then
            match rsplit1 (lit "@d") ref with
            | [name; dp] =>
                let stamp := StampPy.Stamp.set_parent name s in
                let! pd := int_call dp in
                Return (StampPy.Stamp.set_parent_depth pd stamp)
            | _ => Raise ValueError
            end
          else Return (StampPy.Stamp.set_parent ref s)).
  unfold contains. change (lit "@d") with [64; 100].
  rewrite rfind_lacks by assumption. reflexivity.
Qed.

Lemma parse_any_gates_part s gs :
  StampPy.Stamp.gates s = [] ->
  StampPy.Stamp.parse_part s (StampPy.Stamp.tagged_if StampPy.TAG_GATES gs)
  = Return (StampPy.Stamp.set_gates (StampPy.Stamp.parse_gates gs) s).
Proof.
  intros Hs. destruct gs as [|c gs].
  - destruct s; simpl in Hs; subst. reflexivity.
  - change (StampPy.Stamp.parse_part s (StampPy.Stamp.tagged_if StampPy.TAG_GATES (c :: gs)))
      with (Return (StampPy.Stamp.set_gates
                      (StampPy.Stamp.gates s ++ StampPy.Stamp.parse_gates (c :: gs)) s)).
    rewrite Hs. reflexivity.
Qed.

Lemma tier_gates_parse gates :
  forallb tier_gate_ok gates = true ->
  StampPy.Stamp.parse_gates (concat (List.map Tiers.Gate.sym gates))
  = List.map (fun g => StampPy.Gate.mk (Tiers.Gate.letter g) []
                         (Tiers.GateState_value (Tiers.Gate.state g))) gates.
Proof.
  induction gates as [|[l q st] gates IH]; [reflexivity|].
  simpl forallb. rewrite andb_true_iff. intros [Hg Hgs].
  unfold tier_gate_ok in Hg. simpl in Hg.
  destruct l as [|l [|? ?]]; try discriminate.
  simpl. rewrite <- IH by assumption. destruct st; reflexivity.
Qed.

Lemma tier_gates_lack gates :
  forallb tier_gate_ok gates = true ->
  lacks StampPy.PIPE (concat (List.map Tiers.Gate.sym gates)) = true.
Proof.
  induction gates as [|[l q st] gates IH]; [reflexivity|].
  simpl forallb. rewrite andb_true_iff. intros [Hg Hgs].
  unfold tier_gate_ok in Hg. simpl in Hg.
  destruct l as [|l [|? ?]]; try discriminate.
  change (concat (List.map Tiers.Gate.sym (Tiers.Gate.mk [l] q st :: gates)))
    with (l :: Tiers.GateState_value st ++ concat (List.map Tiers.Gate.sym gates)).
  rewrite lacks_cons, lacks_app, IH, Hg by assumption.
  destruct st; reflexivity.
Qed.

Lemma tier_pin_lacks c (pin : list N) :
  c <> 45 -> lacks c pin = true ->
  lacks c (match pin with [] => [] | _ :: _ => replace 32 45 (take 25 pin) end) = true.
Proof.
  intros Hc Hp. destruct pin as [|x rest] eqn:E; [reflexivity|].
  rewrite <- E in *. apply lacks_replace; [congruence|]. apply lacks_take, Hp.
Qed.

Lemma tier_pin_decoded (pin : list N) :
  replace 45 32 (match pin with [] => [] | _ :: _ => replace 32 45 (take 25 pin) end)
  = replace 45 32 (take 25 pin).
Proof. destruct pin; [reflexivity|]. apply replace_replace. Qed.

Lemma tier_stamp_parts_lack now t project_id gates :
  lacks StampPy.PIPE project_id = true ->
  lacks StampPy.PIPE (Tiers.Tier.master_pin t) = true ->
  forallb tier_gate_ok gates = true ->
  forallb (lacks StampPy.PIPE) (tier_stamp_parts now t project_id gates) = true.
Proof.
  intros Hid Hpin Hg. unfold tier_stamp_parts.
  rewrite !forallb_app. cbn [forallb].
  rewrite !tagged_if_lacks;
    try (apply tier_gates_lack, Hg);
    try (apply tier_pin_lacks; [unfold StampPy.PIPE; lia | exact Hpin]);
    try (unfold StampPy.PIPE; compute; congruence).
  rewrite !lacks_cons, !lacks_app, !str_of_int_lacks_pipe, Hid.
  rewrite strftime_lacks by (reflexivity || (unfold StampPy.PIPE; lia)).
  assert (Hst : lacks StampPy.PIPE (Tiers.ConvState_value (Tiers.Tier.master_state t)) = true)
    by (destruct (Tiers.Tier.master_state t); reflexivity).
  rewrite Hst. simpl.
  destruct (0 <? Tiers.Tier.level t)%Z; [|reflexivity].
  cbn [forallb]. rewrite !lacks_cons, str_of_int_lacks_pipe. reflexivity.
Qed.

Lemma parse_tier_stamp_parts now t project_id gates :
  forallb tier_gate_ok gates = true ->
  StampPy.Stamp.parse_parts StampPy.Stamp.default (tier_stamp_parts now t project_id gates)
  = Return (tier_stamp_decoded now t project_id gates).
Proof.
  intros Hg. unfold tier_stamp_parts.
  cbn [app StampPy.Stamp.parse_parts].
  change (StampPy.Stamp.parse_part StampPy.Stamp.default (lit "OLO"))
    with (Return StampPy.Stamp.default).
  cbn [bind].
  change (StampPy.Stamp.parse_part StampPy.Stamp.default
            (StampPy.TAG_BRANCH :: lit "t" ++ str_of_int (Tiers.Tier.level t)
               ++ lit "/" ++ project_id))
    with (Return (StampPy.Stamp.set_branch
                    (lit "t" ++ str_of_int (Tiers.Tier.level t) ++ lit "/" ++ project_id)
                    StampPy.Stamp.default)).
  cbn [bind].
  rewrite parse_depth_only_part by (apply str_of_int_lacks; [reflexivity | lia]).
  rewrite int_call_str_of_int. cbn [bind].
  rewrite parse_state_part. cbn [bind].
  rewrite parse_any_gates_part by reflexivity. cbn [bind].
  rewrite parse_pin_part by reflexivity. cbn [bind].
  rewrite tier_gates_parse, tier_pin_decoded by assumption.
  unfold tier_stamp_decoded.
  destruct (0 <? Tiers.Tier.level t)%Z.
  - cbn [app StampPy.Stamp.parse_parts].
    rewrite parse_bare_parent_part.
    + cbn [bind]. rewrite parse_time_part. reflexivity.
    + change (lit "t" ++ str_of_int (Tiers.Tier.level t - 1))
        with (116 :: str_of_int (Tiers.Tier.level t - 1)).
      rewrite lacks_cons, str_of_int_lacks by (reflexivity || lia). reflexivity.
  - cbn [app StampPy.Stamp.parse_parts]. rewrite parse_time_part. reflexivity.
Qed.

(** X7: the stamp of a tier is a line the decoder of stamp.py reads: when
    the project id and the master pin hold no separator and every gate
    letter is one character, [parse_compact] returns a stamp whose branch is
    t<level>/<project id>, whose depth is the master depth (max_depth 0),
    whose state and gate letter+state pairs are those of the tier and the
    project, whose pin is the master pin cut to 25 characters with dashes
    read as spaces, and whose parent is t<level-1> for a level above 0 and
    empty for level 0. *)
Theorem tier_stamp_parses now t project_id gates :
  lacks StampPy.PIPE project_id = true ->
  lacks StampPy.PIPE (Tiers.Tier.master_pin t) = true ->
  forallb tier_gate_ok gates = true ->
  exists s,
    StampPy.Stamp.parse_compact (Tiers.Tier.make_stamp now t project_id gates)
    = Return (Some s)
    /\ StampPy.Stamp.branch s
       = lit "t" ++ str_of_int (Tiers.Tier.level t) ++ lit "/" ++ project_id
    /\ StampPy.Stamp.depth s = Tiers.Tier.master_depth t
    /\ StampPy.Stamp.max_depth s = 0%Z
    /\ StampPy.Stamp.state s = Tiers.ConvState_value (Tiers.Tier.master_state t)
    /\ List.map gate_pair (StampPy.Stamp.gates s)
       = List.map (fun g => (Tiers.Gate.letter g,
                             Tiers.GateState_value (Tiers.Gate.state g))) gates
    /\ StampPy.Stamp.pin s = replace 45 32 (take 25 (Tiers.Tier.master_pin t))
    /\ StampPy.Stamp.parent s
       = (if (0 <? Tiers.Tier.level t)%Z
          then lit "t" ++ str_of_int (Tiers.Tier.level t - 1) else [])
    /\ StampPy.Stamp.parent_depth s = 0%Z
    /\ StampPy.Stamp.timestamp s = strftime_mdTHM now.
Proof.
  intros Hid Hpin Hg. exists (tier_stamp_decoded now t project_id gates).
  split.
  - pose proof (tier_stamp_parts_lack now t project_id gates Hid Hpin Hg) as Hlack.
    pose proof (parse_tier_stamp_parts now t project_id gates Hg) as Hparse.
    rewrite <- parse_parts_filter in Hparse.
    apply (forallb_filter _ StampPy.Stamp.truthy) in Hlack.
    rewrite make_stamp_parts.
    set (fp := List.filter StampPy.Stamp.truthy (tier_stamp_parts now t project_id gates)) in *.
    assert (Hfp : exists q l, fp = lit "OLO" :: q :: l).
    { subst fp. unfold tier_stamp_parts. simpl. eauto. }
    destruct Hfp as (q & l & Hfp).
    assert (Hne : fp <> []) by (rewrite Hfp; discriminate).
    unfold StampPy.Stamp.parse_compact.
    assert (Hstart : startswith (lit "[OLO|") (lit "[" ++ join [StampPy.PIPE] fp ++ lit "]") = true)
      by (rewrite Hfp; reflexivity).
    assert (Hend : endswith (lit "]") (lit "[" ++ join [StampPy.PIPE] fp ++ lit "]") = true)
      by (rewrite app_assoc; apply endswith_snoc).
    rewrite Hstart, Hend. cbn [negb orb].
    change (lit "[" ++ join [StampPy.PIPE] fp ++ lit "]")
      with (91 :: join [StampPy.PIPE] fp ++ [93]).
    rewrite slice_1_neg1_wrap, split_join by assumption.
    rewrite Hparse. reflexivity.
  - unfold tier_stamp_decoded.
    cbn [StampPy.Stamp.branch StampPy.Stamp.depth StampPy.Stamp.max_depth
         StampPy.Stamp.state StampPy.Stamp.gates StampPy.Stamp.pin
         StampPy.Stamp.parent StampPy.Stamp.parent_depth StampPy.Stamp.timestamp].
    repeat split. rewrite List.map_map. reflexivity.
Qed.

Lemma tier_stamp_parses_witness :
  lacks StampPy.PIPE (Tiers.Project.id olo_promoted) = true
  /\ forallb tier_gate_ok (Tiers.Project.gates olo_promoted) = true
  /\ exists s,
       StampPy.Stamp.parse_compact
         (Tiers.Tier.make_stamp olo_clock (Tiers.Project.tiers olo_promoted !!! 1%nat)
            (Tiers.Project.id olo_promoted) (Tiers.Project.gates olo_promoted))
       = Return (Some s)
       /\ StampPy.Stamp.branch s = lit "t1/olo"
       /\ StampPy.Stamp.parent s = lit "t0"
       /\ StampPy.Stamp.pin s = lit "promoted from tier 0".
Proof.
  assert (H1 : lacks StampPy.PIPE (Tiers.Project.id olo_promoted) = true)
    by (vm_compute; reflexivity).
  assert (H2 : lacks StampPy.PIPE
                 (Tiers.Tier.master_pin (Tiers.Project.tiers olo_promoted !!! 1%nat)) = true)
    by (vm_compute; reflexivity).
  assert (H3 : forallb tier_gate_ok (Tiers.Project.gates olo_promoted) = true)
    by (vm_compute; reflexivity).
  split; [exact H1|]. split; [exact H3|].
  destruct (tier_stamp_parses olo_clock (Tiers.Project.tiers olo_promoted !!! 1%nat)
              (Tiers.Project.id olo_promoted) (Tiers.Project.gates olo_promoted) H1 H2 H3)
    as (s & Hs & Hb & _ & _ & _ & _ & Hpin & Hpar & _).
  exists s. split; [exact Hs|].
  split; [rewrite Hb; vm_compute; reflexivity|].
  split; [rewrite Hpar; vm_compute; reflexivity|].
  rewrite Hpin. vm_compute. reflexivity.
Defined.

End TierStamp.

(** ** gently_tiers.py: the current tier *)

Section CurrentTier.
Import Py Tiers.

Lemma first_unfrozen_highest rts k :
  Project.first_unfrozen rts = Some k ->
  forall j t, (k < j)%nat -> reverse rts !! j = Some t -> Tier.frozen t = true.
Proof.
  induction rts as [|x rts IH]; simpl; [discriminate|].
  rewrite reverse_cons. destruct (Tier.frozen x) eqn:Ef.
  - intros H j t Hj Ht. apply lookup_snoc_Some in Ht as [[_ Ht] | [_ <-]].
    + eapply IH; eauto.
    + exact Ef.
  - intros [= <-] j t Hj Ht. apply lookup_lt_Some in Ht.
    rewrite length_app, length_reverse in Ht. simpl in Ht. lia.
Qed.

(** X8: [current_tier] returns the unfrozen tier of highest index: every
    tier above the one it returns is frozen. It leaves the project as it is
    when some tier is unfrozen, appends one fresh tier, with the number of
    tiers as level, when all are frozen (or there is none), and a second
    call returns the same tier without changing anything. *)
Theorem current_tier_highest p :
  let q := (Project.current_tier p).1 in
  let k := (Project.current_tier p).2 in
  (exists t, Project.tiers q !! k = Some t /\ Tier.frozen t = false)
  /\ (forall j t, (k < j)%nat -> Project.tiers q !! j = Some t -> Tier.frozen t = true)
  /\ ((exists i t, Project.tiers p !! i = Some t /\ Tier.frozen t = false) -> q = p)
  /\ (Forall (fun t => Tier.frozen t = true) (Project.tiers p) ->
      q = Project.set_tiers
            (Project.tiers p ++ [Tier.new (Z.of_nat (length (Project.tiers p)))]) p
      /\ k = length (Project.tiers p))
  /\ Project.current_tier q = (q, k).
Proof.
  cbv zeta. unfold Project.current_tier.
  destruct (Project.first_unfrozen (reverse (Project.tiers p))) as [k|] eqn:E.
  - cbn [fst snd]. rewrite E.
    pose proof (first_unfrozen_highest _ _ E) as Hhigh.
    apply first_unfrozen_Some in E as (t & Ht & Hf).
    rewrite reverse_involutive in Ht, Hhigh.
    split; [eauto|]. split; [exact Hhigh|]. split; [reflexivity|].
    split; [|reflexivity].
    intros Hall. rewrite Forall_lookup in Hall. apply Hall in Ht. congruence.
  - pose proof (first_unfrozen_None _ E) as Hall. rewrite Forall_reverse in Hall.
    cbn [fst snd Project._new_tier Project.tiers Project.set_tiers].
    split.
    { exists (Tier.new (Z.of_nat (length (Project.tiers p)))).
      split; [|reflexivity]. apply list_lookup_middle. reflexivity. }
    split.
    { intros j t Hj Ht. apply lookup_lt_Some in Ht.
      rewrite length_app in Ht. simpl in Ht. lia. }
    split.
    { intros (i & t & Ht & Hf). rewrite Forall_lookup in Hall.
      apply Hall in Ht. congruence. }
    split; [auto|].
    rewrite first_unfrozen_last by reflexivity. reflexivity.
Qed.

End CurrentTier.

(** ** gently_tiers.py: the ids and the shelf *)

Section Shelf.
Import Py Tiers.

Lemma str_of_int_inj x y : str_of_int x = str_of_int y -> x = y.
Proof.
  intros H. apply (f_equal int_of_str) in H.
  rewrite !int_of_str_of_int in H. congruence.
Qed.

Lemma str_of_nat_lacks_minus n : lacks 45 (str_of_int (Z.of_nat n)) = true.
Proof.
  unfold str_of_int. destruct (Z.of_nat n) eqn:E; simpl.
  - reflexivity.
  - apply digits_lack; [reflexivity | apply uint_chars_digits].
  - lia.
Qed.

Lemma art_id_inj a b : art_id a = art_id b -> a = b.
Proof.
  unfold art_id. intros H. apply app_inv_head, str_of_int_inj in H. lia.
Qed.

Lemma auto_id_inj x y : auto_id x = auto_id y -> x = y.
Proof.
  unfold auto_id. intros H. apply app_inv_head, app_inv_tail in H.
  apply str_of_int_inj, H.
Qed.

Lemma art_id_not_auto a l : art_id a <> auto_id l.
Proof. unfold art_id, auto_id. simpl. discriminate. Qed.

Lemma sep_prefix_inj c (s1 s2 x y : list N) :
  lacks c s1 = true -> lacks c s2 = true ->
  s1 ++ c :: x = s2 ++ c :: y -> s1 = s2.
Proof.
  revert s2. induction s1 as [|a s1 IH]; intros [|b s2]; simpl; try reflexivity.
  - rewrite andb_true_iff, negb_true_iff, N.eqb_neq. intros _ [Hb _] [= ->].
    congruence.
  - rewrite andb_true_iff, negb_true_iff, N.eqb_neq. intros [Ha _] _ [= ->].
    congruence.
  - rewrite !andb_true_iff. intros [_ H1] [_ H2] [= -> H]. f_equal. eauto.
Qed.

Lemma branch_id_inj n m x y : branch_id n x = branch_id m y -> n = m.
Proof.
  unfold branch_id. intros H. apply app_inv_head in H.
  change (lit "-" ++ x) with (45 :: x) in H.
  change (lit "-" ++ y) with (45 :: y) in H.
  apply sep_prefix_inj in H; auto using str_of_nat_lacks_minus.
  apply str_of_int_inj in H. lia.
Qed.

(** The automatic artifact [inject] puts at the end of the store. *)
Lemma inject_auto_fields now artifact_id p a :
  Project.find_in_bucket p artifact_id = Some a ->
  let t := Project.tiers (Project.current_tier p).1 !!! (Project.current_tier p).2 in
  exists auto,
    last (Project.store (Project.inject now artifact_id p).1) = Some auto
    /\ Artifact.id auto = auto_id (Tier.level t)
    /\ Artifact.stamp_at_creation auto
       = Tier.make_stamp now (Tier.set_frozen true t) (Project.id p) (Project.gates p).
Proof.
  intros Hfind.
  set (p1 := Project.set_store
               (alter (Artifact.set_status (lit "injected")) a (Project.store p)) p).
  assert (Hcur1 : Project.current_tier p1
                  = (Project.set_store (Project.store p1) (Project.current_tier p).1,
                     (Project.current_tier p).2)).
  { unfold Project.current_tier, p1. simpl.
    destruct (Project.first_unfrozen (reverse (Project.tiers p))); reflexivity. }
  destruct (current_tier_spec p) as (extra & t & Hp2 & Hextra & Hk & Hf).
  unfold Project.inject. rewrite Hfind. fold p1. rewrite Hcur1, Hp2.
  cbn [Project.alloc Project._new_tier Project.set_tiers Project.set_store
       Project.set_artifacts Project.tiers Project.store Project.artifacts
       Project.bucket Project.id Project.gates Project.name Project.color p1 fst snd].
  rewrite last_snoc. eexists. split; [reflexivity|]. split; reflexivity.
Qed.

Lemma inject_active_full now artifact_id p a ts' t0 :
  Project.tiers p = ts' ++ [t0] -> Tier.frozen t0 = false ->
  Project.find_in_bucket p artifact_id = Some a ->
  exists auto,
    Artifact.origin auto = TIER_AUTO
    /\ Artifact.source_tier auto = Tier.level t0
    /\ Artifact.id auto = auto_id (Tier.level t0)
    /\ Artifact.stamp_at_creation auto
       = Tier.frozen_stamp (freeze now artifact_id p t0)
    /\ Project.inject now artifact_id p
       = (Project.mk (Project.id p) (Project.name p) (Project.color p)
            (Project.gates p)
            (ts' ++ [freeze now artifact_id p t0;
                     promoted (S (length ts')) (Tier.level t0)])
            (alter (Artifact.set_status (lit "injected")) a (Project.store p)
             ++ [auto])
            (Project.artifacts p ++ [length (Project.store p)])
            (Project.bucket p),
          Some (S (length ts'), length (Project.store p))).
Proof.
  intros Hts Hf Hfind.
  destruct (inject_active now artifact_id p a ts' t0 Hts Hf Hfind)
    as (auto & Ho & _ & Hst & Heq).
  destruct (inject_auto_fields now artifact_id p a Hfind) as (auto' & Hlast & Hid & Hstamp).
  rewrite Heq in Hlast. cbn [fst Project.store] in Hlast.
  rewrite last_snoc in Hlast. injection Hlast as <-.
  rewrite (current_tier_active p ts' t0 Hts Hf) in Hid, Hstamp.
  cbn [fst snd] in Hid, Hstamp.
  rewrite Hts, list_lookup_total_middle in Hid, Hstamp by reflexivity.
  exists auto. auto.
Qed.

(** The branch [branch_from_master] returns. *)
Lemma branch_from_master_branch now name fork_type p :
  let t := Project.tiers (Project.current_tier p).1 !!! (Project.current_tier p).2 in
  (Project.branch_from_master now name fork_type p).2
  = Branch.mk (branch_id (length (Tier.branches t)) name) name fork_type
      (Tier.master_depth t) 0 OPEN []
      (Tier.make_stamp now t (Project.id p) (Project.gates p)).
Proof.
  cbv zeta. unfold Project.branch_from_master.
  destruct (current_tier_spec p) as (extra & t & Hp2 & _).
  destruct (Project.current_tier p) as [p2 k]. simpl in Hp2. subst p2. reflexivity.
Qed.

Lemma lookup_alter_status (store : list Artifact.t) a x art :
  alter (Artifact.set_status (lit "injected")) a store !! x = Some art ->
  exists art0, store !! x = Some art0
               /\ Artifact.origin art = Artifact.origin art0
               /\ Artifact.id art = Artifact.id art0
               /\ Artifact.source_tier art = Artifact.source_tier art0
               /\ Artifact.stamp_at_creation art = Artifact.stamp_at_creation art0.
Proof.
  destruct (decide (a = x)) as [-> | Hne].
  - rewrite list_lookup_alter_eq. destruct (store !! x) as [art0|]; [|discriminate].
    intros [= <-]. exists art0. auto.
  - rewrite list_lookup_alter_ne by exact Hne. intros H. exists art. auto.
Qed.

Lemma lookup_status_alter (store : list Artifact.t) a x art0 :
  store !! x = Some art0 ->
  exists art, alter (Artifact.set_status (lit "injected")) a store !! x = Some art
              /\ Artifact.origin art = Artifact.origin art0
              /\ Artifact.id art = Artifact.id art0
              /\ Artifact.source_tier art = Artifact.source_tier art0
              /\ Artifact.stamp_at_creation art = Artifact.stamp_at_creation art0.
Proof.
  intros H. destruct (decide (a = x)) as [-> | Hne].
  - rewrite list_lookup_alter_eq, H. eexists. split; [reflexivity|]. repeat split.
  - rewrite list_lookup_alter_ne by exact Hne. exists art0. repeat split. exact H.
Qed.

Lemma collect_artifact_active_full now branch_id name content p ts' t0 :
  Project.tiers p = ts' ++ [t0] -> Tier.frozen t0 = false ->
  exists art,
    Artifact.origin art = MANUAL
    /\ Artifact.id art = art_id (length (Project.artifacts p))
    /\ Project.collect_artifact now branch_id name content p
       = (Project.mk (Project.id p) (Project.name p) (Project.color p)
            (Project.gates p) (Project.tiers p)
            (Project.store p ++ [art])
            (Project.artifacts p ++ [length (Project.store p)])
            (Project.bucket p ++ [length (Project.store p)]),
          length (Project.store p)).
Proof.
  intros Hts Hf.
  destruct (collect_artifact_spec now branch_id name content p)
    as (extra & art & Hextra & Ho & _ & _ & _ & Hid & Heq).
  rewrite Hts in Hextra. apply active_extra in Hextra; [|exact Hf]. subst extra.
  rewrite app_nil_r in Heq. exists art. auto.
Qed.

Lemma init_shelf_ok id name color gates :
  shelf_ok (Project.init_project (Project.new id name color gates)).
Proof.
  repeat split.
  - intros a art H. destruct a; discriminate H.
  - intros a b arta artb H. destruct a; discriminate H.
  - intros a art [].
  - intros [|i] t H Hf; simpl in H; [|discriminate].
    injection H as <-. discriminate Hf.
Qed.

Lemma lookup_snoc2 {A} (l : list A) x y i z :
  (l ++ [x; y]) !! i = Some z ->
  l !! i = Some z \/ (i = length l /\ z = x) \/ (i = S (length l) /\ z = y).
Proof.
  change (l ++ [x; y]) with (l ++ [x] ++ [y]). rewrite app_assoc.
  intros H. apply lookup_snoc_Some in H as [[_ H] | [Hi <-]].
  - apply lookup_snoc_Some in H as [[_ H] | [Hi <-]]; auto.
  - rewrite length_app in Hi. simpl in Hi. right. right. split; [lia | reflexivity].
Qed.

(** Every call keeps the shelf in order. *)
Lemma exec_shelf_ok o p : invariant p -> shelf_ok p -> shelf_ok (Project.exec o p).
Proof.
  intros (Hlev & (ts' & t0 & Hts & Hf & Hall) & Hart & Hbuck)
         (Hsc & Hids & Hsorted & Hbm & Hfc).
  pose proof Hlev as Hlev'. rewrite Hts in Hlev'.
  apply levels_ok_snoc_inv in Hlev' as [_ Hl0].
  assert (Hlen : length (Project.tiers p) = S (length ts'))
    by (rewrite Hts, length_app; simpl; lia).
  rewrite Forall_forall in Hbuck.
  destruct o as [now name f | now b n c | now aid | ]; simpl.
  - (* branch_from_master *)
    destruct (branch_from_master_active now name f p ts' t0 Hts Hf) as (br & ->).
    cbn [fst]. split; [exact Hsc|]. split; [|split; [exact Hsorted|split; [exact Hbm|]]].
    + intros a art H. cbn [Project.store Project.tiers] in *.
      destruct (Hids a art H) as [?|(? & ? & Hb)]; [left; assumption|right].
      repeat split; try tauto. rewrite length_app. simpl. lia.
    + intros i t Hi Hft. cbn [Project.tiers Project.store Project.bucket] in *.
      apply lookup_snoc_Some in Hi as [[_ Hi] | [_ <-]]; [|simpl in Hft; congruence].
      apply (Hfc i t); [|exact Hft]. rewrite Hts. apply lookup_app_l_Some, Hi.
  - (* collect_artifact *)
    destruct (collect_artifact_active_full now b n c p ts' t0 Hts Hf)
      as (art & Ho & Hid & ->).
    cbn [fst]. unfold shelf_ok, shelf_complete, ids_ok, autos_sorted, bucket_manual,
      frozen_concluded.
    cbn [Project.store Project.tiers Project.artifacts Project.bucket].
    assert (Hn : length (Project.artifacts p) = length (Project.store p))
      by (rewrite Hsc; apply length_seq).
    rewrite Hn in Hid.
    split; [|split; [|split; [|split]]].
    + rewrite length_app, Nat.add_1_r, seq_S, <- Hsc. reflexivity.
    + intros a x H. apply lookup_snoc_Some in H as [[_ H] | [-> <-]]; [auto|].
      left. auto.
    + intros a b' xa xb Ha Hb' Hoa Hob Hab.
      apply lookup_snoc_Some in Ha as [[_ Ha] | [_ <-]]; [|congruence].
      apply lookup_snoc_Some in Hb' as [[_ Hb'] | [_ <-]]; [|congruence].
      eapply Hsorted; eauto.
    + intros a x Hin H. apply in_app_or in Hin as [Hin | [<- | []]].
      * rewrite lookup_app_l in H by (apply Hbuck, list_elem_of_In, Hin). eauto.
      * rewrite list_lookup_middle in H by reflexivity. congruence.
    + intros i t Hi Hft. destruct (Hfc i t Hi Hft) as (a & x & Hx & Hox & Hsx & Hstx & Hnin).
      exists a, x. split; [apply lookup_app_l_Some, Hx|]. repeat split; auto.
      intros Hin. apply in_app_or in Hin as [Hin | [<- | []]]; [contradiction|].
      apply lookup_lt_Some in Hx. lia.
  - (* inject *)
    destruct (Project.find_in_bucket p aid) as [a0|] eqn:Hfind;
      [|unfold Project.inject; rewrite Hfind; repeat split; assumption].
    destruct (inject_active_full now aid p a0 ts' t0 Hts Hf Hfind)
      as (auto & Ho & Hst & Hid & Hstamp & ->).
    cbn [fst]. unfold shelf_ok, shelf_complete, ids_ok, autos_sorted, bucket_manual,
      frozen_concluded.
    cbn [Project.store Project.tiers Project.artifacts Project.bucket].
    set (store' := alter (Artifact.set_status (lit "injected")) a0 (Project.store p)).
    assert (Hlen' : length store' = length (Project.store p)) by apply length_alter.
    assert (Hold : forall x art, (store' ++ [auto]) !! x = Some art ->
              (exists art0, Project.store p !! x = Some art0
                 /\ Artifact.origin art = Artifact.origin art0
                 /\ Artifact.id art = Artifact.id art0
                 /\ Artifact.source_tier art = Artifact.source_tier art0
                 /\ Artifact.stamp_at_creation art = Artifact.stamp_at_creation art0)
              \/ (x = length (Project.store p) /\ art = auto)).
    { intros x art H. apply lookup_snoc_Some in H as [[_ H] | [-> <-]].
      - left. apply (lookup_alter_status _ _ _ _ H).
      - right. auto. }
    split; [|split; [|split; [|split]]].
    + rewrite length_app, Hlen', Nat.add_1_r, seq_S, <- Hsc. reflexivity.
    + intros x art H. rewrite length_app. cbn [length].
      destruct (Hold x art H) as [(art0 & H0 & Eo & Ei & Es & _) | [-> ->]].
      * destruct (Hids x art0 H0) as [[? ?]|(? & ? & ?)]; [left | right];
          rewrite ?Eo, ?Ei, ?Es; repeat split; try tauto. lia.
      * right. rewrite Ho, Hid, Hst, Hl0. repeat split; lia.
    + intros x y artx arty Hx Hy Hox Hoy Hxy.
      destruct (Hold x artx Hx) as [(ax & Hax & Eox & _ & Esx & _) | [-> ->]];
        destruct (Hold y arty Hy) as [(ay & Hay & Eoy & _ & Esy & _) | [-> ->]].
      * rewrite Esx, Esy. eapply Hsorted; eauto; congruence.
      * rewrite Esx, Hst, Hl0.
        destruct (Hids x ax Hax) as [[? ?]|(_ & _ & Hb)]; [congruence|]. lia.
      * apply lookup_lt_Some in Hay. lia.
      * lia.
    + intros x art Hin H.
      destruct (Hold x art H) as [(art0 & H0 & Eo & _) | [-> ->]].
      * rewrite Eo. eauto.
      * apply list_elem_of_In, Hbuck in Hin. lia.
    + intros i t Hi Hft. apply lookup_snoc2 in Hi as [Hi | [[-> ->] | [_ ->]]].
      * destruct (Hfc i t) as (x & art0 & Hx & Hox & Hsx & Hstx & Hnin);
          [rewrite Hts; apply lookup_app_l_Some, Hi | exact Hft |].
        destruct (lookup_status_alter _ a0 _ _ Hx) as (art & Hart' & Eo & _ & Es & Est).
        exists x, art. split; [apply lookup_app_l_Some, Hart'|].
        repeat split; auto; congruence.
      * exists (length (Project.store p)), auto.
        split; [rewrite <- Hlen'; apply list_lookup_middle; reflexivity|].
        repeat split; auto; [congruence|].
        intros Hin. apply list_elem_of_In, Hbuck in Hin. lia.
      * discriminate Hft.
  - (* current_tier *)
    rewrite (current_tier_active p ts' t0 Hts Hf). repeat split; assumption.
Qed.

Lemma run_shelf_ok ops p :
  invariant p -> shelf_ok p ->
  invariant (Project.run ops p) /\ shelf_ok (Project.run ops p).
Proof.
  revert p. induction ops as [|o ops IH]; intros p Hi Hs; [auto|].
  simpl. apply IH; [apply exec_invariant, Hi | apply exec_shelf_ok; assumption].
Qed.

Lemma reachable_shelf_ok p : Project.reachable p -> invariant p /\ shelf_ok p.
Proof.
  intros (id & name & color & gates & ops & ->).
  apply run_shelf_ok; [apply init_invariant | apply init_shelf_ok].
Qed.

End Shelf.

(** ** Ids of artifacts and branches *)

Section ShelfFacts.
Import Py Tiers.

Lemma exec_branch_ids_ok o p :
  invariant p -> branch_ids_ok p -> branch_ids_ok (Project.exec o p).
Proof.
  intros (_ & (ts' & t0 & Hts & Hf & _) & _) Hb.
  assert (Hold : forall i t, ts' !! i = Some t -> Project.tiers p !! i = Some t)
    by (intros i t Hi; rewrite Hts; apply lookup_app_l_Some, Hi).
  assert (Hlast : Project.tiers p !! length ts' = Some t0)
    by (rewrite Hts; apply list_lookup_middle; reflexivity).
  destruct o as [now name f | now b n c | now aid | ]; simpl.
  - pose proof (branch_from_master_branch now name f p) as Hbr. cbv zeta in Hbr.
    rewrite (current_tier_active p ts' t0 Hts Hf) in Hbr. cbn [fst snd] in Hbr.
    rewrite (list_lookup_total_correct _ _ _ Hlast) in Hbr.
    destruct (branch_from_master_active now name f p ts' t0 Hts Hf) as (br & Heq).
    rewrite Heq in Hbr |- *. cbn [fst snd] in Hbr |- *.
    intros i t m b Hi Hm. cbn [Project.tiers] in Hi.
    apply lookup_snoc_Some in Hi as [[_ Hi] | [_ Ht]];
      [exact (Hb i t m b (Hold i t Hi) Hm)|].
    subst t. cbn [Tier.set_branches Tier.branches] in Hm.
    apply lookup_snoc_Some in Hm as [[_ Hm] | [-> <-]];
      [exact (Hb _ t0 m b Hlast Hm)|].
    rewrite Hbr. reflexivity.
  - destruct (collect_artifact_active_full now b n c p ts' t0 Hts Hf)
      as (art & _ & _ & ->). exact Hb.
  - destruct (Project.find_in_bucket p aid) as [a0|] eqn:Hfind;
      [|unfold Project.inject; rewrite Hfind; exact Hb].
    destruct (inject_active_full now aid p a0 ts' t0 Hts Hf Hfind)
      as (auto & _ & _ & _ & _ & ->).
    intros i t m b Hi Hm. cbn [fst Project.tiers] in Hi.
    apply lookup_snoc2 in Hi as [Hi | [[_ ->] | [_ ->]]].
    + exact (Hb i t m b (Hold i t Hi) Hm).
    + exact (Hb _ t0 m b Hlast Hm).
    + destruct m; discriminate Hm.
  - rewrite (current_tier_active p ts' t0 Hts Hf). exact Hb.
Qed.

Lemma reachable_branch_ids_ok p : Project.reachable p -> branch_ids_ok p.
Proof.
  intros (id & name & color & gates & ops & ->).
  assert (H : forall p, invariant p -> branch_ids_ok p ->
                        branch_ids_ok (Project.run ops p)).
  { induction ops as [|o ops IH]; intros p Hi Hb; [exact Hb|].
    simpl. apply IH; [apply exec_invariant, Hi | apply exec_branch_ids_ok; assumption]. }
  apply H; [apply init_invariant|].
  intros [|i] t m b Hi Hm; simpl in Hi; [|discriminate].
  injection Hi as <-. destruct m; discriminate Hm.
Qed.

Lemma find_unique {A} (f : A -> bool) l a :
  In a l -> f a = true -> (forall x, In x l -> f x = true -> x = a) ->
  find f l = Some a.
Proof.
  induction l as [|x l IH]; intros Hin Hfa Huniq; [destruct Hin|].
  simpl. destruct (f x) eqn:E.
  - f_equal. apply Huniq; [left; reflexivity | exact E].
  - destruct Hin as [-> | Hin]; [congruence|].
    apply IH; auto. intros y Hy. apply Huniq. right. exact Hy.
Qed.

Lemma ids_distinct p a b arta artb :
  ids_ok p -> autos_sorted p ->
  Project.store p !! a = Some arta -> Project.store p !! b = Some artb ->
  Artifact.id arta = Artifact.id artb -> a = b.
Proof.
  intros Hids Hsorted Ha Hb Heq.
  destruct (Hids a arta Ha) as [[Hoa Hia] | (Hoa & Hia & _)];
    destruct (Hids b artb Hb) as [[Hob Hib] | (Hob & Hib & _)];
    rewrite Hia, Hib in Heq.
  - apply art_id_inj, Heq.
  - destruct (art_id_not_auto _ _ Heq).
  - symmetry in Heq. destruct (art_id_not_auto _ _ Heq).
  - apply auto_id_inj in Heq.
    destruct (Nat.lt_trichotomy a b) as [Hlt | [-> | Hlt]]; [|reflexivity|].
    + pose proof (Hsorted a b arta artb Ha Hb Hoa Hob Hlt). lia.
    + pose proof (Hsorted b a artb arta Hb Ha Hob Hoa Hlt). lia.
Qed.

(** X9: in every state reachable from [init_project], two artifacts of
    the project (collected or automatic) never share an id, and [inject]
    with the id of an artifact of the bucket finds that very artifact. *)
Theorem artifact_ids_distinct p :
  Project.reachable p ->
  (forall a b arta artb,
      Project.store p !! a = Some arta -> Project.store p !! b = Some artb ->
      a <> b -> Artifact.id arta <> Artifact.id artb)
  /\ (forall a, In a (Project.bucket p) ->
        exists art, Project.store p !! a = Some art
                    /\ Artifact.id art = art_id a
                    /\ Project.find_in_bucket p (Artifact.id art) = Some a).
Proof.
  intros Hreach.
  destruct (reachable_shelf_ok p Hreach)
    as ((_ & _ & _ & Hbuck) & _ & Hids & Hsorted & Hbm & _).
  split.
  { intros a b arta artb Ha Hb Hne Heq. apply Hne.
    eapply ids_distinct; eauto. }
  intros a Hin. rewrite Forall_forall in Hbuck.
  pose proof (Hbuck a (proj2 (list_elem_of_In _ _) Hin)) as Hlt.
  apply lookup_lt_is_Some in Hlt as [art Hart]. exists art.
  split; [exact Hart|]. split.
  { destruct (Hids a art Hart) as [[_ ?] | (Ho & _)]; [assumption|].
    rewrite (Hbm a art Hin Hart) in Ho. discriminate. }
  apply find_unique; [exact Hin | |].
  - unfold Project.has_id. rewrite Hart. apply str_eqb_eq. reflexivity.
  - intros x _ Hx. unfold Project.has_id in Hx.
    destruct (Project.store p !! x) as [artx|] eqn:Hxs; [|discriminate].
    apply str_eqb_eq in Hx. eapply ids_distinct; eauto.
Qed.

Lemma artifact_ids_distinct_witness :
  Project.reachable olo_promoted
  /\ List.map Artifact.id (Project.store olo_promoted)
     = [lit "art-0"; lit "tier-0-auto"]
  /\ Project.find_in_bucket olo_promoted (lit "art-0") = Some 0%nat.
Proof.
  split; [exact olo_promoted_reachable|].
  split; [vm_compute; reflexivity|].
  destruct (proj2 (artifact_ids_distinct olo_promoted olo_promoted_reachable) 0%nat)
    as (art & Hart & Hid & Hfind); [left; reflexivity|].
  rewrite Hid in Hfind. exact Hfind.
Defined.

(** X10: the automatic artifact of a tier is never in the bucket: in a
    reachable state every artifact of the bucket was collected by hand, so
    that [inject] with the id of an automatic artifact finds nothing and
    leaves the project as it is. *)
Theorem auto_artifact_not_injectable p :
  Project.reachable p ->
  (forall a art, In a (Project.bucket p) -> Project.store p !! a = Some art ->
                 Artifact.origin art = MANUAL)
  /\ (forall now l, Project.inject now (auto_id l) p = (p, None)).
Proof.
  intros Hreach.
  destruct (reachable_shelf_ok p Hreach) as (_ & _ & Hids & _ & Hbm & _).
  split; [exact Hbm|].
  intros now l. unfold Project.inject.
  replace (Project.find_in_bucket p (auto_id l)) with (@None nat); [reflexivity|].
  symmetry. apply find_all_false. intros x Hx. unfold Project.has_id.
  destruct (Project.store p !! x) as [art|] eqn:Hart; [|reflexivity].
  destruct (str_eqb (Artifact.id art) (auto_id l)) eqn:E; [|reflexivity].
  apply str_eqb_eq in E.
  destruct (Hids x art Hart) as [[_ Hid] | (Ho & _)].
  - rewrite Hid in E. destruct (art_id_not_auto _ _ E).
  - rewrite (Hbm x art Hx Hart) in Ho. discriminate.
Qed.

Lemma auto_artifact_not_injectable_witness :
  Project.reachable olo_promoted
  /\ Project.inject olo_clock (lit "tier-0-auto") olo_promoted = (olo_promoted, None).
Proof.
  split; [exact olo_promoted_reachable|].
  exact (proj2 (auto_artifact_not_injectable olo_promoted olo_promoted_reachable)
           olo_clock 0%Z).
Defined.

(** X11: in a reachable state every frozen tier has exactly one automatic
    artifact: it is on the shelf and not in the bucket, carries the level of
    the tier as [source_tier] and in its id, and its stamp is the frozen
    stamp of the tier. *)
Theorem frozen_tier_has_auto_artifact p i t :
  Project.reachable p ->
  Project.tiers p !! i = Some t -> Tier.frozen t = true ->
  exists a art,
    Project.store p !! a = Some art
    /\ In a (Project.artifacts p) /\ ~ In a (Project.bucket p)
    /\ Artifact.origin art = TIER_AUTO
    /\ Artifact.source_tier art = Tier.level t
    /\ Artifact.id art = auto_id (Tier.level t)
    /\ Artifact.stamp_at_creation art = Tier.frozen_stamp t
    /\ forall b artb,
         Project.store p !! b = Some artb -> Artifact.origin artb = TIER_AUTO ->
         Artifact.source_tier artb = Tier.level t -> b = a.
Proof.
  intros Hreach Hi Hf.
  destruct (reachable_shelf_ok p Hreach)
    as ((Hlev & _) & Hsc & Hids & Hsorted & _ & Hfc).
  destruct (Hfc i t Hi Hf) as (a & art & Hart & Ho & Hs & Hst & Hnin).
  rewrite <- (Hlev i t Hi) in Hs.
  exists a, art. split; [exact Hart|]. split.
  { rewrite Hsc. apply in_seq. apply lookup_lt_Some in Hart. lia. }
  split; [exact Hnin|]. split; [exact Ho|]. split; [exact Hs|]. split.
  { destruct (Hids a art Hart) as [[Ho' _] | (_ & Hid & _)]; [congruence|].
    rewrite Hid, Hs. reflexivity. }
  split; [exact Hst|].
  intros b artb Hb Hob Hsb.
  destruct (Nat.lt_trichotomy a b) as [Hlt | [-> | Hlt]]; [|reflexivity|].
  - pose proof (Hsorted a b art artb Hart Hb Ho Hob Hlt). lia.
  - pose proof (Hsorted b a artb art Hb Hart Hob Ho Hlt). lia.
Qed.

Lemma frozen_tier_has_auto_artifact_witness :
  Project.reachable olo_promoted
  /\ List.map Tier.frozen (Project.tiers olo_promoted) = [true; false]
  /\ exists a art,
       Project.store olo_promoted !! a = Some art
       /\ Artifact.id art = lit "tier-0-auto"
       /\ ~ In a (Project.bucket olo_promoted).
Proof.
  split; [exact olo_promoted_reachable|].
  split; [vm_compute; reflexivity|].
  destruct (Project.tiers olo_promoted !! 0%nat) as [t|] eqn:Ht;
    [|vm_compute in Ht; discriminate Ht].
  assert (Hf : Tier.frozen t = true)
    by (vm_compute in Ht; injection Ht as <-; reflexivity).
  assert (Hl : Tier.level t = 0%Z)
    by (vm_compute in Ht; injection Ht as <-; reflexivity).
  destruct (frozen_tier_has_auto_artifact olo_promoted 0%nat t
              olo_promoted_reachable Ht Hf)
    as (a & art & Hart & _ & Hnin & _ & _ & Hid & _).
  exists a, art. rewrite Hl in Hid. auto.
Defined.

(** X12: in a reachable state the branches of one tier have pairwise
    distinct ids, also when two of them were given the same name: the id
    of the [n]-th branch of a tier is "b", [n], "-" and the name. *)
Theorem branch_ids_distinct p i t :
  Project.reachable p ->
  Project.tiers p !! i = Some t ->
  forall n m b b',
    Tier.branches t !! n = Some b -> Tier.branches t !! m = Some b' ->
    Branch.id b = branch_id n (Branch.name b)
    /\ (n <> m -> Branch.id b <> Branch.id b').
Proof.
  intros Hreach Hi n m b b' Hn Hm.
  pose proof (reachable_branch_ids_ok p Hreach) as Hb.
  split; [eapply Hb; eauto|].
  intros Hne Heq. apply Hne.
  rewrite (Hb i t n b Hi Hn), (Hb i t m b' Hi Hm) in Heq.
  eapply branch_id_inj, Heq.
Qed.

Lemma branch_ids_distinct_witness :
  let p := Project.run
             [Project.BranchFromMaster olo_clock (lit "jpeg-test") REFINE]
             olo_collected in
  Project.reachable p
  /\ exists t, Project.tiers p !! 0%nat = Some t
     /\ List.map Branch.name (Tier.branches t) = [lit "jpeg-test"; lit "jpeg-test"]
     /\ List.map Branch.id (Tier.branches t) = [lit "b0-jpeg-test"; lit "b1-jpeg-test"].
Proof.
  cbv zeta.
  assert (Hreach : Project.reachable
            (Project.run [Project.BranchFromMaster olo_clock (lit "jpeg-test") REFINE]
               olo_collected)).
  { exists (lit "olo"), (lit "OLO Guard"), (lit "#00e5a0"), olo_gates,
      (olo_collect_ops ++ [Project.BranchFromMaster olo_clock (lit "jpeg-test") REFINE]).
    vm_compute. reflexivity. }
  split; [exact Hreach|].
  destruct (Project.tiers _ !! 0%nat) as [t|] eqn:Ht; [|vm_compute in Ht; discriminate Ht].
  exists t. split; [reflexivity|].
  assert (Hbs : exists b b', Tier.branches t = [b; b']
                             /\ Branch.name b = lit "jpeg-test"
                             /\ Branch.name b' = lit "jpeg-test").
  { vm_compute in Ht. injection Ht as <-. eexists _, _. repeat split. }
  destruct Hbs as (b & b' & Hbs & Hnb & Hnb').
  pose proof (proj1 (branch_ids_distinct _ 0%nat t Hreach Ht 0%nat 1%nat b b'
                       ltac:(rewrite Hbs; reflexivity) ltac:(rewrite Hbs; reflexivity)))
    as H0.
  pose proof (proj1 (branch_ids_distinct _ 0%nat t Hreach Ht 1%nat 0%nat b' b
                       ltac:(rewrite Hbs; reflexivity) ltac:(rewrite Hbs; reflexivity)))
    as H1.
  rewrite Hbs. simpl. rewrite H0, H1, Hnb, Hnb'. split; vm_compute; reflexivity.
Defined.

End ShelfFacts.

(** ** gently_model.py: bucket, branches and master *)

Section ModelFacts.
Import Py Model ModelOps.

Lemma model_find_in_bucket_Some p artifact_id a :
  Project.find_in_bucket p artifact_id = Some a ->
  In a (Project.bucket p)
  /\ exists art, Project.store p !! a = Some art /\ Artifact.id art = artifact_id.
Proof.
  intros H. apply find_some in H as [Hin Hid]. split; [exact Hin|].
  unfold Project.has_id in Hid. destruct (Project.store p !! a) as [art|]; [|discriminate].
  exists art. split; [reflexivity|]. apply str_eqb_eq, Hid.
Qed.

Lemma model_has_id_alter f a p artifact_id x :
  (forall art, Artifact.id (f art) = Artifact.id art) ->
  Project.has_id (Project.set_store (alter f a (Project.store p)) p) artifact_id x
  = Project.has_id p artifact_id x.
Proof.
  intros Hf. unfold Project.has_id. cbn [Project.store Project.set_store].
  destruct (decide (a = x)) as [-> | Hne].
  - rewrite list_lookup_alter_eq.
    destruct (Project.store p !! x); simpl; [rewrite Hf|]; reflexivity.
  - rewrite list_lookup_alter_ne by exact Hne. reflexivity.
Qed.

Lemma model_find_ext {A} (f g : A -> bool) l :
  (forall x, f x = g x) -> find f l = find g l.
Proof.
  intros H. induction l as [|x l IH]; [reflexivity|].
  simpl. rewrite H, IH. reflexivity.
Qed.

Lemma model_find_alter f a p artifact_id :
  (forall art, Artifact.id (f art) = Artifact.id art) ->
  Project.find_in_bucket (Project.set_store (alter f a (Project.store p)) p) artifact_id
  = Project.find_in_bucket p artifact_id.
Proof.
  intros Hf. unfold Project.find_in_bucket. cbn [Project.bucket Project.set_store].
  apply model_find_ext. intros x. apply model_has_id_alter, Hf.
Qed.

Lemma model_find_set_master m p artifact_id :
  Project.find_in_bucket (Project.set_master m p) artifact_id
  = Project.find_in_bucket p artifact_id.
Proof. reflexivity. Qed.

Lemma inject_to_master_found artifact_id p a :
  Project.find_in_bucket p artifact_id = Some a ->
  Project.inject_to_master artifact_id p
  = (Project.mk (Project.id p) (Project.name p) (Project.color p)
       (MasterChat.mk (MasterChat.depth (Project.master p) + 1)
          (MasterChat.max_depth (Project.master p))
          (MasterChat.conv_state (Project.master p))
          (MasterChat.pin (Project.master p)))
       (Project.branches p) (Project.gates p) (Project.bucket p)
       (alter (Artifact.set_status INJECTED) a (Project.store p)),
     Some a).
Proof. intros H. unfold Project.inject_to_master. rewrite H. reflexivity. Qed.

(** X13: [edit_artifact] with the id of an artifact of the bucket sets
    the status of the artifact to EDITED and its edited content to the new
    text, and keeps every other field, the content among them;
    [display_content] then shows the new text, unless it is empty, in which
    case it shows the original content; a following [inject_to_master] with
    the same id finds the same artifact, sets its status to INJECTED, keeps
    the edited content and what it displays, and adds one to the depth of
    the master. *)
Theorem edit_artifact_display artifact_id new_content p a :
  Project.find_in_bucket p artifact_id = Some a ->
  exists art edited injected,
    Project.store p !! a = Some art
    /\ Artifact.id art = artifact_id
    /\ let shown := match new_content with
                    | [] => Artifact.content art
                    | _ :: _ => new_content
                    end in
       let p' := (edit_artifact artifact_id new_content p).1 in
       let p'' := (Project.inject_to_master artifact_id p').1 in
       (edit_artifact artifact_id new_content p).2 = Some a
       /\ Project.store p' !! a = Some (set_edited new_content art)
       /\ Artifact.content (set_edited new_content art) = Artifact.content art
       /\ display_content (set_edited new_content art) = shown
       /\ (Project.inject_to_master artifact_id p').2 = Some a
       /\ Project.store p'' !! a
          = Some (Artifact.set_status INJECTED (set_edited new_content art))
       /\ display_content (Artifact.set_status INJECTED (set_edited new_content art))
          = shown
       (* the artifact after the edit, field by field *)
       /\ Project.store p' !! a = Some edited
       /\ Artifact.status edited = EDITED
       /\ Artifact.edited_content edited = Some new_content
       /\ same_capture edited art
       /\ display_content edited = shown
       /\ (forall a', a' <> a -> Project.store p' !! a' = Project.store p !! a')
       /\ Project.bucket p' = Project.bucket p
       /\ Project.master p' = Project.master p
       (* the artifact after the injection, field by field *)
       /\ Project.store p'' !! a = Some injected
       /\ Artifact.status injected = INJECTED
       /\ Artifact.edited_content injected = Some new_content
       /\ same_capture injected art
       /\ display_content injected = shown
       /\ (forall a', a' <> a -> Project.store p'' !! a' = Project.store p !! a')
       /\ Project.bucket p'' = Project.bucket p
       /\ MasterChat.depth (Project.master p'')
          = (MasterChat.depth (Project.master p) + 1)%Z.
Proof.
  intros Hfind.
  destruct (model_find_in_bucket_Some p artifact_id a Hfind) as (_ & art & Hart & Hid).
  exists art,
    (Artifact.mk (Artifact.id art) (Artifact.name art) (Artifact.content art)
       (Artifact.source_branch art) (Artifact.source_depth art) EDITED
       (Artifact.fork_type art) (Artifact.stamp_at_capture art) (Some new_content)),
    (Artifact.mk (Artifact.id art) (Artifact.name art) (Artifact.content art)
       (Artifact.source_branch art) (Artifact.source_depth art) INJECTED
       (Artifact.fork_type art) (Artifact.stamp_at_capture art) (Some new_content)).
  split; [exact Hart|]. split; [exact Hid|]. cbv zeta.
  unfold edit_artifact. rewrite Hfind. cbn [fst snd].
  set (p' := Project.set_store (alter (set_edited new_content) a (Project.store p)) p).
  assert (Hfind' : Project.find_in_bucket p' artifact_id = Some a)
    by (unfold p'; rewrite model_find_alter by reflexivity; exact Hfind).
  rewrite (inject_to_master_found artifact_id p' a Hfind'). cbn [fst snd].
  assert (Hedit : Project.store p' !! a = Some (set_edited new_content art)).
  { unfold p'. cbn [Project.store Project.set_store].
    rewrite list_lookup_alter_eq, Hart. reflexivity. }
  assert (Hinj : alter (Artifact.set_status INJECTED) a (Project.store p') !! a
                 = Some (Artifact.set_status INJECTED (set_edited new_content art)))
    by (rewrite list_lookup_alter_eq, Hedit; reflexivity).
  assert (Hshow : forall st,
             display_content
               (Artifact.mk (Artifact.id art) (Artifact.name art) (Artifact.content art)
                  (Artifact.source_branch art) (Artifact.source_depth art) st
                  (Artifact.fork_type art) (Artifact.stamp_at_capture art)
                  (Some new_content))
             = match new_content with
               | [] => Artifact.content art
               | _ :: _ => new_content
               end)
    by (intros st; destruct new_content; reflexivity).
  assert (Hframe : forall a', a' <> a -> Project.store p' !! a' = Project.store p !! a').
  { intros a' Hne. unfold p'. cbn [Project.store Project.set_store].
    apply list_lookup_alter_ne. congruence. }
  unfold same_capture.
  cbn [Project.store Project.bucket Project.master MasterChat.depth
       Artifact.id Artifact.name Artifact.content Artifact.source_branch
       Artifact.source_depth Artifact.fork_type Artifact.stamp_at_capture
       Artifact.status Artifact.edited_content].
  split; [reflexivity|]. split; [exact Hedit|]. split; [reflexivity|].
  split; [apply (Hshow EDITED)|]. split; [reflexivity|]. split; [exact Hinj|].
  split; [apply (Hshow INJECTED)|].
  split; [exact Hedit|]. split; [reflexivity|]. split; [reflexivity|].
  split; [repeat split|]. split; [apply Hshow|].
  split; [exact Hframe|]. split; [reflexivity|]. split; [reflexivity|].
  split; [exact Hinj|]. split; [reflexivity|]. split; [reflexivity|].
  split; [repeat split|]. split; [apply Hshow|].
  split.
  { intros a' Hne. rewrite list_lookup_alter_ne by congruence. apply Hframe, Hne. }
  split; reflexivity.
Qed.

Lemma edit_artifact_display_witness :
  Project.find_in_bucket model_collected (lit "art-0") = Some 0%nat
  /\ exists art,
       Project.store (edit_artifact (lit "art-0") [] model_collected).1 !! 0%nat = Some art
       /\ Artifact.status art = EDITED
       /\ Artifact.edited_content art = Some []
       /\ display_content art = lit "JPEG kills blue".
Proof.
  assert (Hfind : Project.find_in_bucket model_collected (lit "art-0") = Some 0%nat)
    by (vm_compute; reflexivity).
  split; [exact Hfind|].
  destruct (edit_artifact_display (lit "art-0") [] model_collected 0%nat Hfind)
    as (art & edited & injected & Hart & _ & _ & _ & _ & _ & _ & _ & _
        & Hed & Hst & Hec & _ & Hshow & _).
  exists edited. split; [exact Hed|]. split; [exact Hst|]. split; [exact Hec|].
  rewrite Hshow. vm_compute in Hart. injection Hart as <-. reflexivity.
Defined.

(** X14: [inject_to_master] does not look at the status of the artifact:
    repeated with the id of an artifact of the bucket it finds the same
    artifact every time and adds one to the depth of the master each time,
    while [max_depth] stays as it was, so that the depth can pass it. *)
Theorem inject_to_master_repeats artifact_id p a n :
  Project.find_in_bucket p artifact_id = Some a ->
  let q := Nat.iter n (fun p => (Project.inject_to_master artifact_id p).1) p in
  Project.find_in_bucket q artifact_id = Some a
  /\ MasterChat.depth (Project.master q)
     = (MasterChat.depth (Project.master p) + Z.of_nat n)%Z
  /\ MasterChat.max_depth (Project.master q) = MasterChat.max_depth (Project.master p)
  /\ Project.bucket q = Project.bucket p
  /\ ((0 < n)%nat ->
      Artifact.status <$> Project.store q !! a = Some INJECTED).
Proof.
  intros Hfind. cbv zeta. induction n as [|n IH].
  { simpl. repeat split; [exact Hfind | lia | lia]. }
  destruct IH as (Hf & Hd & Hm & Hb & _).
  rewrite Nat.iter_succ.
  set (q := Nat.iter n (fun p => (Project.inject_to_master artifact_id p).1) p) in *.
  cbv beta. rewrite (inject_to_master_found artifact_id q a Hf). cbn [fst].
  split.
  { rewrite <- Hf. apply (model_find_alter (Artifact.set_status INJECTED) a q).
    reflexivity. }
  cbn [Project.master MasterChat.depth MasterChat.max_depth Project.bucket Project.store].
  split; [lia|]. split; [exact Hm|]. split; [exact Hb|]. intros _.
  destruct (model_find_in_bucket_Some q artifact_id a Hf) as (_ & art & Hart & _).
  rewrite list_lookup_alter_eq, Hart. reflexivity.
Qed.

Lemma inject_to_master_repeats_witness :
  Project.find_in_bucket model_collected (lit "art-0") = Some 0%nat
  /\ MasterChat.max_depth (Project.master model_collected) = 12%Z
  /\ MasterChat.depth
       (Project.master
          (Nat.iter 8 (fun p => (Project.inject_to_master (lit "art-0") p).1)
             model_collected))
     = 13%Z.
Proof.
  assert (Hfind : Project.find_in_bucket model_collected (lit "art-0") = Some 0%nat)
    by (vm_compute; reflexivity).
  split; [exact Hfind|]. split; [reflexivity|].
  rewrite (proj1 (proj2 (inject_to_master_repeats (lit "art-0") model_collected
                           0%nat 8 Hfind))).
  reflexivity.
Defined.

Lemma find_branch_Some bs branch_id k :
  Project.find_branch bs branch_id = Some k ->
  exists b, bs !! k = Some b /\ Branch.id b = branch_id
            /\ forall m b', (m < k)%nat -> bs !! m = Some b' -> Branch.id b' <> branch_id.
Proof.
  revert k. induction bs as [|b bs IH]; intros k H; [discriminate|].
  simpl in H. destruct (str_eqb (Branch.id b) branch_id) eqn:E.
  - injection H as <-. exists b. split; [reflexivity|].
    split; [apply str_eqb_eq, E|]. intros m b' Hm. lia.
  - destruct (Project.find_branch bs branch_id) as [i|]; [|discriminate].
    injection H as <-. destruct (IH i eq_refl) as (b0 & Hb0 & Hid & Hfirst).
    exists b0. split; [exact Hb0|]. split; [exact Hid|].
    intros [|m] b' Hm Hb'.
    + injection Hb' as <-. intros Heq. apply str_eqb_eq in Heq. congruence.
    + apply (Hfirst m b'); [lia | exact Hb'].
Qed.

Lemma collect_from_branch_found now branch_id name content p k :
  Project.find_branch (Project.branches p) branch_id = Some k ->
  exists b art,
    Project.branches p !! k = Some b /\ Branch.id b = branch_id
    /\ (forall m b', (m < k)%nat -> Project.branches p !! m = Some b' ->
                     Branch.id b' <> branch_id)
    /\ Artifact.id art = art_id (length (Project.bucket p))
    /\ Artifact.source_branch art = branch_id
    /\ Artifact.source_depth art = Branch.depth b
    /\ Artifact.status art = COLLECTED
    /\ Artifact.content art = content
    /\ Project.collect_from_branch now branch_id name content p
       = (Project.mk (Project.id p) (Project.name p) (Project.color p)
            (Project.master p)
            (<[k := Branch.set_artifacts
                      (Branch.artifacts b ++ [length (Project.store p)]) b]>
               (Project.branches p))
            (Project.gates p)
            (Project.bucket p ++ [length (Project.store p)])
            (Project.store p ++ [art]),
          Some (length (Project.store p))).
Proof.
  intros Hfind. destruct (find_branch_Some _ _ _ Hfind) as (b & Hb & Hid & Hfirst).
  unfold Project.collect_from_branch. rewrite Hfind.
  rewrite (list_lookup_total_correct _ _ _ Hb).
  eexists b, _. split; [exact Hb|]. split; [exact Hid|]. split; [exact Hfirst|].
  split; [|split; [|split; [|split; [|split]]]]; cycle 5; reflexivity.
Qed.

Lemma model_exec_branch_kept o p i j bi bj :
  Project.branches p !! i = Some bi -> Project.branches p !! j = Some bj ->
  (i < j)%nat -> Branch.id bi = Branch.id bj ->
  (exists bi', Project.branches (exec o p) !! i = Some bi'
               /\ Branch.id bi' = Branch.id bi)
  /\ Project.branches (exec o p) !! j = Some bj.
Proof.
  intros Hi Hj Hlt Hid.
  destruct o as [now name f | now bid n c | aid | aid | aid new]; simpl.
  - split; [exists bi; split; [|reflexivity]|]; apply lookup_app_l_Some; assumption.
  - destruct (Project.find_branch (Project.branches p) bid) as [k|] eqn:Hfind;
      [|unfold Project.collect_from_branch; rewrite Hfind; eauto].
    destruct (collect_from_branch_found now bid n c p k Hfind)
      as (b & art & Hb & Hbid & Hfirst & _ & _ & _ & _ & _ & ->).
    cbn [fst Project.branches].
    assert (Hkj : k <> j).
    { intros ->. apply (Hfirst i bi Hlt Hi). congruence. }
    split; [|rewrite list_lookup_insert_ne by exact Hkj; exact Hj].
    destruct (decide (k = i)) as [-> | Hki].
    + rewrite list_lookup_insert_eq by (eapply lookup_lt_Some, Hi).
      eexists. split; [reflexivity|]. simpl. congruence.
    + rewrite list_lookup_insert_ne by exact Hki. eauto.
  - destruct (Project.find_in_bucket p aid) as [a|] eqn:Hfind.
    + rewrite (inject_to_master_found aid p a Hfind). eauto.
    + unfold Project.inject_to_master. rewrite Hfind. eauto.
  - unfold stage_artifact. destruct (Project.find_in_bucket p aid); eauto.
  - unfold edit_artifact. destruct (Project.find_in_bucket p aid); eauto.
Qed.

(** X15: the id of a branch is the project id, a dash and the name, so two
    branches of one name share it; [collect_from_branch] takes the first
    branch with the id, and whatever calls follow, a later branch with the
    id of an earlier one stays as it is and never receives an artifact. *)
Theorem shadowed_branch_never_collects ops p i j bi bj :
  Project.branches p !! i = Some bi -> Project.branches p !! j = Some bj ->
  (i < j)%nat -> Branch.id bi = Branch.id bj ->
  Project.branches (run ops p) !! j = Some bj.
Proof.
  revert p bi. induction ops as [|o ops IH]; intros p bi Hi Hj Hlt Hid; [exact Hj|].
  simpl. destruct (model_exec_branch_kept o p i j bi bj Hi Hj Hlt Hid)
    as ((bi' & Hi' & Hid') & Hj').
  apply (IH (exec o p) bi' Hi' Hj'); [exact Hlt | congruence].
Qed.

Lemma shadowed_branch_never_collects_witness :
  List.map Branch.id (Project.branches model_twins) = [lit "olo-jpeg-test"; lit "olo-jpeg-test"]
  /\ List.map Branch.artifacts
       (Project.branches
          (run [CollectFromBranch olo_clock (lit "olo-jpeg-test") (lit "n") (lit "c")]
             model_twins))
     = [[0%nat]; []].
Proof.
  split; [vm_compute; reflexivity|].
  destruct (Project.branches model_twins !! 0%nat) as [b0|] eqn:H0;
    [|vm_compute in H0; discriminate H0].
  destruct (Project.branches model_twins !! 1%nat) as [b1|] eqn:H1;
    [|vm_compute in H1; discriminate H1].
  assert (Hid : Branch.id b0 = Branch.id b1).
  { vm_compute in H0, H1. injection H0 as <-. injection H1 as <-. reflexivity. }
  pose proof (shadowed_branch_never_collects
                [CollectFromBranch olo_clock (lit "olo-jpeg-test") (lit "n") (lit "c")]
                model_twins 0%nat 1%nat b0 b1 H0 H1 ltac:(lia) Hid) as H.
  assert (Hb1 : Branch.artifacts b1 = []).
  { vm_compute in H1. injection H1 as <-. reflexivity. }
  destruct (Project.branches (run _ model_twins)) as [|c0 [|c1 [|c2 cs]]] eqn:E;
    try (vm_compute in E; discriminate E).
  simpl in H. injection H as ->. simpl. rewrite Hb1.
  vm_compute in E. injection E as <- _. reflexivity.
Defined.

Lemma model_alter_shelf_ok f a p :
  (forall art, Artifact.id (f art) = Artifact.id art) ->
  (forall art, Artifact.source_branch (f art) = Artifact.source_branch art) ->
  model_shelf_ok p ->
  model_shelf_ok (Project.set_store (alter f a (Project.store p)) p).
Proof.
  intros Hfid Hfsb (Hb & Hids & Hbr).
  assert (Hlook : forall x art0, Project.store p !! x = Some art0 ->
            alter f a (Project.store p) !! x
            = Some (if decide (a = x) then f art0 else art0)).
  { intros x art0 Hx. destruct (decide (a = x)) as [-> | Hne].
    - rewrite list_lookup_alter_eq, Hx. reflexivity.
    - rewrite list_lookup_alter_ne by exact Hne. exact Hx. }
  unfold model_shelf_ok. cbn [Project.set_store Project.bucket Project.store Project.branches].
  split; [rewrite length_alter; exact Hb|]. split.
  - intros x art Hx.
    destruct (Project.store p !! x) as [art0|] eqn:Hx0.
    + rewrite (Hlook x art0 Hx0) in Hx. injection Hx as <-.
      destruct (decide (a = x)); rewrite ?Hfid; apply Hids, Hx0.
    + apply lookup_lt_Some in Hx. rewrite length_alter in Hx.
      apply lookup_ge_None in Hx0. lia.
  - intros i b x Hi Hin. destruct (Hbr i b x Hi Hin) as (art0 & Hx0 & Hsb).
    eexists. split; [apply (Hlook x art0 Hx0)|].
    destruct (decide (a = x)); rewrite ?Hfsb; exact Hsb.
Qed.

Lemma model_exec_shelf_ok o p : model_shelf_ok p -> model_shelf_ok (exec o p).
Proof.
  intros Hok. pose proof Hok as (Hb & Hids & Hbr).
  destruct o as [now name f | now bid n c | aid | aid | aid new]; simpl.
  - split; [exact Hb|]. split; [exact Hids|].
    intros i b a Hi Hin. cbn [Project.branches Project.set_branches] in Hi.
    apply lookup_snoc_Some in Hi as [[_ Hi] | [_ <-]]; [eauto | destruct Hin].
  - destruct (Project.find_branch (Project.branches p) bid) as [k|] eqn:Hfind;
      [|unfold Project.collect_from_branch; rewrite Hfind; exact Hok].
    destruct (collect_from_branch_found now bid n c p k Hfind)
      as (b & art & Hk & Hbid & _ & Hid & Hsb & _ & _ & _ & ->).
    assert (Hn : length (Project.bucket p) = length (Project.store p))
      by (rewrite Hb; apply length_seq).
    rewrite Hn in Hid.
    unfold model_shelf_ok. cbn [fst Project.bucket Project.store Project.branches].
    split; [rewrite length_app, Nat.add_1_r, seq_S, <- Hb; reflexivity|]. split.
    + intros a x Hx. apply lookup_snoc_Some in Hx as [[_ Hx] | [-> <-]]; auto.
    + intros i b' a Hi Hin.
      destruct (decide (k = i)) as [<- | Hne].
      * rewrite list_lookup_insert_eq in Hi by (eapply lookup_lt_Some, Hk).
        injection Hi as <-. cbn [Branch.artifacts Branch.set_artifacts Branch.id] in *.
        apply in_app_or in Hin as [Hin | [<- | []]].
        -- destruct (Hbr k b a Hk Hin) as (art0 & Ha & Hs).
           exists art0. split; [apply lookup_app_l_Some, Ha | exact Hs].
        -- exists art. split; [apply list_lookup_middle; reflexivity | congruence].
      * rewrite list_lookup_insert_ne in Hi by exact Hne.
        destruct (Hbr i b' a Hi Hin) as (art0 & Ha & Hs).
        exists art0. split; [apply lookup_app_l_Some, Ha | exact Hs].
  - unfold Project.inject_to_master.
    destruct (Project.find_in_bucket p aid) as [a|]; [|exact Hok].
    apply (model_alter_shelf_ok (Artifact.set_status INJECTED) a p) in Hok;
      [|reflexivity|reflexivity]. exact Hok.
  - unfold stage_artifact.
    destruct (Project.find_in_bucket p aid) as [a|]; [|exact Hok].
    apply model_alter_shelf_ok; [reflexivity | reflexivity | exact Hok].
  - unfold edit_artifact.
    destruct (Project.find_in_bucket p aid) as [a|]; [|exact Hok].
    apply model_alter_shelf_ok; [reflexivity | reflexivity | exact Hok].
Qed.

Lemma model_reachable_shelf_ok p : model_reachable p -> model_shelf_ok p.
Proof.
  intros (p0 & ops & (Hbr & Hb & Hs) & ->).
  assert (H0 : model_shelf_ok p0).
  { unfold model_shelf_ok. rewrite Hbr, Hb, Hs. split; [reflexivity|].
    split; [intros a art H; destruct a; discriminate H|].
    intros i b a H. destruct i; discriminate H. }
  clear Hbr Hb Hs. revert p0 H0.
  induction ops as [|o ops IH]; intros p0 H0; [exact H0|].
  simpl. apply IH, model_exec_shelf_ok, H0.
Qed.

(** X16: in a project of gently_model.py reached from a fresh one, the
    artifact collected as the [n]-th has the id "art-" [n]; no two artifacts
    share an id; a lookup in the bucket by the id of an artifact finds that
    artifact; and every artifact in the list of a branch is an artifact of
    the bucket that records the id of the branch as its source. *)
Theorem model_artifact_ids p :
  model_reachable p ->
  (forall a art, Project.store p !! a = Some art ->
      Artifact.id art = art_id a
      /\ In a (Project.bucket p)
      /\ Project.find_in_bucket p (Artifact.id art) = Some a)
  /\ (forall a b arta artb,
        Project.store p !! a = Some arta -> Project.store p !! b = Some artb ->
        a <> b -> Artifact.id arta <> Artifact.id artb)
  /\ (forall i b a, Project.branches p !! i = Some b -> In a (Branch.artifacts b) ->
        In a (Project.bucket p)
        /\ exists art, Project.store p !! a = Some art
                       /\ Artifact.source_branch art = Branch.id b).
Proof.
  intros Hreach. destruct (model_reachable_shelf_ok p Hreach) as (Hb & Hids & Hbr).
  assert (Hin : forall a art, Project.store p !! a = Some art -> In a (Project.bucket p)).
  { intros a art Ha. rewrite Hb. apply in_seq. apply lookup_lt_Some in Ha. lia. }
  assert (Huniq : forall a b arta artb,
             Project.store p !! a = Some arta -> Project.store p !! b = Some artb ->
             Artifact.id arta = Artifact.id artb -> a = b).
  { intros a b arta artb Ha Hb' Heq.
    rewrite (Hids a arta Ha), (Hids b artb Hb') in Heq. apply art_id_inj, Heq. }
  split; [|split].
  - intros a art Ha. split; [apply Hids, Ha|]. split; [eapply Hin, Ha|].
    apply find_unique; [eapply Hin, Ha | |].
    + unfold Project.has_id. rewrite Ha. apply str_eqb_eq. reflexivity.
    + intros x _ Hx. unfold Project.has_id in Hx.
      destruct (Project.store p !! x) as [artx|] eqn:Hxs; [|discriminate].
      apply str_eqb_eq in Hx. eapply Huniq; eauto.
  - intros a b arta artb Ha Hb' Hne Heq. apply Hne. eapply Huniq; eauto.
  - intros i b a Hi Ha. destruct (Hbr i b a Hi Ha) as (art & Hart & Hs).
    split; [eapply Hin, Hart|]. eauto.
Qed.

Lemma model_artifact_ids_witness :
  model_reachable model_collected
  /\ Project.find_in_bucket model_collected (lit "art-0") = Some 0%nat.
Proof.
  assert (Hreach : model_reachable model_collected).
  { exists model_project,
      [BranchFromMaster olo_clock (lit "jpeg-test") EXPLORE;
       CollectFromBranch olo_clock (lit "olo-jpeg-test") (lit "jpeg-findings")
         (lit "JPEG kills blue")].
    split; [repeat split|]. vm_compute. reflexivity. }
  split; [exact Hreach|].
  destruct (Project.store model_collected !! 0%nat) as [art|] eqn:Hart;
    [|vm_compute in Hart; discriminate Hart].
  destruct (proj1 (model_artifact_ids model_collected Hreach) 0%nat art Hart)
    as (Hid & _ & Hfind).
  rewrite Hid in Hfind. exact Hfind.
Defined.

Lemma model_exec_master o p :
  MasterChat.max_depth (Project.master (exec o p)) = MasterChat.max_depth (Project.master p)
  /\ MasterChat.conv_state (Project.master (exec o p))
     = MasterChat.conv_state (Project.master p)
  /\ MasterChat.pin (Project.master (exec o p)) = MasterChat.pin (Project.master p)
  /\ Project.id (exec o p) = Project.id p
  /\ Project.gates (exec o p) = Project.gates p
  /\ (MasterChat.depth (Project.master p) <= MasterChat.depth (Project.master (exec o p))
      <= MasterChat.depth (Project.master p) + Z.of_nat (injects [o]))%Z.
Proof.
  destruct o as [now name f | now bid n c | aid | aid | aid new]; simpl.
  - repeat split; unfold injects; simpl; lia.
  - destruct (Project.find_branch (Project.branches p) bid) as [k|] eqn:Hfind.
    + destruct (collect_from_branch_found now bid n c p k Hfind)
        as (b & art & _ & _ & _ & _ & _ & _ & _ & _ & ->).
      repeat split; unfold injects; simpl; lia.
    + unfold Project.collect_from_branch. rewrite Hfind.
      repeat split; unfold injects; simpl; lia.
  - unfold Project.inject_to_master.
    destruct (Project.find_in_bucket p aid); repeat split; unfold injects; simpl; lia.
  - unfold stage_artifact.
    destruct (Project.find_in_bucket p aid); repeat split; unfold injects; simpl; lia.
  - unfold edit_artifact.
    destruct (Project.find_in_bucket p aid); repeat split; unfold injects; simpl; lia.
Qed.

(** X17: of the master chat only the depth ever changes: whatever calls are
    made on a project, [max_depth], the state and the pin of the master, the
    project id and the gates stay as they were, and the depth grows by at
    most one for each [inject_to_master] among the calls. *)
Theorem master_only_deepens ops p :
  let q := run ops p in
  MasterChat.max_depth (Project.master q) = MasterChat.max_depth (Project.master p)
  /\ MasterChat.conv_state (Project.master q) = MasterChat.conv_state (Project.master p)
  /\ MasterChat.pin (Project.master q) = MasterChat.pin (Project.master p)
  /\ Project.id q = Project.id p
  /\ Project.gates q = Project.gates p
  /\ (MasterChat.depth (Project.master p) <= MasterChat.depth (Project.master q)
      <= MasterChat.depth (Project.master p) + Z.of_nat (injects ops))%Z.
Proof.
  cbv zeta. revert p. induction ops as [|o ops IH]; intros p.
  { simpl. unfold injects. simpl. repeat split; lia. }
  simpl. destruct (IH (exec o p)) as (H1 & H2 & H3 & H4 & H5 & H6).
  destruct (model_exec_master o p) as (E1 & E2 & E3 & E4 & E5 & E6).
  assert (Hinj : injects (o :: ops) = (injects [o] + injects ops)%nat).
  { unfold injects. simpl. destruct o; simpl; reflexivity. }
  rewrite Hinj. repeat split; try congruence; lia.
Qed.

End ModelFacts.

(** ** gently_model.py: the application *)

Section GentlyFacts.
Import Py Model ModelOps.

Lemma add_projects_active l g c s :
  Gently.active_project_id g = Some (c :: s) ->
  Gently.active_project_id (add_projects l g) = Some (c :: s)
  /\ Gently.projects (add_projects l g)
     = Gently.projects g ++ List.map (fun x => new_project x.1.1 x.1.2 x.2) l.
Proof.
  revert g. induction l as [|x l IH]; intros g Hg.
  { simpl. rewrite app_nil_r. auto. }
  change (add_projects (x :: l) g)
    with (add_projects l (Gently.add_project x.1.1 x.1.2 x.2 g).1).
  assert (Hg' : (Gently.add_project x.1.1 x.1.2 x.2 g).1
                = Gently.mk (Gently.projects g ++ [new_project x.1.1 x.1.2 x.2])
                    (Some (c :: s))).
  { unfold Gently.add_project. cbn [Gently.active_project_id Gently.projects fst].
    rewrite Hg. reflexivity. }
  rewrite Hg'. destruct (IH (Gently.mk (Gently.projects g ++ [new_project x.1.1 x.1.2 x.2])
                              (Some (c :: s))) eq_refl) as [H1 H2].
  split; [exact H1|]. rewrite H2. cbn [Gently.projects].
  rewrite <- app_assoc. reflexivity.
Qed.

(** X18: the first project added to a new application with a non-empty id
    becomes the active one and stays it, whatever projects are added after
    it (also one with the same id: [active_project] returns the first);
    [switch_project] does not check its argument: after a switch to an id
    no project has, [active_project] returns nothing. *)
Theorem first_project_stays_active id name color rest :
  id <> [] ->
  let g := add_projects ((id, name, color) :: rest) Gently.new in
  Gently.active_project_id g = Some id
  /\ Gently.active_project g = Some (new_project id name color)
  /\ Gently.projects g
     = new_project id name color :: List.map (fun x => new_project x.1.1 x.1.2 x.2) rest
  /\ forall other,
       other <> id -> Forall (fun x => x.1.1 <> other) rest ->
       Gently.active_project (Gently.switch_project other g) = None.
Proof.
  intros Hid. cbv zeta. destruct id as [|c s]; [congruence|].
  change (add_projects ((c :: s, name, color) :: rest) Gently.new)
    with (add_projects rest (Gently.mk [new_project (c :: s) name color] (Some (c :: s)))).
  destruct (add_projects_active rest
              (Gently.mk [new_project (c :: s) name color] (Some (c :: s))) c s eq_refl)
    as [Ha Hp].
  cbn [Gently.projects app] in Hp.
  split; [exact Ha|]. split; [|split; [exact Hp|]].
  - unfold Gently.active_project. rewrite Ha, Hp. cbn [find new_project Project.id].
    replace (str_eqb (c :: s) (c :: s)) with true; [reflexivity|].
    symmetry. apply str_eqb_eq. reflexivity.
  - intros other Hne Hall. unfold Gently.active_project, Gently.switch_project.
    cbn [Gently.active_project_id Gently.projects]. rewrite Hp.
    apply find_all_false. intros x [<- | Hx].
    + cbn [new_project Project.id]. destruct (str_eqb (c :: s) other) eqn:E; [|reflexivity].
      apply str_eqb_eq in E. congruence.
    + apply in_map_iff in Hx as (y & <- & Hy). cbn [new_project Project.id].
      rewrite Forall_forall in Hall. apply list_elem_of_In, Hall in Hy.
      destruct (str_eqb y.1.1 other) eqn:E; [|reflexivity].
      apply str_eqb_eq in E. contradiction.
Qed.

Lemma first_project_stays_active_witness :
  Gently.active_project
    (add_projects [(lit "olo", lit "OLO Guard", lit "#00e5a0");
                   (lit "olo", lit "Second", lit "#ffffff")] Gently.new)
  = Some (new_project (lit "olo") (lit "OLO Guard") (lit "#00e5a0")).
Proof.
  exact (proj1 (proj2 (first_project_stays_active (lit "olo") (lit "OLO Guard")
                         (lit "#00e5a0") [(lit "olo", lit "Second", lit "#ffffff")]
                         ltac:(discriminate)))).
Defined.

End GentlyFacts.

(** ** gently_model.py: the stamp *)

Section ModelStamp.
Import Py.

Lemma model_compact_parts now r :
  Model.Stamp.compact now r
  = lit "[" ++ join [StampPy.PIPE]
      (List.filter StampPy.Stamp.truthy (model_stamp_parts now r))
    ++ lit "]".
Proof.
  unfold Model.Stamp.compact, model_stamp_parts, model_stamp_parent, model_stamp_branch.
  destruct (Model.Stamp.parent_id r) as [[|c par]|];
    destruct (Model.Stamp.fork_type r); reflexivity.
Qed.

Lemma model_gates_parse gates :
  forallb model_gate_ok gates = true ->
  StampPy.Stamp.parse_gates (concat (List.map Model.Gate.symbol gates))
  = List.map (fun g => StampPy.Gate.mk (Model.Gate.letter g) []
                         (Tiers.GateState_value (Model.Gate.state g))) gates.
Proof.
  induction gates as [|[l q st] gates IH]; [reflexivity|].
  simpl forallb. rewrite andb_true_iff. intros [Hg Hgs].
  unfold model_gate_ok in Hg. simpl in Hg.
  destruct l as [|l [|? ?]]; try discriminate.
  simpl. rewrite <- IH by assumption. destruct st; reflexivity.
Qed.

Lemma model_gates_lack gates :
  forallb model_gate_ok gates = true ->
  lacks StampPy.PIPE (concat (List.map Model.Gate.symbol gates)) = true.
Proof.
  induction gates as [|[l q st] gates IH]; [reflexivity|].
  simpl forallb. rewrite andb_true_iff. intros [Hg Hgs].
  unfold model_gate_ok in Hg. simpl in Hg.
  destruct l as [|l [|? ?]]; try discriminate.
  change (concat (List.map Model.Gate.symbol (Model.Gate.mk [l] q st :: gates)))
    with (l :: Tiers.GateState_value st ++ concat (List.map Model.Gate.symbol gates)).
  rewrite lacks_cons, lacks_app, IH, Hg by assumption.
  destruct st; reflexivity.
Qed.

Lemma parse_fork_part s f :
  StampPy.Stamp.parse_part s (0x1F500 :: Tiers.ForkType_value f) = Return s.
Proof. destruct f; reflexivity. Qed.

Lemma model_stamp_ok_fields r :
  model_stamp_ok r = true ->
  lacks StampPy.PIPE (Model.Stamp.project_id r) = true
  /\ lacks StampPy.PIPE (model_stamp_branch r) = true
  /\ lacks StampPy.PIPE (Model.Stamp.pin r) = true
  /\ lacks StampPy.PIPE (model_stamp_parent r) = true
  /\ forallb model_gate_ok (Model.Stamp.gates r) = true.
Proof.
  unfold model_stamp_ok. rewrite !andb_true_iff. tauto.
Qed.

Lemma model_stamp_parts_lack now r :
  model_stamp_ok r = true ->
  forallb (lacks StampPy.PIPE) (model_stamp_parts now r) = true.
Proof.
  intros Hok. destruct (model_stamp_ok_fields r Hok) as (Hid & Hbr & Hpin & Hpar & Hg).
  unfold model_stamp_parts. cbn [forallb].
  rewrite !tagged_if_lacks;
    try (apply model_gates_lack, Hg);
    try (apply tier_pin_lacks; [unfold StampPy.PIPE; lia | exact Hpin]);
    try (unfold StampPy.PIPE; compute; congruence).
  - rewrite !lacks_cons, !lacks_app, !str_of_int_lacks_pipe, Hid, Hbr.
    rewrite strftime_lacks by (reflexivity || (unfold StampPy.PIPE; lia)).
    assert (Hst : lacks StampPy.PIPE (Tiers.ConvState_value (Model.Stamp.conv_state r)) = true)
      by (destruct (Model.Stamp.conv_state r); reflexivity).
    rewrite Hst.
    assert (Hf : lacks StampPy.PIPE
                   match Model.Stamp.fork_type r with
                   | Some f => 0x1F500 :: Tiers.ForkType_value f
                   | None => []
                   end = true)
      by (destruct (Model.Stamp.fork_type r) as [[]|]; reflexivity).
    rewrite Hf. reflexivity.
  - destruct (model_stamp_parent r) as [|c par] eqn:E; [reflexivity|].
    rewrite !lacks_app, Hpar, str_of_int_lacks_pipe. reflexivity.
Qed.

Lemma parse_model_stamp_parts now r :
  forallb model_gate_ok (Model.Stamp.gates r) = true ->
  StampPy.Stamp.parse_parts StampPy.Stamp.default (model_stamp_parts now r)
  = Return (model_stamp_decoded now r).
Proof.
  intros Hg. unfold model_stamp_parts.
  cbn [StampPy.Stamp.parse_parts].
  change (StampPy.Stamp.parse_part StampPy.Stamp.default (lit "OLO"))
    with (Return StampPy.Stamp.default).
  cbn [bind].
  change (StampPy.Stamp.parse_part StampPy.Stamp.default
            (StampPy.TAG_BRANCH :: Model.Stamp.project_id r ++ lit "/"
               ++ model_stamp_branch r))
    with (Return (StampPy.Stamp.set_branch
                    (Model.Stamp.project_id r ++ lit "/" ++ model_stamp_branch r)
                    StampPy.Stamp.default)).
  cbn [bind].
  rewrite parse_depth_part by (apply str_of_int_lacks; [reflexivity | lia]).
  rewrite !int_call_str_of_int. cbn [bind].
  rewrite parse_state_part. cbn [bind].
  rewrite parse_any_gates_part by reflexivity. cbn [bind].
  rewrite parse_pin_part by reflexivity. cbn [bind].
  rewrite parse_parent_part
    by (reflexivity || (apply str_of_int_lacks; [reflexivity | lia])).
  rewrite model_gates_parse, tier_pin_decoded by assumption.
  unfold model_stamp_decoded.
  assert (Hfork : forall s,
             StampPy.Stamp.parse_part s
               match Model.Stamp.fork_type r with
               | Some f => 0x1F500 :: Tiers.ForkType_value f
               | None => []
               end = Return s).
  { intros s. destruct (Model.Stamp.fork_type r); [apply parse_fork_part | reflexivity]. }
  destruct (model_stamp_parent r) as [|c par].
  - cbn [bind]. rewrite Hfork. cbn [bind]. rewrite parse_time_part. reflexivity.
  - rewrite int_call_str_of_int. cbn [bind]. rewrite Hfork. cbn [bind].
    rewrite parse_time_part. reflexivity.
Qed.

(** X19: the compact stamp of gently_model.py is a line the decoder of
    stamp.py reads: when the project id, the branch id, the pin and the
    parent hold no separator and every gate letter is one character,
    [parse_compact] returns a stamp whose branch is the project id, a slash
    and the branch id (master without one), with the depth and max_depth of
    the stamp, the state, the gate letters and states, the pin cut to 25
    characters with dashes read as spaces, and the parent; the parent depth
    it reads is the depth of the stamp itself; the fork type is not read. *)
Theorem model_stamp_parses now r :
  model_stamp_ok r = true ->
  exists s,
    StampPy.Stamp.parse_compact (Model.Stamp.compact now r) = Return (Some s)
    /\ StampPy.Stamp.branch s
       = Model.Stamp.project_id r ++ lit "/" ++ model_stamp_branch r
    /\ StampPy.Stamp.depth s = Model.Stamp.depth r
    /\ StampPy.Stamp.max_depth s = Model.Stamp.max_depth r
    /\ StampPy.Stamp.state s = Tiers.ConvState_value (Model.Stamp.conv_state r)
    /\ List.map gate_pair (StampPy.Stamp.gates s)
       = List.map (fun g => (Model.Gate.letter g,
                             Tiers.GateState_value (Model.Gate.state g)))
           (Model.Stamp.gates r)
    /\ StampPy.Stamp.pin s = replace 45 32 (take 25 (Model.Stamp.pin r))
    /\ StampPy.Stamp.parent s = model_stamp_parent r
    /\ StampPy.Stamp.parent_depth s
       = (match model_stamp_parent r with [] => 0 | _ :: _ => Model.Stamp.depth r end)%Z
    /\ StampPy.Stamp.timestamp s = strftime_mdTHM now
    /\ s = model_stamp_decoded now
             (Model.Stamp.mk (Model.Stamp.project_id r) (Model.Stamp.branch_id r)
                (Model.Stamp.depth r) (Model.Stamp.max_depth r)
                (Model.Stamp.conv_state r) (Model.Stamp.gates r) (Model.Stamp.pin r)
                (Model.Stamp.parent_id r) None []).
Proof.
  intros Hok. exists (model_stamp_decoded now r).
  split.
  - pose proof (model_stamp_parts_lack now r Hok) as Hlack.
    destruct (model_stamp_ok_fields r Hok) as (_ & _ & _ & _ & Hg).
    pose proof (parse_model_stamp_parts now r Hg) as Hparse.
    rewrite <- parse_parts_filter in Hparse.
    apply (forallb_filter _ StampPy.Stamp.truthy) in Hlack.
    rewrite model_compact_parts.
    set (fp := List.filter StampPy.Stamp.truthy (model_stamp_parts now r)) in *.
    assert (Hfp : exists q l, fp = lit "OLO" :: q :: l).
    { subst fp. unfold model_stamp_parts. simpl. eauto. }
    destruct Hfp as (q & l & Hfp).
    assert (Hne : fp <> []) by (rewrite Hfp; discriminate).
    unfold StampPy.Stamp.parse_compact.
    assert (Hstart : startswith (lit "[OLO|") (lit "[" ++ join [StampPy.PIPE] fp ++ lit "]") = true)
      by (rewrite Hfp; reflexivity).
    assert (Hend : endswith (lit "]") (lit "[" ++ join [StampPy.PIPE] fp ++ lit "]") = true)
      by (rewrite app_assoc; apply endswith_snoc).
    rewrite Hstart, Hend. cbn [negb orb].
    change (lit "[" ++ join [StampPy.PIPE] fp ++ lit "]")
      with (91 :: join [StampPy.PIPE] fp ++ [93]).
    rewrite slice_1_neg1_wrap, split_join by assumption.
    rewrite Hparse. reflexivity.
  - unfold model_stamp_decoded.
    cbn [StampPy.Stamp.branch StampPy.Stamp.depth StampPy.Stamp.max_depth
         StampPy.Stamp.state StampPy.Stamp.gates StampPy.Stamp.pin
         StampPy.Stamp.parent StampPy.Stamp.parent_depth StampPy.Stamp.timestamp].
    repeat split. rewrite List.map_map. reflexivity.
Qed.

Lemma model_stamp_parses_witness :
  exists s,
    StampPy.Stamp.parse_compact
      (Model.Stamp.compact olo_clock
         (Model.Branch.make_stamp
            (Model.Branch.mk (lit "olo-jpeg-test") (lit "jpeg-test") Tiers.EXPLORE 5 []
               3 Tiers.OPEN (lit "4:2:0 kills blue") [] 0)
            (lit "olo") []))
    = Return (Some s)
    /\ StampPy.Stamp.branch s = lit "olo/olo-jpeg-test"
    /\ StampPy.Stamp.parent s = lit "master"
    /\ StampPy.Stamp.parent_depth s = 3%Z
    /\ StampPy.Stamp.max_depth s = 3%Z.
Proof.
  destruct (model_stamp_parses olo_clock
              (Model.Branch.make_stamp
                 (Model.Branch.mk (lit "olo-jpeg-test") (lit "jpeg-test") Tiers.EXPLORE 5 []
                    3 Tiers.OPEN (lit "4:2:0 kills blue") [] 0)
                 (lit "olo") []) ltac:(vm_compute; reflexivity))
    as (s & Hs & Hb & _ & Hm & _ & _ & _ & Hpar & Hpd & _).
  exists s. split; [exact Hs|].
  split; [rewrite Hb; vm_compute; reflexivity|].
  split; [rewrite Hpar; vm_compute; reflexivity|].
  split; [rewrite Hpd; vm_compute; reflexivity|].
  rewrite Hm. reflexivity.
Defined.

End ModelStamp.
